(** * Udagram infrastructure scripts: create.py and delete.py

    A shallow embedding of the two CloudFormation orchestration scripts and
    the properties of their control flow.

    The scripts are sequences of calls to external collaborators (the
    CloudFormation and S3 clients of boto3, the local file system, the
    console).  A script is embedded as a term of a small free monad [prog]:
    every external call is a node whose continuation receives the reply, and a
    reply is either a value or a raised exception.  An environment [env]
    answers the calls from a world state; [exec] runs a program against an
    environment and records the trace of printed lines and calls.  Theorems
    quantify over every environment, so they hold whatever the remote services
    answer.

    Every library call may raise any exception.  The scripts anticipate some
    of them ([ClientError] from the services, [FileNotFoundError] from the
    file system, [WaiterError] from a waiter); every other one travels to the
    [__main__] block, which reports it and ends the run with status 1.
    Statements about what a run does after some step say where they rely on
    later calls not raising such an exception.

    The file has three parts: the embedding of the two scripts, the
    vocabulary of the properties (semantics of runs, predicates on traces,
    monitors for the prescribed orders, sample services), and the
    properties. *)

From Stdlib Require Import String Ascii List Bool Lia PeanoNat ZArith.
From stdpp Require Import base gmap strings list.

(** ** Python values used by the scripts *)

(** One entry of [Stacks[0]['Outputs']]; ['Description'] is optional
    (create.py tests ['Description' in output]). *)
Record output := {
  OutputKey : string;
  OutputValue : string;
  Description : option string
}.

(** One entry of [response['Stacks']]; ['Outputs'] is read with
    [.get('Outputs', [])], so it may be missing. *)
Record stack := {
  StackStatus : string;
  Outputs : option (list output)
}.

(** One entry of [events['StackEvents']]; the two [.get] fields are optional. *)
Record stack_event := {
  LogicalResourceId : string;
  ResourceStatus : option string;
  ResourceStatusReason : option string
}.

(** The parsed parameters document, passed unchanged to [create_stack]. *)
Definition parameters := list (string * string).

(** Exceptions a library call can raise.  [KeyboardInterrupt] is the only one
    that is not a subclass of [Exception]; [OtherException] stands for every
    other subclass of [Exception] (IndexError, EOFError, connection errors,
    ...).  The string is [str(e)]. *)
Inductive exn :=
| ClientError (msg : string)
| WaiterError (msg : string)
| FileNotFoundError (msg : string)
| KeyboardInterrupt
| OtherException (msg : string).

Definition str_exn (e : exn) : string :=
  match e with
  | ClientError m | WaiterError m | FileNotFoundError m | OtherException m => m
  | KeyboardInterrupt => ""
  end.

(** [isinstance(e, Exception)] *)
Definition is_Exception (e : exn) : bool :=
  match e with KeyboardInterrupt => false | _ => true end.

(** What unwinds the Python stack: an exception, or [sys.exit(code)], which no
    [except] clause of the scripts catches. *)
Inductive signal :=
| Exc (e : exn)
| SystemExit (code : Z).

(** ** Python string operations

    Text is a [string] whose characters are read as the code points U+0000
    to U+00FF; on that range [str_lower], [isspace] and [str_strip] are
    [str.lower], [str.isspace] and [str.strip]. *)

(** [needle in hay] *)
Fixpoint py_in (needle hay : string) : bool :=
  String.prefix needle hay ||
  match hay with
  | EmptyString => false
  | String _ rest => py_in needle rest
  end.

Definition lower_char (c : ascii) : ascii :=
  let n := nat_of_ascii c in
  if ((65 <=? n) && (n <=? 90)) ||
     ((192 <=? n) && (n <=? 222) && negb (n =? 215))
  then ascii_of_nat (n + 32) else c.

Fixpoint str_lower (s : string) : string :=
  match s with
  | EmptyString => EmptyString
  | String c rest => String (lower_char c) (str_lower rest)
  end.

Definition isspace (c : ascii) : bool :=
  let n := nat_of_ascii c in
  ((9 <=? n) && (n <=? 13)) || ((28 <=? n) && (n <=? 32)) ||
  (n =? 133) || (n =? 160).

Fixpoint str_lstrip (s : string) : string :=
  match s with
  | EmptyString => EmptyString
  | String c rest => if isspace c then str_lstrip rest else s
  end.

Fixpoint str_rstrip (s : string) : string :=
  match s with
  | EmptyString => EmptyString
  | String c rest =>
      match str_rstrip rest with
      | EmptyString => if isspace c then EmptyString else String c EmptyString
      | r => String c r
      end
  end.

Definition str_strip (s : string) : string := str_rstrip (str_lstrip s).

(** Truthiness of [value|None] as tested by [if s3_bucket_name:]: [None] and
    the empty string are both false. *)
Definition truthy (v : option string) : bool :=
  match v with
  | Some (String _ _) => true
  | _ => false
  end.

Definition newline : string := String (ascii_of_nat 10) EmptyString.

(** ["=" * 70] *)
Fixpoint repeat_string (s : string) (n : nat) : string :=
  match n with
  | O => EmptyString
  | S k => s +:+ repeat_string s k
  end.

Definition rule : string := repeat_string "=" 70.

(** ** External calls *)

(** The two botocore waiters the scripts ask for. *)
Inductive waiter := stack_create_complete | stack_delete_complete.

(** What one poll of a waiter finds. *)
Inductive poll_state := PollSuccess | PollFailure | PollWaiting.

Inductive call :=
| CF_describe_stacks (StackName : string)
| CF_create_stack (StackName TemplateBody : string) (Parameters : parameters)
    (Capabilities : list string) (Tags : list (string * string))
| CF_delete_stack (StackName : string)
| CF_describe_stack_events (StackName : string)
| CF_waiter_poll (w : waiter) (StackName : string)
| Sleep (seconds : nat)
| S3_upload_file (Filename Bucket Key ContentType : string)
| S3_delete_objects (Bucket : string)
| S3_delete_object_versions (Bucket : string)
| ReadText (path : string)
| ReadJson (path : string)
| Input (prompt : string).

(** The value a call returns when it does not raise. *)
Definition value (c : call) : Type :=
  match c with
  | CF_describe_stacks _ => list stack
  | CF_create_stack _ _ _ _ _ => string
  | CF_delete_stack _ => unit
  | CF_describe_stack_events _ => list stack_event
  | CF_waiter_poll _ _ => poll_state
  | Sleep _ => unit
  | S3_upload_file _ _ _ _ => unit
  | S3_delete_objects _ => unit
  | S3_delete_object_versions _ => unit
  | ReadText _ => string
  | ReadJson _ => parameters
  | Input _ => string
  end.

Definition reply (c : call) : Type := (exn + value c)%type.

(** Console output.  The helper that printed a line is kept as the
    constructor; [Header] is the three lines of [print_section]. *)
Inductive line :=
| Plain (s : string)
| Header (s : string)
| Success (s : string)
| Error (s : string)
| Info (s : string)
| Warning (s : string).

(** ** Programs *)

Inductive prog (A : Type) : Type :=
| Ret (a : A)
| Raise (s : signal)
| Print (l : line) (k : prog A)
| Call (c : call) (k : reply c -> prog A).

Arguments Ret {A} a.
Arguments Raise {A} s.
Arguments Print {A} l k.
Arguments Call {A} c k.

Fixpoint bind {A B : Type} (p : prog A) (f : A -> prog B) : prog B :=
  match p with
  | Ret a => f a
  | Raise s => Raise s
  | Print l k => Print l (bind k f)
  | Call c k => Call c (fun r => bind (k r) f)
  end.

Notation "'do' x <- p ; k" := (bind p (fun x => k))
  (at level 10, x name, p at level 100, k at level 200, only parsing).

(** [try: p except ...: h]: the handler answers [None] for an exception that
    no clause matches, which then propagates. *)
Fixpoint try_except {A : Type} (p : prog A) (h : exn -> option (prog A)) : prog A :=
  match p with
  | Ret a => Ret a
  | Raise (Exc e) => match h e with Some q => q | None => Raise (Exc e) end
  | Raise (SystemExit n) => Raise (SystemExit n)
  | Print l k => Print l (try_except k h)
  | Call c k => Call c (fun r => try_except (k r) h)
  end.

(** A library call: the value, or the exception raised. *)
Definition perform (c : call) : prog (value c) :=
  Call c (fun r => match r with inl e => Raise (Exc e) | inr v => Ret v end).

Definition print (s : string) : prog unit := Print (Plain s) (Ret tt).
Definition sys_exit {A : Type} (code : Z) : prog A := Raise (SystemExit code).
Definition raise {A : Type} (e : exn) : prog A := Raise (Exc e).

(** ** Running a program *)

Inductive event :=
| Printed (l : line)
| Called (c : call) (r : reply c).

Inductive result (A : Type) : Type :=
| Done (a : A)
| Stop (s : signal).

Arguments Done {A} a.
Arguments Stop {A} s.

Record run (W A : Type) := Run {
  trace : list event;
  outcome : result A;
  final : W
}.

Arguments Run {W A} trace outcome final.
Arguments trace {W A} r.
Arguments outcome {W A} r.
Arguments final {W A} r.

(** An environment answers every call from its current world and moves to the
    next world. *)
Record env (W : Type) := Env {
  respond : forall c : call, W -> reply c * W
}.

Arguments Env {W} respond.
Arguments respond {W} e c w.

Definition logged {W A : Type} (ev : event) (r : run W A) : run W A :=
  Run (ev :: trace r) (outcome r) (final r).

Fixpoint exec {W A : Type} (E : env W) (p : prog A) (w : W) : run W A :=
  match p with
  | Ret a => Run [] (Done a) w
  | Raise s => Run [] (Stop s) w
  | Print l k => logged (Printed l) (exec E k w)
  | Call c k =>
      let rw := respond E c w in
      logged (Called c (fst rw)) (exec E (k (fst rw)) (snd rw))
  end.

(** The process exit status: 0 when the script runs off its end, the argument
    of [sys.exit], 1 for an uncaught exception. *)
Definition exit_code {A : Type} (o : result A) : Z :=
  match o with
  | Done _ => 0%Z
  | Stop (SystemExit n) => n
  | Stop (Exc _) => 1%Z
  end.

(** ** Helpers the two scripts define identically *)

Definition print_section (message : string) : prog unit :=
  do _ <- print (newline +:+ rule);
  do _ <- print ("  " +:+ message);
  print rule.

Definition print_success (message : string) : prog unit := Print (Success message) (Ret tt).
Definition print_error (message : string) : prog unit := Print (Error message) (Ret tt).
Definition print_info (message : string) : prog unit := Print (Info message) (Ret tt).

(** The [for output in outputs] scan of [get_stack_output]: the value of the
    first output whose key matches. *)
Fixpoint scan_outputs (outputs : list output) (output_key : string) : option string :=
  match outputs with
  | [] => None
  | output :: rest =>
      if String.eqb (OutputKey output) output_key
      then Some (OutputValue output)
      else scan_outputs rest output_key
  end.

(** [response['Stacks'][0]]: IndexError on an empty list. *)
Definition first_stack (response : list stack) : prog stack :=
  match response with
  | [] => raise (OtherException "list index out of range")
  | s :: _ => Ret s
  end.

Definition get_stack_output (stack_name output_key : string) : prog (option string) :=
  try_except
    (do response <- perform (CF_describe_stacks stack_name);
     do s <- first_stack response;
     let outputs := default [] (Outputs s) in
     Ret (scan_outputs outputs output_key))
    (fun e =>
       match e with
       | ClientError m =>
           Some (do _ <- print_error ("Failed to get stack output: " +:+ m);
                 Ret None)
       | _ => None
       end).

(** The [for event in events['StackEvents'][:10]] loop of the two wait
    helpers, applied to the slice. *)
Fixpoint dump_failed_events (events : list stack_event) : prog unit :=
  match events with
  | [] => Ret tt
  | event :: rest =>
      do _ <- (if py_in "FAILED" (default "" (ResourceStatus event))
               then print ("  - " +:+ LogicalResourceId event +:+ ": " +:+
                           default "Unknown error" (ResourceStatusReason event))
               else Ret tt);
      dump_failed_events rest
  end.

(** Modelled from the spec: the poll loop of botocore's [waiter.wait], which
    the scripts call with [Delay] and [MaxAttempts] and whose code is not in
    the repository.  It polls the stack on a fixed interval until a terminal
    state is reached or the attempts are exhausted; a failure state and
    exhaustion raise [WaiterError]. *)
Fixpoint waiter_loop (w : waiter) (stack_name : string) (delay attempts : nat) : prog unit :=
  match attempts with
  | O => raise (WaiterError "Max attempts exceeded")
  | S remaining =>
      do st <- perform (CF_waiter_poll w stack_name);
      match st with
      | PollSuccess => Ret tt
      | PollFailure => raise (WaiterError "Waiter encountered a terminal failure state")
      | PollWaiting =>
          match remaining with
          | O => raise (WaiterError "Max attempts exceeded")
          | S _ =>
              do _ <- perform (Sleep delay);
              waiter_loop w stack_name delay remaining
          end
      end
  end.

Definition waiter_wait (w : waiter) (StackName : string) (Delay MaxAttempts : nat) : prog unit :=
  waiter_loop w StackName Delay MaxAttempts.

(** The [except WaiterError] branch shared by the two wait helpers, after its
    first [print_error]: a best-effort dump of the first ten events. *)
Definition dump_stack_events (stack_name : string) : prog unit :=
  try_except
    (do events <- perform (CF_describe_stack_events stack_name);
     do _ <- print (newline +:+ "Recent stack events:");
     dump_failed_events (firstn 10 events))
    (fun e => if is_Exception e then Some (Ret tt) else None).

(** The [if __name__ == '__main__'] block of both scripts. *)
Definition toplevel (main : prog unit) : prog unit :=
  try_except main
    (fun e =>
       match e with
       | KeyboardInterrupt =>
           Some (do _ <- print (newline +:+ newline +:+ "Operation cancelled by user.");
                 sys_exit 1)
       | _ =>
           Some (do _ <- print_error ("Unexpected error: " +:+ str_exn e);
                 sys_exit 1)
       end).

(** ** create.py *)

Module Create.

Definition NETWORK_STACK_NAME : string := "udagram-network".
Definition APP_STACK_NAME : string := "udagram-app".
Definition NETWORK_TEMPLATE : string := "network.yml".
Definition NETWORK_PARAMETERS : string := "network-parameters.json".
Definition APP_TEMPLATE : string := "udagram.yml".
Definition APP_PARAMETERS : string := "udagram-parameters.json".
Definition STATIC_CONTENT_FILE : string := "static-content/index.html".
Definition REGION : string := "us-east-1".

Definition read_template (template_file : string) : prog string :=
  try_except (perform (ReadText template_file))
    (fun e =>
       match e with
       | FileNotFoundError _ =>
           Some (do _ <- print_error ("Template file not found: " +:+ template_file);
                 sys_exit 1)
       | _ => None
       end).

Definition read_parameters (parameter_file : string) : prog parameters :=
  try_except (perform (ReadJson parameter_file))
    (fun e =>
       match e with
       | FileNotFoundError _ =>
           Some (do _ <- print_error ("Parameter file not found: " +:+ parameter_file);
                 sys_exit 1)
       | _ => None
       end).

Definition stack_exists (stack_name : string) : prog bool :=
  try_except
    (do _ <- perform (CF_describe_stacks stack_name);
     Ret true)
    (fun e =>
       match e with
       | ClientError m =>
           Some (if py_in "does not exist" m then Ret false else raise e)
       | _ => None
       end).

Definition create_stack (stack_name template_body : string) (params : parameters) : prog bool :=
  try_except
    (do _ <- print_info ("Creating stack: " +:+ stack_name);
     do response <- perform (CF_create_stack stack_name template_body params
                               ["CAPABILITY_NAMED_IAM"]
                               [("Project", "Udagram"); ("Environment", "Production")]);
     do _ <- print_success ("Stack creation initiated: " +:+ response);
     Ret true)
    (fun e =>
       match e with
       | ClientError m =>
           Some (do _ <- print_error ("Failed to create stack: " +:+ m);
                 Ret false)
       | _ => None
       end).

Definition wait_for_stack_creation (stack_name : string) : prog bool :=
  do _ <- print_info ("Waiting for stack " +:+ stack_name +:+ " to be created...");
  do _ <- print_info "This may take several minutes. Please be patient.";
  try_except
    (do _ <- waiter_wait stack_create_complete stack_name 30 120;
     do _ <- print_success ("Stack " +:+ stack_name +:+ " created successfully!");
     Ret true)
    (fun e =>
       match e with
       | WaiterError m =>
           Some (do _ <- print_error ("Stack creation failed: " +:+ m);
                 do _ <- dump_stack_events stack_name;
                 Ret false)
       | _ => None
       end).

Definition upload_to_s3 (bucket_name file_path s3_key : string) : prog bool :=
  try_except
    (do _ <- print_info ("Uploading " +:+ file_path +:+ " to S3 bucket: " +:+ bucket_name);
     do _ <- perform (S3_upload_file file_path bucket_name s3_key "text/html");
     do _ <- print_success ("File uploaded successfully to s3://" +:+ bucket_name +:+ "/" +:+ s3_key);
     Ret true)
    (fun e =>
       match e with
       | FileNotFoundError _ =>
           Some (do _ <- print_error ("File not found: " +:+ file_path);
                 Ret false)
       | ClientError m =>
           Some (do _ <- print_error ("Failed to upload to S3: " +:+ m);
                 Ret false)
       | _ => None
       end).

(** The [for output in outputs] loop of [display_stack_outputs]. *)
Fixpoint print_outputs (outputs : list output) : prog unit :=
  match outputs with
  | [] => Ret tt
  | output :: rest =>
      do _ <- print ("  " +:+ OutputKey output +:+ ": " +:+ OutputValue output);
      do _ <- match Description output with
              | Some d => print ("    Description: " +:+ d)
              | None => Ret tt
              end;
      print_outputs rest
  end.

Definition display_stack_outputs (stack_name : string) : prog unit :=
  try_except
    (do response <- perform (CF_describe_stacks stack_name);
     do s <- first_stack response;
     let outputs := default [] (Outputs s) in
     match outputs with
     | _ :: _ =>
         do _ <- print_section ("Stack Outputs: " +:+ stack_name);
         print_outputs outputs
     | [] => print_info ("No outputs available for stack: " +:+ stack_name)
     end)
    (fun e =>
       match e with
       | ClientError m =>
           Some (print_error ("Failed to get stack outputs: " +:+ m))
       | _ => None
       end).

(** The last block of [main]: step 3 and the summary. *)
Definition publish_and_summarise : prog unit :=
  do _ <- print_section "Step 3: Uploading Static Content to S3";
  do s3_bucket_name <- get_stack_output APP_STACK_NAME "S3BucketName";
  do _ <- (if truthy s3_bucket_name
           then
             do ok <- upload_to_s3 (default "" s3_bucket_name) STATIC_CONTENT_FILE "index.html";
             if ok
             then print_success "Static content uploaded successfully!"
             else
               do _ <- print_error "Failed to upload static content.";
               print_info "You can manually upload the file later."
           else print_error "Could not retrieve S3 bucket name from stack outputs.");
  do _ <- print_section "Infrastructure Creation Complete!";
  do load_balancer_url <- get_stack_output APP_STACK_NAME "LoadBalancerURL";
  do _ <- (if truthy load_balancer_url
           then
             do _ <- print_success "Your application is now available at:";
             do _ <- print (newline +:+ "    " +:+ default "" load_balancer_url +:+ newline);
             do _ <- print_info "Note: It may take a few minutes for the instances to become healthy.";
             print_info "The health check grace period is 5 minutes."
           else Ret tt);
  do _ <- print (newline +:+ rule);
  do _ <- print "  Next Steps:";
  do _ <- print "  1. Wait 5-10 minutes for instances to become healthy";
  do _ <- print "  2. Access your application using the URL above";
  do _ <- print "  3. Verify the page displays: 'It works! Udagram, Udacity'";
  print (rule +:+ newline).

(** The middle block of [main]: steps 1 and 2. *)
Definition provision : prog unit :=
  do _ <- print_section "Step 1: Creating Network Infrastructure";
  do network_template <- read_template NETWORK_TEMPLATE;
  do network_parameters <- read_parameters NETWORK_PARAMETERS;
  do created <- create_stack NETWORK_STACK_NAME network_template network_parameters;
  do _ <- (if negb created
           then do _ <- print_error "Failed to create network stack. Exiting."; sys_exit 1
           else Ret tt);
  do ready <- wait_for_stack_creation NETWORK_STACK_NAME;
  do _ <- (if negb ready
           then do _ <- print_error "Network stack creation failed. Exiting."; sys_exit 1
           else Ret tt);
  do _ <- display_stack_outputs NETWORK_STACK_NAME;
  do _ <- print_section "Step 2: Creating Application Infrastructure";
  do app_template <- read_template APP_TEMPLATE;
  do app_parameters <- read_parameters APP_PARAMETERS;
  do created <- create_stack APP_STACK_NAME app_template app_parameters;
  do _ <- (if negb created
           then do _ <- print_error "Failed to create application stack. Exiting."; sys_exit 1
           else Ret tt);
  do ready <- wait_for_stack_creation APP_STACK_NAME;
  do _ <- (if negb ready
           then do _ <- print_error "Application stack creation failed. Exiting."; sys_exit 1
           else Ret tt);
  display_stack_outputs APP_STACK_NAME.

(** The opening of [main]: the banner and the check that neither stack
    exists yet. *)
Definition precheck : prog unit :=
  do _ <- print_section "Udagram Infrastructure Creation";
  do _ <- print_info ("Region: " +:+ REGION);
  do _ <- print_info ("Network Stack: " +:+ NETWORK_STACK_NAME);
  do _ <- print_info ("Application Stack: " +:+ APP_STACK_NAME);
  do net_exists <- stack_exists NETWORK_STACK_NAME;
  do _ <- (if net_exists
           then
             do _ <- print_error ("Stack " +:+ NETWORK_STACK_NAME +:+ " already exists!");
             do _ <- print_info "Please delete the existing stack first or use a different stack name.";
             sys_exit 1
           else Ret tt);
  do app_exists <- stack_exists APP_STACK_NAME;
  if app_exists
  then
    do _ <- print_error ("Stack " +:+ APP_STACK_NAME +:+ " already exists!");
    do _ <- print_info "Please delete the existing stack first or use a different stack name.";
    sys_exit 1
  else Ret tt.

(** [main] is its three blocks in sequence; no local variable of one block is
    read by a later one. *)
Definition main : prog unit :=
  do _ <- precheck;
  do _ <- provision;
  publish_and_summarise.

Definition script : prog unit := toplevel main.

End Create.

(** ** delete.py *)

Module Delete.

Definition NETWORK_STACK_NAME : string := "udagram-network".
Definition APP_STACK_NAME : string := "udagram-app".
Definition REGION : string := "us-east-1".

Definition print_warning (message : string) : prog unit := Print (Warning message) (Ret tt).

Definition stack_exists (stack_name : string) : prog bool :=
  try_except
    (do response <- perform (CF_describe_stacks stack_name);
     do s <- first_stack response;
     let status := StackStatus s in
     if String.eqb status "DELETE_COMPLETE" then Ret false else Ret true)
    (fun e =>
       match e with
       | ClientError m =>
           Some (if py_in "does not exist" m then Ret false else raise e)
       | _ => None
       end).

Definition empty_s3_bucket (bucket_name : string) : prog bool :=
  try_except
    (do _ <- print_info ("Emptying S3 bucket: " +:+ bucket_name);
     do _ <- perform (S3_delete_objects bucket_name);
     do _ <- perform (S3_delete_object_versions bucket_name);
     do _ <- print_success ("S3 bucket " +:+ bucket_name +:+ " emptied successfully!");
     Ret true)
    (fun e =>
       match e with
       | ClientError m =>
           Some (if py_in "NoSuchBucket" m
                 then
                   do _ <- print_info ("Bucket " +:+ bucket_name +:+ " does not exist or is already deleted.");
                   Ret true
                 else
                   do _ <- print_error ("Failed to empty S3 bucket: " +:+ m);
                   Ret false)
       | _ => None
       end).

Definition delete_stack (stack_name : string) : prog bool :=
  try_except
    (do _ <- print_info ("Deleting stack: " +:+ stack_name);
     do _ <- perform (CF_delete_stack stack_name);
     do _ <- print_success ("Stack deletion initiated: " +:+ stack_name);
     Ret true)
    (fun e =>
       match e with
       | ClientError m =>
           Some (do _ <- print_error ("Failed to delete stack: " +:+ m);
                 Ret false)
       | _ => None
       end).

Definition wait_for_stack_deletion (stack_name : string) : prog bool :=
  do _ <- print_info ("Waiting for stack " +:+ stack_name +:+ " to be deleted...");
  do _ <- print_info "This may take several minutes. Please be patient.";
  try_except
    (do _ <- waiter_wait stack_delete_complete stack_name 30 120;
     do _ <- print_success ("Stack " +:+ stack_name +:+ " deleted successfully!");
     Ret true)
    (fun e =>
       match e with
       | WaiterError m =>
           Some (do _ <- print_error ("Stack deletion failed: " +:+ m);
                 do _ <- dump_stack_events stack_name;
                 Ret false)
       | _ => None
       end).

(** [response in ['yes', 'y']] for the answer typed at the prompt, after
    [.lower().strip()]. *)
Definition accepted (answer : string) : bool :=
  let response := str_strip (str_lower answer) in
  String.eqb response "yes" || String.eqb response "y".

Definition confirm_deletion : prog bool :=
  do _ <- print_section "Udagram Infrastructure Deletion";
  do _ <- print_warning "This will DELETE all Udagram infrastructure!";
  do _ <- print_warning "This action CANNOT be undone!";
  do _ <- print (newline +:+ "The following stacks will be deleted:");
  do _ <- print ("  1. " +:+ APP_STACK_NAME);
  do _ <- print ("  2. " +:+ NETWORK_STACK_NAME);
  do answer <- perform (Input (newline +:+ "Are you sure you want to continue? (yes/no): "));
  Ret (accepted answer).

(** Step 1 of [main] once the bucket name has been looked up. *)
Definition empty_or_exit (s3_bucket_name : option string) : prog unit :=
  if truthy s3_bucket_name
  then
    do emptied <- empty_s3_bucket (default "" s3_bucket_name);
    if negb emptied
    then
      do _ <- print_error "Failed to empty S3 bucket. Cannot proceed with deletion.";
      do _ <- print_info "Please manually empty the S3 bucket and try again.";
      sys_exit 1
    else Ret tt
  else print_warning "Could not retrieve S3 bucket name. Proceeding with stack deletion.".

(** Step 1 of [main]. *)
Definition empty_bucket_step (app_stack_exists : bool) : prog unit :=
  if app_stack_exists
  then
    do _ <- print_section "Step 1: Emptying S3 Bucket";
    do s3_bucket_name <- get_stack_output APP_STACK_NAME "S3BucketName";
    empty_or_exit s3_bucket_name
  else Ret tt.

(** Step 2 of [main]. *)
Definition delete_app_step (app_stack_exists : bool) : prog unit :=
  if app_stack_exists
  then
    do _ <- print_section "Step 2: Deleting Application Infrastructure";
    do requested <- delete_stack APP_STACK_NAME;
    do _ <- (if negb requested
             then
               do _ <- print_error "Failed to initiate application stack deletion. Exiting.";
               sys_exit 1
             else Ret tt);
    do gone <- wait_for_stack_deletion APP_STACK_NAME;
    if negb gone
    then
      do _ <- print_error "Application stack deletion failed.";
      do _ <- print_info "Please check the AWS Console for more details.";
      sys_exit 1
    else Ret tt
  else print_info ("Stack " +:+ APP_STACK_NAME +:+ " does not exist or is already deleted.").

(** Step 3 of [main]. *)
Definition delete_network_step (network_stack_exists : bool) : prog unit :=
  if network_stack_exists
  then
    do _ <- print_section "Step 3: Deleting Network Infrastructure";
    do requested <- delete_stack NETWORK_STACK_NAME;
    do _ <- (if negb requested
             then
               do _ <- print_error "Failed to initiate network stack deletion. Exiting.";
               sys_exit 1
             else Ret tt);
    do gone <- wait_for_stack_deletion NETWORK_STACK_NAME;
    if negb gone
    then
      do _ <- print_error "Network stack deletion failed.";
      do _ <- print_info "Please check the AWS Console for more details.";
      sys_exit 1
    else Ret tt
  else print_info ("Stack " +:+ NETWORK_STACK_NAME +:+ " does not exist or is already deleted.").

(** The final summary of [main]. *)
Definition summary : prog unit :=
  do _ <- print_section "Infrastructure Deletion Complete!";
  do _ <- print_success "All Udagram resources have been successfully deleted.";
  do _ <- print_info "Your AWS account has been cleaned up.";
  print (newline +:+ rule +:+ newline).

(** Steps 1 to 3 of [main] and the summary, given the two existence flags. *)
Definition teardown (app_stack_exists network_stack_exists : bool) : prog unit :=
  do _ <- empty_bucket_step app_stack_exists;
  do _ <- delete_app_step app_stack_exists;
  do _ <- delete_network_step network_stack_exists;
  summary.

Definition main : prog unit :=
  do _ <- print_info ("Region: " +:+ REGION);
  do confirmed <- confirm_deletion;
  do _ <- (if negb confirmed
           then do _ <- print_info "Deletion cancelled by user."; sys_exit 0
           else Ret tt);
  do app_stack_exists <- stack_exists APP_STACK_NAME;
  do network_stack_exists <- stack_exists NETWORK_STACK_NAME;
  do _ <- (if negb app_stack_exists && negb network_stack_exists
           then do _ <- print_info "No Udagram stacks found. Nothing to delete."; sys_exit 0
           else Ret tt);
  teardown app_stack_exists network_stack_exists.

Definition script : prog unit := toplevel main.

End Delete.

(** * Vocabulary of the properties

    The semantics of runs, the predicates on replies and traces, the
    monitors and the sample services that the statements below use. *)

(** ** Semantics of sequencing and of [try]/[except] *)

Definition prepend {W A : Type} (t : list event) (r : run W A) : run W A :=
  Run (t ++ trace r) (outcome r) (final r).

Definition andthen {W A B : Type} (r : run W A) (k : A -> W -> run W B) : run W B :=
  match outcome r with
  | Done a => prepend (trace r) (k a (final r))
  | Stop s => Run (trace r) (Stop s) (final r)
  end.

Definition recover {W A : Type} (r : run W A) (h : exn -> option (W -> run W A)) : run W A :=
  match outcome r with
  | Stop (Exc e) =>
      match h e with
      | Some k => prepend (trace r) (k (final r))
      | None => r
      end
  | _ => r
  end.

(** [answers E w c r w']: in world [w] the environment answers call [c] with
    reply [r] and moves to world [w']. *)
Definition answers {W : Type} (E : env W) (w : W) (c : call) (r : reply c) (w' : W) : Prop :=
  respond E c w = (r, w').

(** The calls of a trace, and tests on them. *)
Definition is_call (ev : event) : bool :=
  match ev with Called _ _ => true | Printed _ => false end.

Definition calls (t : list event) : list event := List.filter is_call t.

(** ** Which calls a run issued *)

Definition reply_in {W : Type} (E : env W) (w : W) (c : call) : reply c := fst (respond E c w).
Definition world_after {W : Type} (E : env W) (w : W) (c : call) : W := snd (respond E c w).

Definition is_create (c : call) : bool :=
  match c with CF_create_stack _ _ _ _ _ => true | _ => false end.

Definition is_delete_stack (c : call) : bool :=
  match c with CF_delete_stack _ => true | _ => false end.

(** Calls that change something at the remote services. *)
Definition is_mutation (c : call) : bool :=
  match c with
  | CF_create_stack _ _ _ _ _ | CF_delete_stack _ | S3_upload_file _ _ _ _
  | S3_delete_objects _ | S3_delete_object_versions _ => true
  | _ => false
  end.

(** Calls that reach CloudFormation or S3 at all. *)
Definition is_remote (c : call) : bool :=
  match c with
  | Sleep _ | ReadText _ | ReadJson _ | Input _ => false
  | _ => true
  end.

Definition issued (p : call -> bool) (t : list event) : bool :=
  existsb (fun ev => match ev with Called c _ => p c | Printed _ => false end) t.

(** The line the [__main__] block prints for an exception that reaches it. *)
Definition crash_report (e : exn) : line :=
  match e with
  | KeyboardInterrupt => Plain (newline +:+ newline +:+ "Operation cancelled by user.")
  | _ => Error ("Unexpected error: " +:+ str_exn e)
  end.

(** A script run is the run of its [main], except that an exception reaching
    the top is reported and turned into exit status 1. *)
Definition at_toplevel {W A : Type} (r : run W A) : run W A :=
  match outcome r with
  | Stop (Exc e) =>
      Run (trace r ++ [Printed (crash_report e)]) (Stop (SystemExit 1)) (final r)
  | _ => r
  end.

(** ** The existence check *)

(** A describe reply that the delete flow reads as "nothing there". *)
Definition absent_or_deleted {name : string} (r : reply (CF_describe_stacks name)) : Prop :=
  match r with
  | inl (ClientError m) => py_in "does not exist" m = true
  | inr (s :: _) => StackStatus s = "DELETE_COMPLETE"
  | _ => False
  end.

(** A describe reply that carries a record of the stack. *)
Definition described {name : string} (r : reply (CF_describe_stacks name)) : Prop :=
  match r with
  | inr _ => True
  | inl _ => False
  end.

(** ** Scripted environments

    An environment whose world is the number of calls answered so far; the
    reply to a call may depend on that number. *)

Definition scripted (answer : forall c : call, nat -> reply c) : env nat :=
  Env (fun c n => (answer c n, S n)).

(** ** The prompt of [confirm_deletion] *)

Definition confirmation_prompt : string :=
  newline +:+ "Are you sure you want to continue? (yes/no): ".

(** ** Emptying the bucket *)

Definition succeeded {c : call} (r : reply c) : Prop :=
  match r with inr _ => True | inl _ => False end.

Definition bucket_missing {c : call} (r : reply c) : Prop :=
  match r with
  | inl (ClientError m) => py_in "NoSuchBucket" m = true
  | _ => False
  end.

(** A ClientError that does not name a missing bucket. *)
Definition refused {c : call} (r : reply c) : Prop :=
  match r with
  | inl (ClientError m) => py_in "NoSuchBucket" m = false
  | _ => False
  end.

(** Modelled from the spec: the bucket store of the object-storage service,
    which is not part of the repository.  A bucket holds current objects and
    object versions; deleting all objects removes the current objects,
    deleting all versions removes every version, and both fail with a
    NoSuchBucket error on a bucket that does not exist. *)
Record bucket := {
  objects : list string;
  object_versions : list (string * string)
}.

Definition no_such_bucket : exn :=
  ClientError "An error occurred (NoSuchBucket): The specified bucket does not exist".

(** Modelled from the spec: the two emptying operations on that store; every
    other call is outside the model. *)
Definition bucket_store : env (gmap string bucket) :=
  Env (fun c (store : gmap string bucket) =>
    match c return reply c * gmap string bucket with
    | S3_delete_objects b =>
        match store !! b with
        | Some content =>
            (inr tt, <[b := {| objects := []; object_versions := object_versions content |}]> store)
        | None => (inl no_such_bucket, store)
        end
    | S3_delete_object_versions b =>
        match store !! b with
        | Some content =>
            (inr tt, <[b := {| objects := objects content; object_versions := [] |}]> store)
        | None => (inl no_such_bucket, store)
        end
    | _ => (inl (OtherException "not a bucket operation"), store)
    end).

Definition empty_bucket : bucket := {| objects := []; object_versions := [] |}.

(** ** The poll loop *)

Definition on_call (p : call -> bool) (ev : event) : bool :=
  match ev with Called c _ => p c | Printed _ => false end.

Definition count_calls (p : call -> bool) (t : list event) : nat :=
  length (List.filter (on_call p) t).

Definition is_poll (c : call) : bool :=
  match c with CF_waiter_poll _ _ => true | _ => false end.

Definition is_sleep (c : call) : bool :=
  match c with Sleep _ => true | _ => false end.

(** The delays slept, in order. *)
Definition sleeps (t : list event) : list nat :=
  omap (fun ev => match ev with Called (Sleep s) _ => Some s | _ => None end) t.

Definition poll_succeeded (ev : event) : bool :=
  match ev with
  | Called (CF_waiter_poll _ _) (inr PollSuccess) => true
  | _ => false
  end.

(** Some call of the trace raised [e]. *)
Definition raised_by_call (e : exn) (t : list event) : Prop :=
  exists c, In (Called c (inl e)) t.

(** The traces of [waiter_loop] with [n] attempts left: what it calls and how
    it ends. *)
Inductive waiting (w : waiter) (name : string) (delay : nat) :
    nat -> list event -> result unit -> Prop :=
| waiting_none :
    waiting w name delay 0 [] (Stop (Exc (WaiterError "Max attempts exceeded")))
| waiting_success n :
    waiting w name delay (S n)
      [Called (CF_waiter_poll w name) (inr PollSuccess)] (Done tt)
| waiting_failure n :
    waiting w name delay (S n)
      [Called (CF_waiter_poll w name) (inr PollFailure)]
      (Stop (Exc (WaiterError "Waiter encountered a terminal failure state")))
| waiting_poll_raised n e :
    waiting w name delay (S n)
      [Called (CF_waiter_poll w name) (inl e)] (Stop (Exc e))
| waiting_exhausted :
    waiting w name delay 1
      [Called (CF_waiter_poll w name) (inr PollWaiting)]
      (Stop (Exc (WaiterError "Max attempts exceeded")))
| waiting_sleep_raised n e :
    waiting w name delay (S (S n))
      [Called (CF_waiter_poll w name) (inr PollWaiting);
       Called (Sleep delay) (inl e)]
      (Stop (Exc e))
| waiting_again n t o :
    waiting w name delay (S n) t o ->
    waiting w name delay (S (S n))
      (Called (CF_waiter_poll w name) (inr PollWaiting) ::
       Called (Sleep delay) (inr tt) :: t) o.

(** ** The wait helpers *)

(** The shape shared by [wait_for_stack_creation] and
    [wait_for_stack_deletion]; the two differ in the waiter and the texts. *)
Definition wait_with (k : waiter) (stack_name announce done_msg failed_msg : string) : prog bool :=
  do _ <- print_info announce;
  do _ <- print_info "This may take several minutes. Please be patient.";
  try_except
    (do _ <- waiter_wait k stack_name 30 120;
     do _ <- print_success done_msg;
     Ret true)
    (fun e =>
       match e with
       | WaiterError m =>
           Some (do _ <- print_error (failed_msg +:+ m);
                 do _ <- dump_stack_events stack_name;
                 Ret false)
       | _ => None
       end).

Definition failed_event (ev : stack_event) : bool :=
  py_in "FAILED" (default "" (ResourceStatus ev)).

Definition diagnostic (ev : stack_event) : event :=
  Printed (Plain ("  - " +:+ LogicalResourceId ev +:+ ": " +:+
                  default "Unknown error" (ResourceStatusReason ev))).

(** The traces of [dump_stack_events]. *)
Inductive dumping (name : string) : list event -> result unit -> Prop :=
| dumping_events events :
    dumping name
      (Called (CF_describe_stack_events name) (inr events) ::
       Printed (Plain (newline +:+ "Recent stack events:")) ::
       map diagnostic (List.filter failed_event (firstn 10 events)))
      (Done tt)
| dumping_swallowed e :
    is_Exception e = true ->
    dumping name [Called (CF_describe_stack_events name) (inl e)] (Done tt)
| dumping_interrupted e :
    is_Exception e = false ->
    dumping name [Called (CF_describe_stack_events name) (inl e)] (Stop (Exc e)).

(** The traces of a wait helper after its two announcements. *)
Inductive awaited (k : waiter) (name done_msg failed_msg : string) :
    list event -> result bool -> Prop :=
| awaited_ready tw :
    waiting k name 30 120 tw (Done tt) ->
    awaited k name done_msg failed_msg
      (tw ++ [Printed (Success done_msg)]) (Done true)
| awaited_failed tw m td od :
    waiting k name 30 120 tw (Stop (Exc (WaiterError m))) ->
    dumping name td od ->
    awaited k name done_msg failed_msg
      (tw ++ Printed (Error (failed_msg +:+ m)) :: td)
      (match od with Done _ => Done false | Stop s => Stop s end)
| awaited_raised tw e :
    waiting k name 30 120 tw (Stop (Exc e)) ->
    (forall m, e <> WaiterError m) ->
    awaited k name done_msg failed_msg tw (Stop (Exc e)).

(** The lines of the diagnostic dump. *)
Definition is_diagnostic (ev : event) : bool :=
  match ev with
  | Printed (Plain s) => String.prefix "  - " s
  | _ => false
  end.

(** What a wait helper guarantees about its trace [t] and outcome [o]: at
    most 120 polls, fewer than 120 sleeps of 30 seconds each, success exactly
    when a poll found the terminal success state, otherwise the failure value
    or an exception raised by one of the calls, and at most ten diagnostic
    lines. *)
Definition bounded_wait (t : list event) (o : result bool) : Prop :=
  count_calls is_poll t <= 120 /\
  length (sleeps t) < 120 /\
  Forall (eq 30) (sleeps t) /\
  (o = Done true <-> existsb poll_succeeded t = true) /\
  (o = Done true \/ o = Done false \/
   exists e, o = Stop (Exc e) /\ raised_by_call e t) /\
  length (List.filter is_diagnostic t) <= 10.

(** ** Monitors *)

Section Monitor.
Context {S : Type} (step : S -> event -> S).

Definition observe (s : S) (t : list event) : S := fold_left step t s.

Fixpoint wp {A : Type} (p : prog A) (Q : result A -> S -> Prop) (s : S) : Prop :=
  match p with
  | Ret a => Q (Done a) s
  | Raise sg => Q (Stop sg) s
  | Print l k => wp k Q (step s (Printed l))
  | Call c k => forall r : reply c, wp (k r) Q (step s (Called c r))
  end.

End Monitor.

(** [yields allowed R p]: [p] emits only events in [allowed] and ends with an
    outcome in [R]. *)
Fixpoint yields {A : Type} (allowed : event -> Prop) (R : result A -> Prop) (p : prog A) : Prop :=
  match p with
  | Ret a => R (Done a)
  | Raise sg => R (Stop sg)
  | Print l k => allowed (Printed l) /\ yields allowed R k
  | Call c k => forall r : reply c, allowed (Called c r) /\ yields allowed R (k r)
  end.

(** ** Footprints of the helpers *)

(** An event that is not a call selected by [forbid]. *)
Definition avoids (forbid : call -> bool) (ev : event) : Prop := on_call forbid ev = false.

(** Outcomes that are not [sys.exit], or [sys.exit(code)] only. *)
Definition never_exits {A : Type} (o : result A) : Prop :=
  forall n, o <> Stop (SystemExit n).

Definition exits_only (code : Z) {A : Type} (o : result A) : Prop :=
  forall n, o = Stop (SystemExit n) -> n = code.

(** ** The create flow is gated *)

Definition is_ok {c : call} (r : reply c) : bool :=
  match r with inr _ => true | inl _ => false end.

Definition poll_of (ev : event) : option poll_state :=
  match ev with
  | Called (CF_waiter_poll _ _) (inr st) => Some st
  | _ => None
  end.

Definition waiter_eqb (a b : waiter) : bool :=
  match a, b with
  | stack_create_complete, stack_create_complete => true
  | stack_delete_complete, stack_delete_complete => true
  | _, _ => false
  end.

Definition creates (name : string) (c : call) : bool :=
  match c with CF_create_stack n _ _ _ _ => String.eqb n name | _ => false end.

Definition deletes (name : string) (c : call) : bool :=
  match c with CF_delete_stack n => String.eqb n name | _ => false end.

Definition polls (k : waiter) (name : string) (c : call) : bool :=
  match c with CF_waiter_poll k' n => waiter_eqb k' k && String.eqb n name | _ => false end.

Definition is_describe (c : call) : bool :=
  match c with CF_describe_stacks _ => true | _ => false end.

Definition is_events (c : call) : bool :=
  match c with CF_describe_stack_events _ => true | _ => false end.

Definition is_upload (c : call) : bool :=
  match c with S3_upload_file _ _ _ _ => true | _ => false end.

(** Reading a stack description or a local file. *)
Definition is_lookup (c : call) : bool :=
  match c with CF_describe_stacks _ | ReadText _ | ReadJson _ => true | _ => false end.

(** How far the create flow has come. *)
Inductive create_stage :=
| Nothing
| NetworkRequested
| NetworkReady
| AppRequested
| AppReady
| Halted
| Violated.

(** After a poll in a requested stage. *)
Definition polled {S : Type} (ev : event) (requested ready halted : S) : S :=
  match poll_of ev with
  | Some PollWaiting => requested
  | Some PollSuccess => ready
  | _ => halted
  end.

(** The order the spec prescribes for the create flow, as a monitor.  The
    network stack is requested first; while it is requested only polls of it,
    sleeps and the diagnostic event listing may occur; the application stack
    is requested only once a poll found the network stack ready, and waited
    for in the same way; uploads occur only once the application stack is
    ready.  A rejected request, a failed poll or a raising poll halts the
    flow, after which only the diagnostic event listing may still be called.
    Anything else is a violation.  Printing never changes the stage. *)
Definition create_step (s : create_stage) (ev : event) : create_stage :=
  match ev with
  | Printed _ => s
  | Called c r =>
      match s with
      | Nothing =>
          if is_lookup c then Nothing
          else if creates Create.NETWORK_STACK_NAME c
               then (if is_ok r then NetworkRequested else Halted)
               else Violated
      | NetworkRequested =>
          if polls stack_create_complete Create.NETWORK_STACK_NAME c
          then polled ev NetworkRequested NetworkReady Halted
          else if is_sleep c || is_events c then NetworkRequested else Violated
      | NetworkReady =>
          if is_lookup c then NetworkReady
          else if creates Create.APP_STACK_NAME c
               then (if is_ok r then AppRequested else Halted)
               else Violated
      | AppRequested =>
          if polls stack_create_complete Create.APP_STACK_NAME c
          then polled ev AppRequested AppReady Halted
          else if is_sleep c || is_events c then AppRequested else Violated
      | AppReady =>
          if is_describe c || is_upload c then AppReady else Violated
      | Halted =>
          if is_events c then Halted else Violated
      | Violated => Violated
      end
  end.

(** ** The delete flow empties before it deletes *)

Definition is_input (c : call) : bool :=
  match c with Input _ => true | _ => false end.

Definition empties_objects (b : string) (c : call) : bool :=
  match c with S3_delete_objects b' => String.eqb b' b | _ => false end.

Definition empties_versions (b : string) (c : call) : bool :=
  match c with S3_delete_object_versions b' => String.eqb b' b | _ => false end.

(** The reply is a ClientError naming a missing bucket. *)
Definition is_missing {c : call} (r : reply c) : bool :=
  match r with
  | inl (ClientError m) => py_in "NoSuchBucket" m
  | _ => false
  end.

(** How far the delete flow has come. *)
Inductive delete_stage :=
| ToEmpty
| ObjectsDeleted
| Emptied
| EmptyFailed
| AppDeleting
| AppGone
| NetworkDeleting
| NetworkGone
| Stopped
| Broken.

(** The order the spec prescribes for a delete run that found both stacks
    and the bucket [b], as a monitor.  After the prompt and the describe
    calls the first thing is the deletion of the objects of [b], then of its
    versions; a missing bucket counts as emptied, any other failure of an
    emptying call ends the run with nothing more called.  Only once the
    bucket is emptied is the deletion of the application stack requested;
    while it is being deleted only polls of it, sleeps and the diagnostic
    event listing may occur; the deletion of the network stack is requested
    only once a poll found the application stack gone, and waited for in the
    same way, after which nothing more is called.  A rejected request, a
    failed poll or a raising poll stops the flow, after which only the event
    listing may still be called.  Anything else breaks the order. *)
Definition delete_step (b : string) (s : delete_stage) (ev : event) : delete_stage :=
  match ev with
  | Printed _ => s
  | Called c r =>
      match s with
      | ToEmpty =>
          if is_describe c || is_input c then ToEmpty
          else if empties_objects b c
               then (if is_ok r then ObjectsDeleted
                     else if is_missing r then Emptied else EmptyFailed)
               else Broken
      | ObjectsDeleted =>
          if empties_versions b c
          then (if is_ok r || is_missing r then Emptied else EmptyFailed)
          else Broken
      | Emptied =>
          if deletes Delete.APP_STACK_NAME c
          then (if is_ok r then AppDeleting else Stopped)
          else Broken
      | AppDeleting =>
          if polls stack_delete_complete Delete.APP_STACK_NAME c
          then polled ev AppDeleting AppGone Stopped
          else if is_sleep c || is_events c then AppDeleting else Broken
      | AppGone =>
          if deletes Delete.NETWORK_STACK_NAME c
          then (if is_ok r then NetworkDeleting else Stopped)
          else Broken
      | NetworkDeleting =>
          if polls stack_delete_complete Delete.NETWORK_STACK_NAME c
          then polled ev NetworkDeleting NetworkGone Stopped
          else if is_sleep c || is_events c then NetworkDeleting else Broken
      | Stopped => if is_events c then Stopped else Broken
      | NetworkGone | EmptyFailed | Broken => Broken
      end
  end.

(** Stages in which no deletion of a stack has been requested yet. *)
Definition before_deletion (s : delete_stage) : Prop :=
  s = ToEmpty \/ s = ObjectsDeleted \/ s = Emptied \/ s = EmptyFailed.

(** What remains of a delete run once both stacks were found and the bucket
    name [b] was read from the outputs. *)
Definition after_resolution (b : string) : prog unit :=
  do _ <- Delete.empty_or_exit (Some b);
  do _ <- Delete.delete_app_step true;
  do _ <- Delete.delete_network_step true;
  Delete.summary.

(** A describe reply that the delete flow reads as an existing stack. *)
Definition present {name : string} (r : reply (CF_describe_stacks name)) : Prop :=
  match r with
  | inr (s :: _) => StackStatus s <> "DELETE_COMPLETE"
  | _ => False
  end.

(** The calls a delete run makes before the bucket is touched. *)
Definition checks (answer : string)
    (r_app : reply (CF_describe_stacks Delete.APP_STACK_NAME))
    (r_net : reply (CF_describe_stacks Delete.NETWORK_STACK_NAME))
    (s : stack) (rest : list stack) : list event :=
  [Called (Input confirmation_prompt) (inr answer);
   Called (CF_describe_stacks Delete.APP_STACK_NAME) r_app;
   Called (CF_describe_stacks Delete.NETWORK_STACK_NAME) r_net;
   Called (CF_describe_stacks Delete.APP_STACK_NAME) (inr (s :: rest))].

(** ** An upload failure that the helper catches *)

(** The upload was attempted and failed in one of the two ways
    [upload_to_s3] handles. *)
Definition upload_failure_caught (ev : event) : bool :=
  match ev with
  | Called (S3_upload_file _ _ _ _) (inl (FileNotFoundError _)) => true
  | Called (S3_upload_file _ _ _ _) (inl (ClientError _)) => true
  | _ => false
  end.

(** A describe call that answers as the service documents it: a ClientError,
    or a list holding the stack. *)
Definition well_described (ev : event) : bool :=
  match ev with
  | Called (CF_describe_stacks _) (inl (ClientError _)) => true
  | Called (CF_describe_stacks _) (inl _) => false
  | Called (CF_describe_stacks _) (inr []) => false
  | _ => true
  end.

(** What [upload_to_s3] prints for the exception it caught. *)
Definition upload_report (e : exn) : string :=
  match e with
  | FileNotFoundError _ => "File not found: " +:+ Create.STATIC_CONTENT_FILE
  | ClientError m => "Failed to upload to S3: " +:+ m
  | _ => ""
  end.

(** The failed upload and what follows it up to the header of the final
    summary. *)
Definition aftermath (bucket_name : string) (e : exn) : list event :=
  [Called (S3_upload_file Create.STATIC_CONTENT_FILE bucket_name "index.html" "text/html")
          (inl e);
   Printed (Error (upload_report e));
   Printed (Error "Failed to upload static content.");
   Printed (Info "You can manually upload the file later.");
   Printed (Plain (newline +:+ rule));
   Printed (Plain ("  " +:+ "Infrastructure Creation Complete!"));
   Printed (Plain rule)].

(** ** Sample services *)

(** A stack with two outputs, neither of them the key asked for. *)
Definition two_outputs : stack :=
  {| StackStatus := "CREATE_COMPLETE";
     Outputs := Some [ {| OutputKey := "S3BucketName"; OutputValue := "udagram-bucket";
                          Description := None |};
                       {| OutputKey := "LoadBalancerURL"; OutputValue := "http://lb.example";
                          Description := Some "URL of the load balancer" |} ] |}.

Definition describes_two_outputs : env nat :=
  scripted (fun c _ =>
    match c return reply c with
    | CF_describe_stacks _ => inr [two_outputs]
    | _ => inl (OtherException "unscripted call")
    end).

Definition rejects_everything : env nat :=
  scripted (fun c _ => inl (ClientError "An error occurred (AccessDenied)")).

Definition says (answer : string) : env nat :=
  scripted (fun c _ =>
    match c return reply c with
    | Input _ => inr answer
    | _ => inl (OtherException "unscripted call")
    end).

Definition confirmed_but_no_stacks : env nat :=
  scripted (fun c _ =>
    match c return reply c with
    | Input _ => inr "  YES "
    | CF_describe_stacks name =>
        inl (ClientError ("Stack with id " +:+ name +:+ " does not exist"))
    | _ => inl (OtherException "unscripted call")
    end).

Definition network_already_there : env nat :=
  scripted (fun c _ =>
    match c return reply c with
    | CF_describe_stacks _ =>
        inr [ {| StackStatus := "ROLLBACK_COMPLETE"; Outputs := None |} ]
    | _ => inl (OtherException "unscripted call")
    end).

Definition versioned_bucket : gmap string bucket :=
  {[ "udagram-bucket" :=
       {| objects := ["index.html"];
          object_versions := [("index.html", "v1"); ("index.html", "v2")] |} ]}.

(** A stack that never leaves its in-progress state, with an event log of
    twelve failures. *)
Definition failure_log : list stack_event :=
  repeat {| LogicalResourceId := "WebAppGroup";
            ResourceStatus := Some "CREATE_FAILED";
            ResourceStatusReason := None |} 12.

Definition never_ready : env nat :=
  scripted (fun c _ =>
    match c return reply c with
    | CF_waiter_poll _ _ => inr PollWaiting
    | Sleep _ => inr tt
    | CF_describe_stack_events _ => inr failure_log
    | _ => inl (OtherException "unscripted call")
    end).

(** A cooperative service: neither stack exists at first, every request is
    accepted, and the first poll of each wait finds the stack ready. *)
Definition cooperative : env nat :=
  scripted (fun c n =>
    match c return reply c with
    | CF_describe_stacks name =>
        if n <? 2
        then inl (ClientError ("Stack with id " +:+ name +:+ " does not exist"))
        else inr [two_outputs]
    | CF_create_stack name _ _ _ _ => inr ("arn:aws:cloudformation:stack/" +:+ name)
    | CF_waiter_poll _ _ => inr PollSuccess
    | ReadText _ => inr "Resources: {}"
    | ReadJson _ => inr []
    | S3_upload_file _ _ _ _ => inr tt
    | _ => inl (OtherException "unscripted call")
    end).

(** A service that rejects the request for the network stack. *)
Definition rejects_creation : env nat :=
  scripted (fun c n =>
    match c return reply c with
    | CF_describe_stacks name =>
        inl (ClientError ("Stack with id " +:+ name +:+ " does not exist"))
    | CF_create_stack name _ _ _ _ => inl (ClientError "An error occurred (ValidationError)")
    | ReadText _ => inr "Resources: {}"
    | ReadJson _ => inr []
    | _ => inl (OtherException "unscripted call")
    end).

(** A service on which both stacks exist, the bucket is known, and every
    deletion goes through at the first poll. *)
Definition both_stacks_up : env nat :=
  scripted (fun c _ =>
    match c return reply c with
    | Input _ => inr "yes"
    | CF_describe_stacks _ => inr [two_outputs]
    | S3_delete_objects _ => inr tt
    | S3_delete_object_versions _ => inr tt
    | CF_delete_stack _ => inr tt
    | CF_waiter_poll _ _ => inr PollSuccess
    | _ => inl (OtherException "unscripted call")
    end).

(** The same service, except that the listing of object versions is denied. *)
Definition versions_denied : env nat :=
  scripted (fun c _ =>
    match c return reply c with
    | Input _ => inr "yes"
    | CF_describe_stacks _ => inr [two_outputs]
    | S3_delete_objects _ => inr tt
    | S3_delete_object_versions _ => inl (ClientError "An error occurred (AccessDenied)")
    | CF_delete_stack _ => inr tt
    | CF_waiter_poll _ _ => inr PollSuccess
    | _ => inl (OtherException "unscripted call")
    end).

(** The cooperative service, except that the static file is missing. *)
Definition static_file_missing : env nat :=
  scripted (fun c n =>
    match c return reply c with
    | CF_describe_stacks name =>
        if n <? 2
        then inl (ClientError ("Stack with id " +:+ name +:+ " does not exist"))
        else inr [two_outputs]
    | CF_create_stack name _ _ _ _ => inr ("arn:aws:cloudformation:stack/" +:+ name)
    | CF_waiter_poll _ _ => inr PollSuccess
    | ReadText _ => inr "Resources: {}"
    | ReadJson _ => inr []
    | S3_upload_file f _ _ _ => inl (FileNotFoundError ("No such file or directory: " +:+ f))
    | _ => inl (OtherException "unscripted call")
    end).

(** The hypothesis on the describe calls is used: when the lookup of the
    final summary itself raises an unexpected exception after the failed
    upload, the [__main__] block turns that exception into exit status 1. *)
Definition summary_lookup_breaks : env nat :=
  scripted (fun c n =>
    match c return reply c with
    | CF_describe_stacks name =>
        if n <? 2
        then inl (ClientError ("Stack with id " +:+ name +:+ " does not exist"))
        else if n <? 13 then inr [two_outputs]
        else inl (OtherException "Could not connect to the endpoint URL")
    | CF_create_stack name _ _ _ _ => inr ("arn:aws:cloudformation:stack/" +:+ name)
    | CF_waiter_poll _ _ => inr PollSuccess
    | ReadText _ => inr "Resources: {}"
    | ReadJson _ => inr []
    | S3_upload_file f _ _ _ => inl (FileNotFoundError ("No such file or directory: " +:+ f))
    | _ => inl (OtherException "unscripted call")
    end).

(** * Vocabulary of the further properties *)

(** ** Text *)

(** Every character of [s] is whitespace for [str.strip]. *)
Fixpoint all_space (s : string) : bool :=
  match s with
  | EmptyString => true
  | String c rest => isspace c && all_space rest
  end.

(** [needle] occurs in [hay] as a contiguous piece. *)
Definition occurs_in (needle hay : string) : Prop :=
  exists before after, hay = before +:+ needle +:+ after.

(** ** The existence checks *)

(** A describe reply that says the stack does not exist: a ClientError whose
    text contains the phrase. *)
Definition reported_missing {name : string} (r : reply (CF_describe_stacks name)) : Prop :=
  match r with
  | inl (ClientError m) => occurs_in "does not exist" m
  | _ => False
  end.


(** ** What the scripts may call *)

(** [n] is one of [names]. *)
Definition named (names : list string) (n : string) : bool :=
  existsb (String.eqb n) names.

(** The calls of create.py, with the arguments that its code fixes: the two
    stack names, the four input files, the capability and the two tags of a
    creation request, the creation waiter polled every 30 seconds, and the
    upload of the static page as [index.html] with content type
    [text/html]. *)
Definition create_may_call (c : call) : bool :=
  let stacks := [Create.NETWORK_STACK_NAME; Create.APP_STACK_NAME] in
  match c with
  | CF_describe_stacks n | CF_describe_stack_events n => named stacks n
  | CF_create_stack n _ _ caps tags =>
      named stacks n &&
      match caps with
      | [cap] => String.eqb cap "CAPABILITY_NAMED_IAM"
      | _ => false
      end &&
      match tags with
      | [(k1, v1); (k2, v2)] =>
          String.eqb k1 "Project" && String.eqb v1 "Udagram" &&
          String.eqb k2 "Environment" && String.eqb v2 "Production"
      | _ => false
      end
  | CF_waiter_poll k n => waiter_eqb k stack_create_complete && named stacks n
  | Sleep seconds => seconds =? 30
  | S3_upload_file f _ key content_type =>
      String.eqb f Create.STATIC_CONTENT_FILE && String.eqb key "index.html" &&
      String.eqb content_type "text/html"
  | ReadText path => named [Create.NETWORK_TEMPLATE; Create.APP_TEMPLATE] path
  | ReadJson path => named [Create.NETWORK_PARAMETERS; Create.APP_PARAMETERS] path
  | CF_delete_stack _ | S3_delete_objects _ | S3_delete_object_versions _
  | Input _ => false
  end.

(** The calls of delete.py: the prompt, the two stacks described, deleted
    and waited for with the deletion waiter every 30 seconds, and the two
    emptying operations on a bucket. *)
Definition delete_may_call (c : call) : bool :=
  let stacks := [Delete.APP_STACK_NAME; Delete.NETWORK_STACK_NAME] in
  match c with
  | Input prompt => String.eqb prompt confirmation_prompt
  | CF_describe_stacks n | CF_describe_stack_events n | CF_delete_stack n => named stacks n
  | CF_waiter_poll k n => waiter_eqb k stack_delete_complete && named stacks n
  | Sleep seconds => seconds =? 30
  | S3_delete_objects _ | S3_delete_object_versions _ => true
  | CF_create_stack _ _ _ _ _ | S3_upload_file _ _ _ _ | ReadText _ | ReadJson _ => false
  end.

(** Outcomes that are not [sys.exit], or [sys.exit] with 0 or 1. *)
Definition exits_0_or_1 {A : Type} (o : result A) : Prop :=
  forall n, o = Stop (SystemExit n) -> n = 0%Z \/ n = 1%Z.


(** ** What a delete run leaves alone *)

(** The two emptying operations on a bucket. *)
Definition touches_bucket (c : call) : bool :=
  match c with
  | S3_delete_objects _ | S3_delete_object_versions _ => true
  | _ => false
  end.


(** ** A bucket name that cannot be read *)

(** What [main] of delete.py prints when the lookup of the bucket name
    yields nothing. *)
Definition bucket_warning : event :=
  Printed (Warning "Could not retrieve S3 bucket name. Proceeding with stack deletion.").

(** Steps 2 and 3 of [main] of delete.py and the summary: what follows the
    emptying step. *)
Definition deletion_steps (app_stack_exists network_stack_exists : bool) : prog unit :=
  do _ <- Delete.delete_app_step app_stack_exists;
  do _ <- Delete.delete_network_step network_stack_exists;
  Delete.summary.

(** ** More sample services *)

(** Both stacks are there, deletions succeed, but the application stack has
    no outputs. *)
Definition bucket_output_missing : env nat :=
  scripted (fun c _ =>
    match c return reply c with
    | Input _ => inr "y"
    | CF_describe_stacks _ => inr [ {| StackStatus := "CREATE_COMPLETE"; Outputs := None |} ]
    | CF_delete_stack _ => inr tt
    | CF_waiter_poll _ _ => inr PollSuccess
    | _ => inl (OtherException "unscripted call")
    end).

(** Only the network stack is left. *)
Definition app_already_gone : env nat :=
  scripted (fun c _ =>
    match c return reply c with
    | Input _ => inr "yes"
    | CF_describe_stacks name =>
        if String.eqb name Delete.APP_STACK_NAME
        then inl (ClientError ("Stack with id " +:+ name +:+ " does not exist"))
        else inr [two_outputs]
    | CF_delete_stack _ => inr tt
    | CF_waiter_poll _ _ => inr PollSuccess
    | _ => inl (OtherException "unscripted call")
    end).


(** ** The order of a delete run *)

(** How far the deletions of a delete run have come. *)
Inductive deletion_order :=
| NothingAsked
| AppAsked
| AppConfirmedGone
| NetworkAsked
| NetworkConfirmedGone
| OutOfOrder.

(** The order in which a delete run may touch the bucket and the stacks, as
    a monitor.  Emptying operations come before any deletion request.  The
    deletion of the application stack is requested at most once and before
    that of the network stack.  The deletion of the network stack is
    requested at most once, and once the deletion of the application stack
    has been requested only after a poll has found that stack gone.  A
    requested deletion is confirmed by a poll of the deletion waiter that
    finds the stack gone.  No other stack is deleted.  Anything else is out
    of order. *)
Definition order_step (s : deletion_order) (ev : event) : deletion_order :=
  match ev with
  | Printed _ => s
  | Called c r =>
      if touches_bucket c
      then match s with NothingAsked => NothingAsked | _ => OutOfOrder end
      else if deletes Delete.APP_STACK_NAME c
      then match s with NothingAsked => AppAsked | _ => OutOfOrder end
      else if deletes Delete.NETWORK_STACK_NAME c
      then match s with
           | NothingAsked | AppConfirmedGone => NetworkAsked
           | _ => OutOfOrder
           end
      else if is_delete_stack c then OutOfOrder
      else if polls stack_delete_complete Delete.APP_STACK_NAME c
      then match s, poll_of ev with
           | AppAsked, Some PollSuccess => AppConfirmedGone
           | _, _ => s
           end
      else if polls stack_delete_complete Delete.NETWORK_STACK_NAME c
      then match s, poll_of ev with
           | NetworkAsked, Some PollSuccess => NetworkConfirmedGone
           | _, _ => s
           end
      else s
  end.

(** No deletion is pending: none was requested, or the last one requested
    was confirmed. *)
Definition nothing_pending (s : deletion_order) : Prop :=
  s = NothingAsked \/ s = AppConfirmedGone \/ s = NetworkConfirmedGone.

(** What every delete run satisfies: the order was kept, and the exit status
    is 0 only when no deletion is pending. *)
Definition in_order {A : Type} (o : result A) (s : deletion_order) : Prop :=
  s <> OutOfOrder /\ (exit_code o = 0%Z -> nothing_pending s).

(** ** What a creation request carries *)

(** The latest template text and parameter document read so far, each with
    the path it was read from, and whether every creation request so far
    carried them. *)
Record files_read := {
  last_text : option (string * string);
  last_params : option (string * parameters);
  faithful : Prop
}.

(** A request for stack [n] with body [t] and parameters [p] carries the
    latest files read, and they are the files of that stack. *)
Definition carries (s : files_read) (n t : string) (p : parameters) : Prop :=
  (n = Create.NETWORK_STACK_NAME /\
   last_text s = Some (Create.NETWORK_TEMPLATE, t) /\
   last_params s = Some (Create.NETWORK_PARAMETERS, p)) \/
  (n = Create.APP_STACK_NAME /\
   last_text s = Some (Create.APP_TEMPLATE, t) /\
   last_params s = Some (Create.APP_PARAMETERS, p)).

Definition files_step (s : files_read) (ev : event) : files_read :=
  match ev with
  | Called (ReadText path) (inr text) =>
      {| last_text := Some (path, text); last_params := last_params s;
         faithful := faithful s |}
  | Called (ReadJson path) (inr document) =>
      {| last_text := last_text s; last_params := Some (path, document);
         faithful := faithful s |}
  | Called (CF_create_stack n t p _ _) _ =>
      {| last_text := last_text s; last_params := last_params s;
         faithful := faithful s /\ carries s n t p |}
  | _ => s
  end.

Definition nothing_read : files_read :=
  {| last_text := None; last_params := None; faithful := True |}.

Definition kept_faithful {A : Type} (o : result A) (s : files_read) : Prop :=
  faithful s.

(** Reading a file or requesting a creation. *)
Definition reads_or_creates (c : call) : bool :=
  match c with
  | ReadText _ | ReadJson _ | CF_create_stack _ _ _ _ _ => true
  | _ => false
  end.


(** ** What the helpers print *)

(** The lines [display_stack_outputs] prints for one output. *)
Definition output_lines (o : output) : list event :=
  Printed (Plain ("  " +:+ OutputKey o +:+ ": " +:+ OutputValue o)) ::
  match Description o with
  | Some d => [Printed (Plain ("    Description: " +:+ d))]
  | None => []
  end.

(** The three lines of [print_section]. *)
Definition section_lines (message : string) : list event :=
  [Printed (Plain (newline +:+ rule));
   Printed (Plain ("  " +:+ message));
   Printed (Plain rule)].

(** More than ten events, the third and the twelfth of them failed. *)
Definition long_event_log : list stack_event :=
  map (fun i => {| LogicalResourceId := "Resource";
                   ResourceStatus :=
                     Some (if (i =? 3) || (i =? 12) then "CREATE_FAILED" else "CREATE_COMPLETE");
                   ResourceStatusReason := Some "Limit exceeded" |})
      (seq 1 12).


(** ** Failures that end a create run *)

(** What [read_template] and [read_parameters] print when the file they are
    to read does not exist. *)
Definition missing_report (c : call) : option line :=
  match c with
  | ReadText path => Some (Error ("Template file not found: " +:+ path))
  | ReadJson path => Some (Error ("Parameter file not found: " +:+ path))
  | _ => None
  end.

(** The exceptions [upload_to_s3] has a clause for. *)
Definition handled_by_upload (e : exn) : bool :=
  match e with
  | FileNotFoundError _ | ClientError _ => true
  | _ => false
  end.

(** The events after which a create run cannot go on, with the line that is
    then due: a read of an input file that finds no file, and an upload that
    raises an exception [upload_to_s3] has no clause for. *)
Definition fatal_in_create (ev : event) : option line :=
  match ev with
  | Called (S3_upload_file _ _ _ _) (inl e) =>
      if handled_by_upload e then None else Some (crash_report e)
  | Called c (inl (FileNotFoundError _)) => missing_report c
  | _ => None
  end.

(** How a run stands with respect to such events: none so far; one just
    happened and [report] is due; the report was printed, [as_expected]
    saying that it was the line due; or something else happened after the
    event. *)
Inductive fatal_stage :=
| Sound
| Struck (report : line)
| Reported (as_expected : Prop)
| Beyond.

Definition fatal_step (s : fatal_stage) (ev : event) : fatal_stage :=
  match s with
  | Sound =>
      match fatal_in_create ev with
      | Some report => Struck report
      | None => Sound
      end
  | Struck report =>
      match ev with
      | Printed l => Reported (l = report)
      | Called _ _ => Beyond
      end
  | Reported _ | Beyond => Beyond
  end.

(** A run ends well when no such event happened, or the report of the event
    was the last thing the run did and it ended with [sys.exit(1)]. *)
Definition ended_well {A : Type} (o : result A) (s : fatal_stage) : Prop :=
  match s with
  | Sound => True
  | Reported as_expected => as_expected /\ o = Stop (SystemExit 1)
  | Struck _ | Beyond => False
  end.

(** What holds when a block of [main] ends: no such event happened, unless
    the block ends with the very exception of a fatal upload, whose report
    is then due. *)
Definition block_ends_well {A : Type} (o : result A) (s : fatal_stage) : Prop :=
  match o with
  | Stop (SystemExit _) => ended_well o s
  | Stop (Exc e) => s = Sound \/ s = Struck (crash_report e)
  | Done _ => s = Sound
  end.

Definition reads_or_uploads (c : call) : bool :=
  match c with
  | ReadText _ | ReadJson _ | S3_upload_file _ _ _ _ => true
  | _ => false
  end.

(** The parameter file of the network stack is missing. *)
Definition parameters_file_missing : env nat :=
  scripted (fun c n =>
    match c return reply c with
    | CF_describe_stacks name =>
        inl (ClientError ("Stack with id " +:+ name +:+ " does not exist"))
    | ReadText _ => inr "Resources: {}"
    | ReadJson path => inl (FileNotFoundError ("No such file or directory: " +:+ path))
    | _ => inl (OtherException "unscripted call")
    end).

(** Everything succeeds up to the upload, which the transfer layer fails
    with an exception of its own. *)
Definition upload_transfer_fails : env nat :=
  scripted (fun c n =>
    match c return reply c with
    | CF_describe_stacks name =>
        if n <? 2
        then inl (ClientError ("Stack with id " +:+ name +:+ " does not exist"))
        else inr [two_outputs]
    | CF_create_stack name _ _ _ _ => inr ("arn:aws:cloudformation:stack/" +:+ name)
    | CF_waiter_poll _ _ => inr PollSuccess
    | ReadText _ => inr "Resources: {}"
    | ReadJson _ => inr []
    | S3_upload_file _ _ _ _ => inl (OtherException "Failed to upload: AccessDenied")
    | _ => inl (OtherException "unscripted call")
    end).


(** ** Runs in which nothing goes wrong *)

(** What a run has achieved so far: the milestones it has passed, in order,
    the polls made in the current wait, and whether every reply so far was
    favourable. *)
Record progress := Progress {
  milestones : list event;
  attempts : nat;
  untroubled : bool
}.

(** One more event: a milestone is recorded, the polls of a wait are counted
    (any call other than a poll or a sleep starts the count again), and the
    reply is tested given the milestones passed and the polls made. *)
Definition progress_step (milestone : event -> bool)
    (favourable : list event -> nat -> event -> bool)
    (p : progress) (ev : event) : progress :=
  {| milestones := if milestone ev then milestones p ++ [ev] else milestones p;
     attempts := match ev with
                 | Printed _ => attempts p
                 | Called (CF_waiter_poll _ _) _ => S (attempts p)
                 | Called (Sleep _) _ => attempts p
                 | Called _ _ => 0
                 end;
     untroubled := untroubled p && favourable (milestones p) (attempts p) ev |}.

Definition at_start : progress := Progress [] 0 true.

(** The milestones of a create run: the creation requests and the polls
    that find a stack in its terminal success state. *)
Definition create_milestone (ev : event) : bool :=
  match ev with
  | Called (CF_create_stack _ _ _ _ _) _ => true
  | Called (CF_waiter_poll _ _) (inr PollSuccess) => true
  | _ => false
  end.

(** The replies with which a create run goes on.  Before the first creation
    request a describe call is an existence check and must report the stack
    missing; later it must return the stack or raise a ClientError.  A poll
    must find the stack ready, or still in progress with attempts left (the
    120th poll of a wait must not find it in progress).  An upload must
    return or raise an exception [upload_to_s3] catches.  Every other call
    must return. *)
Definition create_favourable (passed : list event) (attempts : nat) (ev : event) : bool :=
  match ev with
  | Printed _ => true
  | Called (CF_describe_stacks _) r =>
      match passed, r with
      | [], inl (ClientError m) => py_in "does not exist" m
      | [], _ => false
      | _ :: _, inl (ClientError _) => true
      | _ :: _, inr (_ :: _) => true
      | _ :: _, _ => false
      end
  | Called (CF_waiter_poll _ _) r =>
      match r with
      | inr PollSuccess => true
      | inr PollWaiting => attempts <? 119
      | _ => false
      end
  | Called (S3_upload_file _ _ _ _) r =>
      match r with
      | inr _ => true
      | inl e => handled_by_upload e
      end
  | Called _ r => is_ok r
  end.

Definition create_progress : progress -> event -> progress :=
  progress_step create_milestone create_favourable.

(** The milestones of a delete run: the emptying operations, the deletion
    requests and the polls that find a stack gone. *)
Definition delete_milestone (ev : event) : bool :=
  match ev with
  | Called (S3_delete_objects _) _ | Called (S3_delete_object_versions _) _
  | Called (CF_delete_stack _) _ => true
  | Called (CF_waiter_poll _ _) (inr PollSuccess) => true
  | _ => false
  end.

(** The replies with which a delete run that has found its stacks and its
    bucket goes on: every emptying operation and deletion request returns,
    and a poll finds the stack gone, or still there with attempts left. *)
Definition delete_favourable (passed : list event) (attempts : nat) (ev : event) : bool :=
  match ev with
  | Printed _ => true
  | Called (Input _) _ | Called (CF_describe_stacks _) _ => true
  | Called (CF_waiter_poll _ _) r =>
      match r with
      | inr PollSuccess => true
      | inr PollWaiting => attempts <? 119
      | _ => false
      end
  | Called _ r => is_ok r
  end.

Definition delete_progress : progress -> event -> progress :=
  progress_step delete_milestone delete_favourable.

(** The milestones of a create run that brought both stacks up: the network
    stack is requested and the request accepted, a poll finds it ready, the
    application stack is requested and the request accepted, a poll finds
    it ready; each request carries the capability and the tags. *)
Definition created_in_order (passed : list event) : Prop :=
  exists t1 p1 id1 t2 p2 id2,
    passed =
    [Called (CF_create_stack Create.NETWORK_STACK_NAME t1 p1 ["CAPABILITY_NAMED_IAM"]
               [("Project", "Udagram"); ("Environment", "Production")]) (inr id1);
     Called (CF_waiter_poll stack_create_complete Create.NETWORK_STACK_NAME) (inr PollSuccess);
     Called (CF_create_stack Create.APP_STACK_NAME t2 p2 ["CAPABILITY_NAMED_IAM"]
               [("Project", "Udagram"); ("Environment", "Production")]) (inr id2);
     Called (CF_waiter_poll stack_create_complete Create.APP_STACK_NAME) (inr PollSuccess)].

(** What an untroubled create run achieves. *)
Definition creation_completes (o : result unit) (s : progress) : Prop :=
  untroubled s = true -> o = Done tt /\ created_in_order (milestones s).

(** The milestones of a delete run that emptied the bucket [b] and deleted
    both stacks. *)
Definition deleted_in_order (b : string) : list event :=
  [Called (S3_delete_objects b) (inr tt);
   Called (S3_delete_object_versions b) (inr tt);
   Called (CF_delete_stack Delete.APP_STACK_NAME) (inr tt);
   Called (CF_waiter_poll stack_delete_complete Delete.APP_STACK_NAME) (inr PollSuccess);
   Called (CF_delete_stack Delete.NETWORK_STACK_NAME) (inr tt);
   Called (CF_waiter_poll stack_delete_complete Delete.NETWORK_STACK_NAME) (inr PollSuccess)].

(** What an untroubled delete run achieves once it knows the bucket [b]. *)
Definition deletion_completes (b : string) (o : result unit) (s : progress) : Prop :=
  untroubled s = true -> o = Done tt /\ milestones s = deleted_in_order b.

(** * Properties *)

(** ** Semantics of sequencing and of [try]/[except] *)

Lemma run_eta {W A : Type} (r : run W A) : Run (trace r) (outcome r) (final r) = r.
Proof. destruct r; reflexivity. Qed.

Lemma logged_prepend {W A : Type} (ev : event) (r : run W A) :
  logged ev r = prepend [ev] r.
Proof. reflexivity. Qed.

Lemma prepend_prepend {W A : Type} (t1 t2 : list event) (r : run W A) :
  prepend t1 (prepend t2 r) = prepend (t1 ++ t2) r.
Proof. unfold prepend; simpl. now rewrite app_assoc. Qed.

Lemma prepend_nil {W A : Type} (r : run W A) : prepend [] r = r.
Proof. destruct r; reflexivity. Qed.

Lemma andthen_logged {W A B : Type} (ev : event) (r : run W A) (k : A -> W -> run W B) :
  andthen (logged ev r) k = logged ev (andthen r k).
Proof. destruct r as [t [a|s] w]; reflexivity. Qed.

Lemma recover_logged {W A : Type} (ev : event) (r : run W A) h :
  recover (logged ev r) h = logged ev (recover r h).
Proof.
  destruct r as [t [a|[e|n]] w]; unfold recover, logged; simpl; try reflexivity.
  destruct (h e); reflexivity.
Qed.

Section Semantics.
Context {W : Type} (E : env W).

Lemma exec_bind {A B : Type} (p : prog A) (f : A -> prog B) (w : W) :
  exec E (bind p f) w = andthen (exec E p w) (fun a w' => exec E (f a) w').
Proof.
  revert w. induction p as [a|s|l k IH|c k IH]; intros w; simpl.
  - unfold andthen, prepend; simpl. now rewrite run_eta.
  - reflexivity.
  - now rewrite IH, andthen_logged.
  - now rewrite IH, andthen_logged.
Qed.

Lemma exec_try_except {A : Type} (p : prog A) (h : exn -> option (prog A)) (w : W) :
  exec E (try_except p h) w =
  recover (exec E p w) (fun e => option_map (fun q w' => exec E q w') (h e)).
Proof.
  revert w. induction p as [a|[e|n]|l k IH|c k IH]; intros w; simpl.
  - reflexivity.
  - unfold recover; simpl. destruct (h e); simpl.
    + unfold prepend; simpl. now rewrite run_eta.
    + reflexivity.
  - reflexivity.
  - now rewrite IH, recover_logged.
  - now rewrite IH, recover_logged.
Qed.

Lemma exec_perform (c : call) (w : W) :
  exec E (perform c) w =
  Run [Called c (fst (respond E c w))]
      (match fst (respond E c w) with inl e => Stop (Exc e) | inr v => Done v end)
      (snd (respond E c w)).
Proof. simpl. destruct (fst (respond E c w)); reflexivity. Qed.

End Semantics.

(** ** The [__main__] block *)

Lemma exec_toplevel {W : Type} (E : env W) (main : prog unit) (w : W) :
  exec E (toplevel main) w = at_toplevel (exec E main w).
Proof.
  unfold toplevel. rewrite exec_try_except. unfold recover, at_toplevel.
  destruct (exec E main w) as [t [[]|[e|n]] w1]; simpl; try reflexivity.
  destruct e; reflexivity.
Qed.

Lemma exit_code_at_toplevel {W : Type} (r : run W unit) :
  exit_code (outcome (at_toplevel r)) = exit_code (outcome r).
Proof. unfold at_toplevel. destruct r as [t [[]|[e|n]] w]; reflexivity. Qed.

Lemma issued_app (p : call -> bool) (t1 t2 : list event) :
  issued p (t1 ++ t2) = issued p t1 || issued p t2.
Proof. apply existsb_app. Qed.

Lemma issued_at_toplevel {W : Type} (p : call -> bool) (r : run W unit) :
  issued p (trace (at_toplevel r)) = issued p (trace r).
Proof.
  unfold at_toplevel. destruct r as [t [[]|[e|n]] w]; simpl; try reflexivity.
  rewrite issued_app. simpl. now rewrite !orb_false_r.
Qed.

(** The blocks of the two [main] functions stay folded in the proofs below
    unless a proof opens one. *)
Opaque Create.provision Create.publish_and_summarise Delete.teardown.

(** ** The existence check *)

(** C2. The existence check differs by direction.  In the delete flow
    [stack_exists] returns false when the service answers that the stack does
    not exist and when the described stack is in DELETE_COMPLETE, and in no
    other case; in the create flow [stack_exists] returns true for every
    record the service describes, whatever its status, and in no other case. *)
Theorem stack_exists_by_direction {W : Type} (E : env W) (w : W) (name : string) :
  (outcome (exec E (Delete.stack_exists name) w) = Done false <->
   absent_or_deleted (fst (respond E (CF_describe_stacks name) w))) /\
  (outcome (exec E (Create.stack_exists name) w) = Done true <->
   described (fst (respond E (CF_describe_stacks name) w))).
Proof.
  unfold Delete.stack_exists, Create.stack_exists; simpl.
  destruct (respond E (CF_describe_stacks name) w) as [[[m|m|m| |m]|[|s rest]] w'];
    simpl; try (split; split; intros H; solve [tauto | discriminate]).
  - destruct (py_in "does not exist" m); simpl;
      split; split; intros H; solve [tauto | discriminate].
  - destruct (String.eqb_spec (StackStatus s) "DELETE_COMPLETE"); simpl;
      split; split; intros H; solve [tauto | discriminate | contradiction].
Qed.

(** ** Output lookup *)

Lemma scan_outputs_None (outputs : list output) (key : string) :
  scan_outputs outputs key = None <-> ~ In key (map OutputKey outputs).
Proof.
  induction outputs as [|o rest IH]; simpl.
  - tauto.
  - destruct (String.eqb_spec (OutputKey o) key) as [Heq|Hne].
    + split; [discriminate | tauto].
    + rewrite IH. tauto.
Qed.

Lemma scan_outputs_Some (outputs : list output) (key v : string) :
  scan_outputs outputs key = Some v <->
  exists before o after,
    outputs = before ++ o :: after /\
    Forall (fun o' => OutputKey o' <> key) before /\
    OutputKey o = key /\ OutputValue o = v.
Proof.
  induction outputs as [|o rest IH]; simpl.
  - split; [discriminate|].
    intros (before & o & after & Heq & _). destruct before; discriminate.
  - destruct (String.eqb_spec (OutputKey o) key) as [Hk|Hk].
    + split.
      * intros [= <-]. exists [], o, rest. repeat split; auto.
      * intros (before & o' & after & Heq & Hall & Hkey & Hval).
        destruct before as [|b before]; simpl in Heq.
        -- injection Heq as -> _. now rewrite Hval.
        -- injection Heq as -> _. inversion Hall; subst. contradiction.
    + rewrite IH. split.
      * intros (before & o' & after & -> & Hall & Hkey & Hval).
        exists (o :: before), o', after. repeat split; auto.
      * intros (before & o' & after & Heq & Hall & Hkey & Hval).
        destruct before as [|b before]; simpl in Heq.
        -- injection Heq as -> _. contradiction.
        -- injection Heq as -> ->. inversion Hall; subst.
           exists before, o', after. repeat split; auto.
Qed.

Lemma get_stack_output_described {W : Type} (E : env W) (w w' : W)
    (name key : string) (s : stack) (rest : list stack) :
  answers E w (CF_describe_stacks name) (inr (s :: rest)) w' ->
  exec E (get_stack_output name key) w =
    Run [Called (CF_describe_stacks name) (inr (s :: rest))]
        (Done (scan_outputs (default [] (Outputs s)) key)) w'.
Proof. unfold answers, get_stack_output. intros H. simpl. now rewrite H. Qed.

Lemma get_stack_output_rejected {W : Type} (E : env W) (w w' : W)
    (name key m : string) :
  answers E w (CF_describe_stacks name) (inl (ClientError m)) w' ->
  exec E (get_stack_output name key) w =
    Run [Called (CF_describe_stacks name) (inl (ClientError m));
         Printed (Error ("Failed to get stack output: " +:+ m))]
        (Done None) w'.
Proof. unfold answers, get_stack_output. intros H. simpl. now rewrite H. Qed.

(** C4. [get_stack_output] scans the output list of the described stack from
    the front and returns the value of the first output with the key; it
    returns None, without raising, when no output has the key (in particular
    when the stack has no outputs), and it reports the error and returns None
    when the describe call is rejected with a ClientError. *)
Theorem get_stack_output_absent {W : Type} (E : env W) (w : W) (name key : string) :
  (forall s rest w',
      answers E w (CF_describe_stacks name) (inr (s :: rest)) w' ->
      exec E (get_stack_output name key) w =
        Run [Called (CF_describe_stacks name) (inr (s :: rest))]
            (Done (scan_outputs (default [] (Outputs s)) key)) w' /\
      (forall v, scan_outputs (default [] (Outputs s)) key = Some v <->
                 exists before o after,
                   default [] (Outputs s) = before ++ o :: after /\
                   Forall (fun o' => OutputKey o' <> key) before /\
                   OutputKey o = key /\ OutputValue o = v) /\
      (~ In key (map OutputKey (default [] (Outputs s))) ->
       outcome (exec E (get_stack_output name key) w) = Done None) /\
      (Outputs s = None \/ Outputs s = Some [] ->
       outcome (exec E (get_stack_output name key) w) = Done None)) /\
  (forall m w',
      answers E w (CF_describe_stacks name) (inl (ClientError m)) w' ->
      exec E (get_stack_output name key) w =
        Run [Called (CF_describe_stacks name) (inl (ClientError m));
             Printed (Error ("Failed to get stack output: " +:+ m))]
            (Done None) w').
Proof.
  split.
  - intros s rest w' H.
    rewrite (get_stack_output_described E w w' name key s rest H); simpl.
    split; [reflexivity|]. split; [intros v; apply scan_outputs_Some|]. split.
    + intros Hnot. f_equal. now apply scan_outputs_None.
    + intros [-> | ->]; reflexivity.
  - intros m w' H. now apply get_stack_output_rejected.
Qed.

Lemma get_stack_output_absent_witness :
  outcome (exec describes_two_outputs (get_stack_output "udagram-app" "VpcId") 0) = Done None /\
  outcome (exec rejects_everything (get_stack_output "udagram-app" "VpcId") 0) = Done None.
Proof.
  split.
  - destruct (get_stack_output_absent describes_two_outputs 0 "udagram-app" "VpcId") as [H _].
    destruct (H two_outputs [] 1 eq_refl) as (_ & _ & Hnone & _).
    apply Hnone. vm_compute. intros [H1|[H1|[]]]; discriminate.
  - destruct (get_stack_output_absent rejects_everything 0 "udagram-app" "VpcId") as [_ H].
    rewrite (H _ 1 eq_refl). reflexivity.
Defined.

Arguments waiter_loop : simpl never.

Lemma waiter_loop_S (w : waiter) (stack_name : string) (delay remaining : nat) :
  waiter_loop w stack_name delay (S remaining) =
  (do st <- perform (CF_waiter_poll w stack_name);
   match st with
   | PollSuccess => Ret tt
   | PollFailure => raise (WaiterError "Waiter encountered a terminal failure state")
   | PollWaiting =>
       match remaining with
       | O => raise (WaiterError "Max attempts exceeded")
       | S _ =>
           do _ <- perform (Sleep delay);
           waiter_loop w stack_name delay remaining
       end
   end).
Proof. reflexivity. Qed.

(** ** Declining the deletion *)

(** C10. The confirmation accepts exactly the answers that are "yes" or "y"
    after lowercasing and stripping surrounding whitespace; for every other
    answer the delete run exits with code 0 and the prompt is the only call it
    makes: no describe, no bucket emptying, no deletion request. *)
Theorem declined_deletion_is_inert {W : Type} (E : env W) (w w' : W) (answer : string) :
  answers E w (Input confirmation_prompt) (inr answer) w' ->
  (Delete.accepted answer = true <->
   str_strip (str_lower answer) = "yes" \/ str_strip (str_lower answer) = "y") /\
  outcome (exec E Delete.confirm_deletion w) = Done (Delete.accepted answer) /\
  (Delete.accepted answer = false ->
   exit_code (outcome (exec E Delete.script w)) = 0%Z /\
   calls (trace (exec E Delete.script w)) = [Called (Input confirmation_prompt) (inr answer)] /\
   issued is_remote (trace (exec E Delete.script w)) = false /\
   final (exec E Delete.script w) = w').
Proof.
  unfold answers, confirmation_prompt. simpl. intros H. split; [|split].
  - unfold Delete.accepted; simpl.
    rewrite orb_true_iff, !String.eqb_eq. tauto.
  - unfold Delete.confirm_deletion. simpl. now rewrite H.
  - intros Hno. unfold Delete.script, Delete.main, toplevel, Delete.confirm_deletion.
    simpl. rewrite H. simpl. rewrite Hno. simpl. auto.
Qed.

Example accepted_answers :
  Delete.accepted "yes" = true /\ Delete.accepted " Y " = true /\
  Delete.accepted "YeS" = true /\ Delete.accepted "" = false /\
  Delete.accepted "no" = false /\ Delete.accepted "yes please" = false /\
  Delete.accepted "ye s" = false.
Proof. repeat split. Qed.

Lemma declined_deletion_is_inert_witness :
  Delete.accepted " Maybe " = false /\
  exit_code (outcome (exec (says " Maybe ") Delete.script 0)) = 0%Z /\
  issued is_remote (trace (exec (says " Maybe ") Delete.script 0)) = false.
Proof.
  split; [reflexivity|].
  destruct (declined_deletion_is_inert (says " Maybe ") 0 1 " Maybe " eq_refl)
    as (_ & _ & H).
  destruct (H eq_refl) as (Hexit & _ & Hremote & _).
  split; [exact Hexit | exact Hremote].
Defined.

(** ** Nothing to delete *)

Lemma delete_stack_exists_absent {W : Type} (E : env W) (w w' : W) (name : string)
    (r : reply (CF_describe_stacks name)) :
  answers E w (CF_describe_stacks name) r w' ->
  absent_or_deleted r ->
  exec E (Delete.stack_exists name) w = Run [Called (CF_describe_stacks name) r] (Done false) w'.
Proof.
  unfold answers, Delete.stack_exists. intros H Habs. simpl. rewrite H. simpl.
  destruct r as [[m|m|m| |m]|[|s rest]]; simpl in Habs; try contradiction; simpl.
  - now rewrite Habs.
  - now rewrite Habs.
Qed.

(** C3. When the operator confirms and both existence checks of the delete
    flow find nothing (the stack does not exist, or is in DELETE_COMPLETE),
    the run exits with code 0; its only calls are the prompt and the two
    describe calls, so it empties no bucket and requests no deletion. *)
Theorem nothing_to_delete {W : Type} (E : env W) (w0 w1 w2 w3 : W) (answer : string)
    (r_app : reply (CF_describe_stacks Delete.APP_STACK_NAME))
    (r_net : reply (CF_describe_stacks Delete.NETWORK_STACK_NAME)) :
  answers E w0 (Input confirmation_prompt) (inr answer) w1 ->
  Delete.accepted answer = true ->
  answers E w1 (CF_describe_stacks Delete.APP_STACK_NAME) r_app w2 ->
  absent_or_deleted r_app ->
  answers E w2 (CF_describe_stacks Delete.NETWORK_STACK_NAME) r_net w3 ->
  absent_or_deleted r_net ->
  exit_code (outcome (exec E Delete.script w0)) = 0%Z /\
  calls (trace (exec E Delete.script w0)) =
    [Called (Input confirmation_prompt) (inr answer);
     Called (CF_describe_stacks Delete.APP_STACK_NAME) r_app;
     Called (CF_describe_stacks Delete.NETWORK_STACK_NAME) r_net] /\
  issued is_mutation (trace (exec E Delete.script w0)) = false /\
  final (exec E Delete.script w0) = w3.
Proof.
  unfold answers, confirmation_prompt.
  simpl. intros Hin Hyes Happ Happ_abs Hnet Hnet_abs.
  rewrite Hin; simpl. rewrite Hyes; simpl. rewrite Happ; simpl.
  destruct r_app as [[m|m|m| |m]|[|s rest]]; simpl in Happ_abs; try contradiction;
    simpl; rewrite Happ_abs; simpl; rewrite Hnet; simpl;
    destruct r_net as [[m'|m'|m'| |m']|[|s' rest']]; simpl in Hnet_abs; try contradiction;
    simpl; rewrite Hnet_abs; simpl; auto.
Qed.

Lemma nothing_to_delete_witness :
  exit_code (outcome (exec confirmed_but_no_stacks Delete.script 0)) = 0%Z /\
  issued is_mutation (trace (exec confirmed_but_no_stacks Delete.script 0)) = false.
Proof.
  destruct (nothing_to_delete confirmed_but_no_stacks 0 1 2 3 "  YES " _ _
              eq_refl eq_refl eq_refl eq_refl eq_refl eq_refl)
    as (Hexit & _ & Hmut & _).
  split; [exact Hexit | exact Hmut].
Defined.

(** ** Refusing to create over an existing stack *)

(** C1. If the pre-check of the create flow is answered with a record of the
    network stack, or (the network stack passing for absent or the check
    failing) with a record of the application stack, the run exits with code 1
    and never calls the create operation, nor any other mutating operation. *)
Theorem create_refuses_existing_stack {W : Type} (E : env W) (w : W) :
  described (reply_in E w (CF_describe_stacks Create.NETWORK_STACK_NAME)) \/
  described (reply_in E (world_after E w (CF_describe_stacks Create.NETWORK_STACK_NAME))
               (CF_describe_stacks Create.APP_STACK_NAME)) ->
  exit_code (outcome (exec E Create.script w)) = 1%Z /\
  issued is_create (trace (exec E Create.script w)) = false /\
  issued is_mutation (trace (exec E Create.script w)) = false.
Proof.
  intros H. unfold Create.script, Create.main.
  rewrite exec_toplevel, exit_code_at_toplevel, !issued_at_toplevel, exec_bind.
  assert (Hpre : exists sg,
             outcome (exec E Create.precheck w) = Stop sg /\
             exit_code (@Stop unit sg) = 1%Z /\
             issued is_mutation (trace (exec E Create.precheck w)) = false /\
             issued is_create (trace (exec E Create.precheck w)) = false).
  { revert H. unfold reply_in, world_after, Create.precheck. simpl.
    destruct (respond E (CF_describe_stacks Create.NETWORK_STACK_NAME) w)
      as [[[m|m|m| |m]|stacks] w1]; simpl; eauto.
    destruct (py_in "does not exist" m); simpl; eauto.
    destruct (respond E (CF_describe_stacks Create.APP_STACK_NAME) w1)
      as [[e|stacks] w2]; simpl; eauto; intros [[]|[]]. }
  destruct Hpre as (sg & Ho & Hexit & Hmut & Hcreate).
  unfold andthen. rewrite Ho. cbn [trace outcome]. auto.
Qed.

Lemma create_refuses_existing_stack_witness :
  exit_code (outcome (exec network_already_there Create.script 0)) = 1%Z /\
  issued is_create (trace (exec network_already_there Create.script 0)) = false.
Proof.
  destruct (create_refuses_existing_stack network_already_there 0 (or_introl I))
    as (Hexit & Hcreate & _).
  split; [exact Hexit | exact Hcreate].
Defined.

(** ** Emptying the bucket *)

Lemma empty_s3_bucket_run {W : Type} (E : env W) (w : W) (b : string) :
  let r1 := reply_in E w (S3_delete_objects b) in
  let w1 := world_after E w (S3_delete_objects b) in
  let r2 := reply_in E w1 (S3_delete_object_versions b) in
  (outcome (exec E (Delete.empty_s3_bucket b) w) = Done true <->
   bucket_missing r1 \/ (succeeded r1 /\ (succeeded r2 \/ bucket_missing r2))) /\
  (outcome (exec E (Delete.empty_s3_bucket b) w) = Done false <->
   refused r1 \/ (succeeded r1 /\ refused r2)) /\
  calls (trace (exec E (Delete.empty_s3_bucket b) w)) =
    Called (S3_delete_objects b) r1 ::
    match r1 with
    | inr _ => [Called (S3_delete_object_versions b) r2]
    | inl _ => []
    end.
Proof.
  unfold reply_in, world_after, Delete.empty_s3_bucket. simpl.
  destruct (respond E (S3_delete_objects b) w) as [[[m|m|m| |m]|[]] w1]; simpl;
    try (split; [|split]; [split; intros H; solve [discriminate | tauto | intuition]
                          |split; intros H; solve [discriminate | tauto | intuition]
                          |reflexivity]).
  - destruct (py_in "NoSuchBucket" m) eqn:Hm; simpl;
      (split; [|split]; [split; intros H; solve [discriminate | tauto | intuition congruence]
                        |split; intros H; solve [discriminate | tauto | intuition congruence]
                        |reflexivity]).
  - destruct (respond E (S3_delete_object_versions b) w1) as [[[m|m|m| |m]|[]] w2]; simpl;
      try (split; [|split]; [split; intros H; solve [discriminate | tauto | intuition]
                            |split; intros H; solve [discriminate | tauto | intuition]
                            |reflexivity]).
    destruct (py_in "NoSuchBucket" m) eqn:Hm; simpl;
      (split; [|split]; [split; intros H; solve [discriminate | tauto | intuition congruence]
                        |split; intros H; solve [discriminate | tauto | intuition congruence]
                        |reflexivity]).
Qed.

Lemma bucket_store_empties (store : gmap string bucket) (b : string) (content : bucket) :
  store !! b = Some content ->
  exec bucket_store (Delete.empty_s3_bucket b) store =
    Run [Printed (Info ("Emptying S3 bucket: " +:+ b));
         Called (S3_delete_objects b) (inr tt);
         Called (S3_delete_object_versions b) (inr tt);
         Printed (Success ("S3 bucket " +:+ b +:+ " emptied successfully!"))]
        (Done true) (<[b := empty_bucket]> store).
Proof.
  intros Hb. unfold Delete.empty_s3_bucket. simpl. rewrite Hb. simpl.
  rewrite lookup_insert_eq. simpl. now rewrite insert_insert_eq.
Qed.

Lemma bucket_store_missing (store : gmap string bucket) (b : string) :
  store !! b = None ->
  exec bucket_store (Delete.empty_s3_bucket b) store =
    Run [Printed (Info ("Emptying S3 bucket: " +:+ b));
         Called (S3_delete_objects b) (inl no_such_bucket);
         Printed (Info ("Bucket " +:+ b +:+ " does not exist or is already deleted."))]
        (Done true) store.
Proof. intros Hb. unfold Delete.empty_s3_bucket. simpl. now rewrite Hb. Qed.

(** C5. [empty_s3_bucket] first asks for the deletion of every current object
    and then for the deletion of every object version, and returns success
    when both requests succeed or when either reports a missing bucket.  On
    the bucket store this leaves the bucket with no object and no version,
    other buckets untouched; a missing bucket and a bucket that is already
    empty give success with the store unchanged, and emptying again after a
    first emptying gives success and changes nothing. *)
Theorem empty_s3_bucket_empties (b : string) :
  (forall (W : Type) (E : env W) (w : W),
      let r1 := reply_in E w (S3_delete_objects b) in
      let w1 := world_after E w (S3_delete_objects b) in
      let r2 := reply_in E w1 (S3_delete_object_versions b) in
      (outcome (exec E (Delete.empty_s3_bucket b) w) = Done true <->
       bucket_missing r1 \/ (succeeded r1 /\ (succeeded r2 \/ bucket_missing r2))) /\
      calls (trace (exec E (Delete.empty_s3_bucket b) w)) =
        Called (S3_delete_objects b) r1 ::
        match r1 with
        | inr _ => [Called (S3_delete_object_versions b) r2]
        | inl _ => []
        end) /\
  (forall store : gmap string bucket,
      let r := exec bucket_store (Delete.empty_s3_bucket b) store in
      outcome r = Done true /\
      (forall content, store !! b = Some content -> final r !! b = Some empty_bucket) /\
      (store !! b = None -> final r = store) /\
      (store !! b = Some empty_bucket -> final r = store) /\
      (forall b', b' <> b -> final r !! b' = store !! b') /\
      outcome (exec bucket_store (Delete.empty_s3_bucket b) (final r)) = Done true /\
      final (exec bucket_store (Delete.empty_s3_bucket b) (final r)) = final r).
Proof.
  split.
  - intros W E w. destruct (empty_s3_bucket_run E w b) as (Htrue & _ & Hcalls).
    split; assumption.
  - intros store. cbv zeta.
    destruct (store !! b) as [content|] eqn:Hb.
    + rewrite (bucket_store_empties store b content Hb). cbn [final outcome].
      rewrite (bucket_store_empties (<[b := empty_bucket]> store) b empty_bucket)
        by apply lookup_insert_eq.
      cbn [final outcome]. repeat split.
      * intros _ _. apply lookup_insert_eq.
      * discriminate.
      * intros [= ->]. now apply insert_id.
      * intros b' Hne. now apply lookup_insert_ne.
      * apply insert_insert_eq.
    + rewrite (bucket_store_missing store b Hb). cbn [final outcome].
      rewrite (bucket_store_missing store b Hb). cbn [final outcome].
      repeat split; auto; discriminate.
Qed.

Lemma empty_s3_bucket_empties_witness :
  outcome (exec bucket_store (Delete.empty_s3_bucket "udagram-bucket") versioned_bucket) = Done true /\
  final (exec bucket_store (Delete.empty_s3_bucket "udagram-bucket") versioned_bucket)
    !! "udagram-bucket" = Some empty_bucket.
Proof.
  destruct (empty_s3_bucket_empties "udagram-bucket") as [_ H].
  destruct (H versioned_bucket) as (Hok & Hempty & _).
  split; [exact Hok|].
  apply (Hempty {| objects := ["index.html"];
                   object_versions := [("index.html", "v1"); ("index.html", "v2")] |}).
  apply lookup_singleton_eq.
Defined.

(** ** The poll loop *)

Lemma waiter_loop_waiting {W : Type} (E : env W) (k : waiter) (name : string)
    (delay n : nat) (w : W) :
  waiting k name delay n
    (trace (exec E (waiter_loop k name delay n) w))
    (outcome (exec E (waiter_loop k name delay n) w)).
Proof.
  revert w. induction n as [|n IH]; intros w.
  - apply waiting_none.
  - rewrite waiter_loop_S. simpl.
    destruct (respond E (CF_waiter_poll k name) w) as [[e|[| |]] w1]; simpl.
    + apply waiting_poll_raised.
    + apply waiting_success.
    + apply waiting_failure.
    + destruct n as [|n]; simpl.
      * apply waiting_exhausted.
      * destruct (respond E (Sleep delay) w1) as [[e|[]] w2]; simpl.
        -- apply waiting_sleep_raised.
        -- apply waiting_again, IH.
Qed.

(** What every trace of the loop satisfies. *)
Lemma waiting_polls (k : waiter) (name : string) (delay n : nat)
    (t : list event) (o : result unit) :
  waiting k name delay n t o -> count_calls is_poll t <= n.
Proof.
  unfold count_calls. induction 1; simpl in *; lia.
Qed.

Lemma waiting_sleeps (k : waiter) (name : string) (delay n : nat)
    (t : list event) (o : result unit) :
  waiting k name delay n t o ->
  length (sleeps t) < Nat.max 1 n /\ Forall (eq delay) (sleeps t).
Proof.
  induction 1 as [ |n|n|n e| |n e|n t o Hw [IHlen IHall]]; simpl in *;
    (split; [lia | repeat constructor; auto]).
Qed.

Lemma waiting_calls (k : waiter) (name : string) (delay n : nat)
    (t : list event) (o : result unit) :
  waiting k name delay n t o ->
  Forall (fun ev => (exists r, ev = Called (Sleep delay) r) \/
                    (exists r, ev = Called (CF_waiter_poll k name) r)) t.
Proof.
  induction 1; repeat (constructor; eauto).
Qed.

Lemma waiting_done (k : waiter) (name : string) (delay n : nat)
    (t : list event) (o : result unit) :
  waiting k name delay n t o ->
  (o = Done tt <-> existsb poll_succeeded t = true).
Proof.
  induction 1; simpl in *; try tauto; split; intros; discriminate.
Qed.

Lemma waiting_stop (k : waiter) (name : string) (delay n : nat)
    (t : list event) (o : result unit) :
  waiting k name delay n t o ->
  forall s, o = Stop s ->
  exists e, s = Exc e /\
    (raised_by_call e t \/
     e = WaiterError "Max attempts exceeded" \/
     e = WaiterError "Waiter encountered a terminal failure state").
Proof.
  induction 1 as [ |n|n|n e| |n e|n t o Hw IH]; intros s Hs;
    try (injection Hs as <-; eexists; split; [reflexivity|]; auto; fail);
    try discriminate.
  - injection Hs as <-. exists e. split; [reflexivity|]. left.
    exists (CF_waiter_poll k name). now left.
  - injection Hs as <-. exists e. split; [reflexivity|]. left.
    exists (Sleep delay). right; now left.
  - destruct (IH s Hs) as (e & -> & [[c Hin]|Hor]).
    + exists e. split; [reflexivity|]. left. exists c. right; right; exact Hin.
    + exists e. split; [reflexivity|]. now right.
Qed.

(** ** The wait helpers *)

Lemma wait_for_stack_creation_shape (stack_name : string) :
  Create.wait_for_stack_creation stack_name =
  wait_with stack_create_complete stack_name
    ("Waiting for stack " +:+ stack_name +:+ " to be created...")
    ("Stack " +:+ stack_name +:+ " created successfully!")
    "Stack creation failed: ".
Proof. reflexivity. Qed.

Lemma wait_for_stack_deletion_shape (stack_name : string) :
  Delete.wait_for_stack_deletion stack_name =
  wait_with stack_delete_complete stack_name
    ("Waiting for stack " +:+ stack_name +:+ " to be deleted...")
    ("Stack " +:+ stack_name +:+ " deleted successfully!")
    "Stack deletion failed: ".
Proof. reflexivity. Qed.

Lemma dump_failed_events_run {W : Type} (E : env W) (events : list stack_event) (w : W) :
  exec E (dump_failed_events events) w =
  Run (map diagnostic (List.filter failed_event events)) (Done tt) w.
Proof.
  induction events as [|ev rest IH]; simpl; [reflexivity|].
  unfold failed_event at 1.
  destruct (py_in "FAILED" (default "" (ResourceStatus ev))); simpl.
  - unfold logged. simpl in IH. rewrite IH. reflexivity.
  - simpl in IH. rewrite IH. reflexivity.
Qed.

Lemma dump_stack_events_dumping {W : Type} (E : env W) (name : string) (w : W) :
  dumping name (trace (exec E (dump_stack_events name) w))
               (outcome (exec E (dump_stack_events name) w)).
Proof.
  unfold dump_stack_events. rewrite exec_try_except, exec_bind, exec_perform.
  destruct (respond E (CF_describe_stack_events name) w) as [[e|events] w1]; simpl.
  - unfold andthen, recover; simpl.
    destruct (is_Exception e) eqn:He; simpl.
    + now apply dumping_swallowed.
    + now apply dumping_interrupted.
  - unfold andthen; simpl. rewrite dump_failed_events_run. simpl.
    apply dumping_events.
Qed.

Opaque dump_stack_events.

Lemma wait_with_awaited {W : Type} (E : env W) (k : waiter)
    (name announce done_msg failed_msg : string) (w : W) :
  exists t,
    trace (exec E (wait_with k name announce done_msg failed_msg) w) =
      Printed (Info announce) ::
      Printed (Info "This may take several minutes. Please be patient.") :: t /\
    awaited k name done_msg failed_msg t
      (outcome (exec E (wait_with k name announce done_msg failed_msg) w)).
Proof.
  unfold wait_with, waiter_wait. cbn [bind print_info exec logged trace outcome].
  eexists; split; [reflexivity|].
  rewrite exec_try_except, exec_bind.
  pose proof (waiter_loop_waiting E k name 30 120 w) as Hw.
  pose proof (waiting_stop _ _ _ _ _ _ Hw) as Hstop.
  destruct (exec E (waiter_loop k name 30 120) w) as [tw [[]|s] w1]; simpl in *.
  - unfold andthen, recover; simpl. now apply awaited_ready.
  - destruct (Hstop s eq_refl) as (e & -> & _).
    unfold andthen, recover; simpl.
    destruct e as [m|m|m| |m]; simpl;
      try (rewrite app_nil_r || idtac; apply awaited_raised; [exact Hw | intros; discriminate]).
    pose proof (dump_stack_events_dumping E name w1) as Hd.
    rewrite !exec_bind.
    destruct (exec E (dump_stack_events name) w1) as [td [[]|sd] w2]; simpl in *.
    + unfold andthen; simpl. rewrite app_nil_r.
      apply (awaited_failed k name done_msg failed_msg tw m td (Done tt) Hw Hd).
    + unfold andthen; simpl.
      apply (awaited_failed k name done_msg failed_msg tw m td (Stop sd) Hw Hd).
Qed.

Lemma count_calls_app (p : call -> bool) (t1 t2 : list event) :
  count_calls p (t1 ++ t2) = count_calls p t1 + count_calls p t2.
Proof. unfold count_calls. now rewrite List.filter_app, length_app. Qed.

Lemma sleeps_app (t1 t2 : list event) : sleeps (t1 ++ t2) = sleeps t1 ++ sleeps t2.
Proof. apply omap_app. Qed.

Lemma raised_by_call_app (e : exn) (t1 t2 : list event) :
  raised_by_call e t1 \/ raised_by_call e t2 -> raised_by_call e (t1 ++ t2).
Proof.
  intros [[c H]|[c H]]; exists c; apply in_or_app; auto.
Qed.

Lemma diagnostics_quiet (l : list stack_event) :
  count_calls is_poll (map diagnostic l) = 0 /\
  sleeps (map diagnostic l) = [] /\
  existsb poll_succeeded (map diagnostic l) = false /\
  length (List.filter is_diagnostic (map diagnostic l)) <= length l.
Proof.
  induction l as [|ev l (Hp & Hs & Hx & Hd)]; simpl; [repeat split; auto|].
  unfold count_calls in *. simpl. repeat split; auto.
  destruct (String.prefix _ _); simpl; lia.
Qed.

Lemma dumping_quiet (name : string) (td : list event) (od : result unit) :
  dumping name td od ->
  count_calls is_poll td = 0 /\
  sleeps td = [] /\
  existsb poll_succeeded td = false /\
  length (List.filter is_diagnostic td) <= 10 /\
  (forall s, od = Stop s -> exists e, s = Exc e /\ raised_by_call e td).
Proof.
  destruct 1 as [events|e He|e He].
  - destruct (diagnostics_quiet (List.filter failed_event (firstn 10 events)))
      as (Hp & Hs & Hx & Hd).
    match goal with
    | |- context [?a :: ?b :: map diagnostic ?l] =>
        change (a :: b :: map diagnostic l) with ([a; b] ++ map diagnostic l)
    end.
    rewrite count_calls_app, sleeps_app, existsb_app, List.filter_app, length_app,
      Hp, Hs, Hx.
    repeat split; auto.
    + replace (length (List.filter is_diagnostic
                 [Called (CF_describe_stack_events name) (inr events);
                  Printed (Plain (newline +:+ "Recent stack events:"))])) with 0
        by reflexivity.
      simpl. etransitivity; [exact Hd|].
      etransitivity; [apply List.filter_length_le|].
      rewrite length_firstn. lia.
    + discriminate.
  - repeat split; auto; simpl; try lia. discriminate.
  - repeat split; auto; simpl; try lia.
    intros s [= <-]. exists e. split; [reflexivity|].
    exists (CF_describe_stack_events name). now left.
Qed.

Lemma waiting_quiet (k : waiter) (name : string) (delay n : nat)
    (t : list event) (o : result unit) :
  waiting k name delay n t o -> List.filter is_diagnostic t = [].
Proof. induction 1; simpl; auto. Qed.

Lemma awaited_bounded (k : waiter) (name done_msg failed_msg : string)
    (t : list event) (o : result bool) (pre : list line) :
  awaited k name done_msg failed_msg t o ->
  Forall (fun l => match l with Info _ => True | _ => False end) pre ->
  bounded_wait (map Printed pre ++ t) o.
Proof.
  intros Ha Hpre.
  assert (Hq : count_calls is_poll (map Printed pre) = 0 /\
               sleeps (map Printed pre) = [] /\
               existsb poll_succeeded (map Printed pre) = false /\
               List.filter is_diagnostic (map Printed pre) = [] /\
               forall e, ~ raised_by_call e (map Printed pre)).
  { clear Ha. induction Hpre as [|l pre Hl Hpre (Hp & Hs & Hx & Hd & Hr)]; simpl.
    - repeat split; auto. intros e [c []].
    - destruct l; try contradiction. unfold count_calls in *; simpl.
      repeat split; auto. intros e [c [Hin|Hin]]; [discriminate|].
      apply (Hr e). now exists c. }
  destruct Hq as (Hp0 & Hs0 & Hx0 & Hd0 & _).
  unfold bounded_wait.
  rewrite count_calls_app, sleeps_app, existsb_app, List.filter_app, length_app,
    Hp0, Hs0, Hx0, Hd0. simpl.
  destruct Ha as [tw Hw|tw m td od Hw Hd|tw e Hw Hne].
  - pose proof (waiting_polls _ _ _ _ _ _ Hw) as Hp.
    destruct (waiting_sleeps _ _ _ _ _ _ Hw) as [Hs Hall].
    pose proof (proj1 (waiting_done _ _ _ _ _ _ Hw) eq_refl) as Hx.
    rewrite count_calls_app, sleeps_app, existsb_app, List.filter_app, length_app,
      (waiting_quiet _ _ _ _ _ _ Hw), Hx.
    unfold count_calls at 2. simpl. rewrite app_nil_r.
    repeat split; auto; simpl in *; lia.
  - pose proof (waiting_polls _ _ _ _ _ _ Hw) as Hp.
    destruct (waiting_sleeps _ _ _ _ _ _ Hw) as [Hs Hall].
    assert (Hx : existsb poll_succeeded tw = false).
    { destruct (existsb poll_succeeded tw) eqn:Hx; [|reflexivity].
      apply (waiting_done _ _ _ _ _ _ Hw) in Hx. discriminate. }
    destruct (dumping_quiet _ _ _ Hd) as (Hpd & Hsd & Hxd & Hdd & Hrd).
    rewrite count_calls_app, sleeps_app, existsb_app, List.filter_app, length_app,
      (waiting_quiet _ _ _ _ _ _ Hw), Hx.
    change (Printed (Error (failed_msg +:+ m)) :: td)
      with ([Printed (Error (failed_msg +:+ m))] ++ td).
    rewrite count_calls_app, sleeps_app, existsb_app, List.filter_app, length_app,
      Hpd, Hsd, Hxd. unfold count_calls at 2. simpl. rewrite app_nil_r.
    repeat split; auto; simpl in *; try lia.
    + destruct od; discriminate.
    + destruct od as [[]|s]; [auto|]. right; right.
      destruct (Hrd s eq_refl) as (e & -> & Hr). exists e. split; [reflexivity|].
      apply raised_by_call_app. right.
      apply raised_by_call_app. right.
      destruct Hr as [c Hin]. exists c. right. exact Hin.
  - pose proof (waiting_polls _ _ _ _ _ _ Hw) as Hp.
    destruct (waiting_sleeps _ _ _ _ _ _ Hw) as [Hs Hall].
    assert (Hx : existsb poll_succeeded tw = false).
    { destruct (existsb poll_succeeded tw) eqn:Hx; [|reflexivity].
      apply (waiting_done _ _ _ _ _ _ Hw) in Hx. discriminate. }
    rewrite (waiting_quiet _ _ _ _ _ _ Hw), Hx.
    repeat split; auto; simpl in *; try lia; try discriminate.
    right; right. exists e. split; [reflexivity|].
    apply raised_by_call_app. right.
    destruct (waiting_stop _ _ _ _ _ _ Hw _ eq_refl) as (e' & [= <-] & [Hr|[->| ->]]).
    + exact Hr.
    + now destruct (Hne "Max attempts exceeded").
    + now destruct (Hne "Waiter encountered a terminal failure state").
Qed.

Lemma wait_with_bounded {W : Type} (E : env W) (k : waiter)
    (name announce done_msg failed_msg : string) (w : W) :
  bounded_wait (trace (exec E (wait_with k name announce done_msg failed_msg) w))
               (outcome (exec E (wait_with k name announce done_msg failed_msg) w)).
Proof.
  destruct (wait_with_awaited E k name announce done_msg failed_msg w) as (t & -> & Ha).
  apply (awaited_bounded k name done_msg failed_msg t _
           [Info announce; Info "This may take several minutes. Please be patient."] Ha).
  repeat constructor.
Qed.

(** C9. Every wait helper stops: whatever the service answers, it polls at
    most 120 times and sleeps fewer than 120 times, 30 seconds each; it
    returns True exactly when a poll found the terminal success state, and
    otherwise (failure state, or attempts exhausted) returns False, unless a
    call raised an exception that it lets through; the diagnostic dump prints
    at most ten lines.  The loop itself makes at most the configured number
    of polls, at the configured delay. *)
Theorem wait_helpers_bounded {W : Type} (E : env W) (w : W) (stack_name : string) :
  bounded_wait (trace (exec E (Create.wait_for_stack_creation stack_name) w))
               (outcome (exec E (Create.wait_for_stack_creation stack_name) w)) /\
  bounded_wait (trace (exec E (Delete.wait_for_stack_deletion stack_name) w))
               (outcome (exec E (Delete.wait_for_stack_deletion stack_name) w)) /\
  (forall (k : waiter) (Delay MaxAttempts : nat),
      count_calls is_poll (trace (exec E (waiter_wait k stack_name Delay MaxAttempts) w))
        <= MaxAttempts /\
      Forall (eq Delay) (sleeps (trace (exec E (waiter_wait k stack_name Delay MaxAttempts) w)))).
Proof.
  split; [|split].
  - rewrite wait_for_stack_creation_shape. apply wait_with_bounded.
  - rewrite wait_for_stack_deletion_shape. apply wait_with_bounded.
  - intros k Delay MaxAttempts. unfold waiter_wait.
    pose proof (waiter_loop_waiting E k stack_name Delay MaxAttempts w) as Hw.
    split.
    + exact (waiting_polls _ _ _ _ _ _ Hw).
    + exact (proj2 (waiting_sleeps _ _ _ _ _ _ Hw)).
Qed.

Example never_ready_times_out :
  let r := exec never_ready (Create.wait_for_stack_creation "udagram-network") 0 in
  outcome r = Done false /\
  count_calls is_poll (trace r) = 120 /\
  sleeps (trace r) = repeat 30 119 /\
  length (List.filter is_diagnostic (trace r)) = 10.
Proof. vm_compute. repeat split. Qed.

(** ** Monitors

    A monitor is a state machine that reads the trace of a run event by
    event.  [wp p Q s] says that from monitor state [s], whatever the
    environment replies, running [p] ends with an outcome and a monitor state
    that satisfy [Q]. *)

Section MonitorFacts.
Context {S : Type} (step : S -> event -> S).

Lemma wp_sound {A W : Type} (E : env W) (p : prog A) (Q : result A -> S -> Prop) (s : S) (w : W) :
  wp step p Q s -> Q (outcome (exec E p w)) (observe step s (trace (exec E p w))).
Proof.
  revert s w. induction p as [a|sg|l k IH|c k IH]; intros s w H; simpl in *; auto.
Qed.

Lemma wp_mono {A : Type} (p : prog A) (Q Q' : result A -> S -> Prop) (s : S) :
  (forall o s', Q o s' -> Q' o s') -> wp step p Q s -> wp step p Q' s.
Proof.
  intros HQ. revert s. induction p as [a|sg|l k IH|c k IH]; intros s H; simpl in *; auto.
Qed.

Lemma wp_bind {A B : Type} (p : prog A) (f : A -> prog B) (Q : result B -> S -> Prop) (s : S) :
  wp step p (fun o s' => match o with
                    | Done a => wp step (f a) Q s'
                    | Stop sg => Q (Stop sg) s'
                    end) s ->
  wp step (bind p f) Q s.
Proof.
  revert s. induction p as [a|sg|l k IH|c k IH]; intros s H; simpl in *; auto.
Qed.

Lemma wp_try_except {A : Type} (p : prog A) (h : exn -> option (prog A))
    (Q : result A -> S -> Prop) (s : S) :
  wp step p (fun o s' => match o with
                    | Stop (Exc e) =>
                        match h e with
                        | Some q => wp step q Q s'
                        | None => Q (Stop (Exc e)) s'
                        end
                    | _ => Q o s'
                    end) s ->
  wp step (try_except p h) Q s.
Proof.
  revert s. induction p as [a|[e|n]|l k IH|c k IH]; intros s H; simpl in *; auto.
  destruct (h e); auto.
Qed.

(** A program whose events the monitor ignores in state [s] leaves it in [s]. *)
Lemma wp_yields {A : Type} (allowed : event -> Prop) (R : result A -> Prop) (p : prog A)
    (Q : result A -> S -> Prop) (s : S) :
  yields allowed R p ->
  (forall ev, allowed ev -> step s ev = s) ->
  (forall o, R o -> Q o s) ->
  wp step p Q s.
Proof.
  intros Hy Hs HQ. induction p as [a|sg|l k IH|c k IH]; simpl in *; auto.
  - destruct Hy as [Ha Hk]. rewrite (Hs _ Ha). auto.
  - intros r. destruct (Hy r) as [Ha Hk]. rewrite (Hs _ Ha). auto.
Qed.

End MonitorFacts.

Lemma yields_mono {A : Type} (allowed allowed' : event -> Prop) (R R' : result A -> Prop)
    (p : prog A) :
  (forall ev, allowed ev -> allowed' ev) ->
  (forall o, R o -> R' o) ->
  yields allowed R p -> yields allowed' R' p.
Proof.
  intros Ha HR. induction p as [a|sg|l k IH|c k IH]; simpl; auto.
  - intros [H1 H2]; auto.
  - intros H r. destruct (H r); auto.
Qed.

Lemma yields_bind {A B : Type} (allowed : event -> Prop) (R : result A -> Prop)
    (R' : result B -> Prop) (p : prog A) (f : A -> prog B) :
  yields allowed R p ->
  (forall a, R (Done a) -> yields allowed R' (f a)) ->
  (forall sg, R (Stop sg) -> R' (Stop sg)) ->
  yields allowed R' (bind p f).
Proof.
  intros Hp Hf Hs. induction p as [a|sg|l k IH|c k IH]; simpl in *; auto.
  - destruct Hp; auto.
  - intros r. destruct (Hp r); auto.
Qed.

Lemma yields_try_except {A : Type} (allowed : event -> Prop) (R R' : result A -> Prop)
    (p : prog A) (h : exn -> option (prog A)) :
  yields allowed R p ->
  (forall e, R (Stop (Exc e)) ->
             match h e with
             | Some q => yields allowed R' q
             | None => R' (Stop (Exc e))
             end) ->
  (forall a, R (Done a) -> R' (Done a)) ->
  (forall n, R (Stop (SystemExit n)) -> R' (Stop (SystemExit n))) ->
  yields allowed R' (try_except p h).
Proof.
  intros Hp Hh Hd He. induction p as [a|[e|n]|l k IH|c k IH]; simpl in *; auto.
  - specialize (Hh e Hp). destruct (h e); auto.
  - destruct Hp; auto.
  - intros r. destruct (Hp r); auto.
Qed.

(** ** Footprints of the helpers *)

Lemma never_exits_only (code : Z) {A : Type} (o : result A) :
  never_exits o -> exits_only code o.
Proof. intros H n Hn. now destruct (H n). Qed.

Lemma never_exits_stop {A B : Type} (sg : signal) :
  never_exits (@Stop A sg) -> never_exits (@Stop B sg).
Proof. intros H n [= ->]. now apply (H n). Qed.

Lemma exits_only_stop (code : Z) {A B : Type} (sg : signal) :
  exits_only code (@Stop A sg) -> exits_only code (@Stop B sg).
Proof. intros H n [= ->]. now apply (H n). Qed.

Lemma yields_sound {A W : Type} (allowed : event -> Prop) (R : result A -> Prop)
    (p : prog A) (E : env W) (w : W) :
  yields allowed R p ->
  Forall allowed (trace (exec E p w)) /\ R (outcome (exec E p w)).
Proof.
  revert w. induction p as [a|sg|l k IH|c k IH]; intros w Hy; simpl in *; auto.
  - destruct Hy as [Ha Hk]. destruct (IH w Hk). auto.
  - destruct (Hy (fst (respond E c w))) as [Ha Hk].
    destruct (IH _ (snd (respond E c w)) Hk). auto.
Qed.

Lemma avoids_issued (forbid : call -> bool) (t : list event) :
  Forall (avoids forbid) t <-> issued forbid t = false.
Proof.
  unfold issued, avoids. induction t as [|ev t IH]; simpl.
  - split; auto.
  - rewrite orb_false_iff, <- IH. split.
    + intros H. inversion H; subst. auto.
    + intros [H1 H2]. constructor; auto.
Qed.

Ltac footprint :=
  repeat first
    [ progress simpl
    | match goal with
      | |- _ /\ _ => split
      | |- avoids _ _ => solve [assumption | reflexivity | unfold avoids; simpl; auto]
      | |- never_exits _ => intros ? ?; discriminate
      | |- exits_only _ _ => intros ? ?; solve [discriminate | congruence]
      | |- forall r : reply _, _ => intros [[]|]
      | |- forall r : _ + _, _ => intros [[]|]
      | |- context [first_stack ?v] => is_var v; destruct v
      | |- context [if ?b then _ else _] => destruct b
      end ].

Section Footprints.
Variable forbid : call -> bool.

Lemma print_section_yields (m : string) (R : result unit -> Prop) :
  R (Done tt) -> yields (avoids forbid) R (print_section m).
Proof. intros. simpl. repeat split; auto. Qed.

Lemma get_stack_output_yields (name key : string) :
  forbid (CF_describe_stacks name) = false ->
  yields (avoids forbid) never_exits (get_stack_output name key).
Proof. intros H. unfold get_stack_output. footprint. Qed.

Lemma create_stack_exists_yields (name : string) :
  forbid (CF_describe_stacks name) = false ->
  yields (avoids forbid) never_exits (Create.stack_exists name).
Proof. intros H. unfold Create.stack_exists. footprint. Qed.

Lemma delete_stack_exists_yields (name : string) :
  forbid (CF_describe_stacks name) = false ->
  yields (avoids forbid) never_exits (Delete.stack_exists name).
Proof. intros H. unfold Delete.stack_exists. footprint. Qed.

Lemma read_template_yields (path : string) :
  forbid (ReadText path) = false ->
  yields (avoids forbid) (exits_only 1%Z) (Create.read_template path).
Proof. intros H. unfold Create.read_template. footprint. Qed.

Lemma read_parameters_yields (path : string) :
  forbid (ReadJson path) = false ->
  yields (avoids forbid) (exits_only 1%Z) (Create.read_parameters path).
Proof. intros H. unfold Create.read_parameters. footprint. Qed.

Lemma print_outputs_yields (outputs : list output) :
  yields (avoids forbid) (fun o => o = Done tt) (Create.print_outputs outputs).
Proof.
  induction outputs as [|o rest IH]; simpl; auto.
  split; [reflexivity|]. destruct (Description o); simpl; auto. split; [reflexivity|auto].
Qed.

Lemma display_stack_outputs_yields (name : string) :
  forbid (CF_describe_stacks name) = false ->
  yields (avoids forbid) never_exits (Create.display_stack_outputs name).
Proof.
  intros H. unfold Create.display_stack_outputs.
  apply yields_try_except with (R := never_exits).
  - simpl. intros [e|[|s rest]]; simpl; (split; [exact H|]);
      try (intros ? ?; discriminate).
    destruct (default [] (Outputs s)) as [|o outputs].
    + footprint.
    + repeat (split; [reflexivity|]). simpl.
      destruct (Description o); simpl; try (split; [reflexivity|]);
        (eapply yields_mono; [| |apply (print_outputs_yields outputs)]; auto;
         intros o' -> n Hn; discriminate).
  - intros e _. destruct e; try (intros ? ?; discriminate). footprint.
  - auto.
  - auto.
Qed.

End Footprints.

(** ** What a wait helper does to a monitor *)

Lemma wp_dump_failed_events {S : Type} (step : S -> event -> S) (events : list stack_event)
    (Q : result unit -> S -> Prop) (s : S) :
  (forall l, step s (Printed l) = s) ->
  Q (Done tt) s ->
  wp step (dump_failed_events events) Q s.
Proof.
  intros Hprint HQ. induction events as [|ev rest IH]; simpl; auto.
  destruct (py_in "FAILED" (default "" (ResourceStatus ev))); simpl; auto.
  now rewrite Hprint.
Qed.

Transparent dump_stack_events.

Lemma wp_dump_stack_events {S : Type} (step : S -> event -> S) (name : string)
    (Q : result unit -> S -> Prop) (s : S) :
  (forall l, step s (Printed l) = s) ->
  (forall r, step s (Called (CF_describe_stack_events name) r) = s) ->
  Q (Done tt) s ->
  (forall e, is_Exception e = false -> Q (Stop (Exc e)) s) ->
  wp step (dump_stack_events name) Q s.
Proof.
  intros Hprint Hevents Hdone Hexc. unfold dump_stack_events. simpl.
  intros [e|events]; rewrite Hevents; simpl.
  - destruct (is_Exception e) eqn:He; simpl; auto.
  - rewrite Hprint. apply wp_try_except.
    apply wp_dump_failed_events; auto.
Qed.

Lemma dump_stack_events_yields (forbid : call -> bool) (name : string) :
  forbid (CF_describe_stack_events name) = false ->
  yields (avoids forbid) never_exits (dump_stack_events name).
Proof.
  intros H. unfold dump_stack_events.
  apply yields_try_except with (R := fun o => o = Done tt \/ exists e, o = Stop (Exc e)).
  - simpl. intros [e|events]; simpl; (split; [exact H|]); eauto.
    split; [reflexivity|].
    induction (firstn 10 events) as [|ev rest IH]; simpl; auto.
    destruct (py_in "FAILED" (default "" (ResourceStatus ev))); simpl; auto.
    split; [reflexivity|auto].
  - intros e _. destruct (is_Exception e); simpl; intros ? ?; discriminate.
  - intros a _ ? ?; discriminate.
  - intros n [|[e ?]]; discriminate.
Qed.

Opaque dump_stack_events.

Section WaitSpec.
Context {S : Type} (step : S -> event -> S) (k : waiter) (name : string).
Context (requested ready halted : S).
Hypothesis step_print : forall s l, step s (Printed l) = s.
Hypothesis step_sleep : forall d r, step requested (Called (Sleep d) r) = requested.
Hypothesis step_events_requested :
  forall r, step requested (Called (CF_describe_stack_events name) r) = requested.
Hypothesis step_events_halted :
  forall r, step halted (Called (CF_describe_stack_events name) r) = halted.
Hypothesis step_poll :
  forall r, step requested (Called (CF_waiter_poll k name) r) =
            match r with
            | inr PollWaiting => requested
            | inr PollSuccess => ready
            | _ => halted
            end.

Lemma wp_waiter_loop (delay n : nat) (Q : result unit -> S -> Prop) :
  Q (Done tt) ready ->
  (forall e, Q (Stop (Exc e)) requested) ->
  (forall e, Q (Stop (Exc e)) halted) ->
  wp step (waiter_loop k name delay n) Q requested.
Proof.
  intros Hready Hreq Hhalt. induction n as [|n IH].
  - apply Hreq.
  - rewrite waiter_loop_S. simpl. intros r. rewrite step_poll.
    destruct r as [e|[| |]]; simpl; auto.
    destruct n as [|n]; simpl; auto.
    intros r. rewrite step_sleep. destruct r as [e|[]]; simpl; auto.
Qed.

(** From the requested state a wait helper either returns True with the
    monitor in the ready state, or ends otherwise (never by [sys.exit]) with
    the monitor still in the requested state or halted. *)
Lemma wp_wait_with (announce done_msg failed_msg : string) (Q : result bool -> S -> Prop) :
  Q (Done true) ready ->
  (forall o, o <> Done true -> never_exits o -> Q o requested /\ Q o halted) ->
  wp step (wait_with k name announce done_msg failed_msg) Q requested.
Proof.
  intros Hready Hfail.
  assert (Hf : forall s, s = requested \/ s = halted ->
               forall o, o <> Done true -> never_exits o -> Q o s).
  { intros s [-> | ->] o Ho Hn; now apply Hfail. }
  assert (Hcatch : forall s, s = requested \/ s = halted -> forall e,
    match (match e with
           | WaiterError m =>
               Some (do _ <- print_error (failed_msg +:+ m);
                     do _ <- dump_stack_events name;
                     Ret false)
           | _ => None
           end) with
    | Some q => wp step q Q s
    | None => Q (Stop (Exc e)) s
    end).
  { intros s Hs e.
    destruct e as [m|m|m| |m];
      try (apply (Hf s Hs); [discriminate | intros ? ?; discriminate]).
    simpl. rewrite step_print. apply wp_bind. apply wp_dump_stack_events; auto.
    - intros r. now destruct Hs as [-> | ->].
    - simpl. apply (Hf s Hs); [discriminate | intros ? ?; discriminate].
    - intros e He. apply (Hf s Hs); [discriminate | intros ? ?; discriminate]. }
  unfold wait_with, waiter_wait. cbn [bind wp print_info]. rewrite !step_print.
  apply wp_try_except, wp_bind, wp_waiter_loop.
  - simpl. now rewrite step_print.
  - intros e. apply Hcatch. now left.
  - intros e. apply Hcatch. now right.
Qed.

End WaitSpec.

(** ** The create flow is gated *)

Lemma wp_toplevel {S : Type} (step : S -> event -> S) (main : prog unit)
    (Q : result unit -> S -> Prop) (s : S) :
  (forall s' l, step s' (Printed l) = s') ->
  wp step main (fun o s' => match o with
                            | Stop (Exc _) => Q (Stop (SystemExit 1)) s'
                            | _ => Q o s'
                            end) s ->
  wp step (toplevel main) Q s.
Proof.
  intros Hprint H. unfold toplevel. apply wp_try_except.
  eapply wp_mono; [|exact H]. intros [[]|[e|n]] s'; simpl; auto.
  destruct e; simpl; now rewrite Hprint.
Qed.

Lemma wp_create_stack (name template : string) (params : parameters)
    (Q : result bool -> create_stage -> Prop) (s : create_stage) :
  (forall r,
      Q (match r with
         | inr _ => Done true
         | inl (ClientError _) => Done false
         | inl e => Stop (Exc e)
         end)
        (create_step s (Called (CF_create_stack name template params
                                  ["CAPABILITY_NAMED_IAM"]
                                  [("Project", "Udagram"); ("Environment", "Production")]) r))) ->
  wp create_step (Create.create_stack name template params) Q s.
Proof.
  intros H. unfold Create.create_stack. simpl.
  intros r. specialize (H r). destruct r as [[]|id]; simpl; exact H.
Qed.

Lemma precheck_yields (forbid : call -> bool) :
  (forall name, forbid (CF_describe_stacks name) = false) ->
  yields (avoids forbid) (exits_only 1%Z) Create.precheck.
Proof.
  intros H. unfold Create.precheck, Create.stack_exists.
  generalize (H Create.NETWORK_STACK_NAME) (H Create.APP_STACK_NAME). intros H1 H2.
  footprint.
Qed.

Lemma upload_to_s3_yields (forbid : call -> bool) (bucket_name file_path key : string) :
  forbid (S3_upload_file file_path bucket_name key "text/html") = false ->
  yields (avoids forbid) never_exits (Create.upload_to_s3 bucket_name file_path key).
Proof. intros H. unfold Create.upload_to_s3. footprint. Qed.

Transparent Create.publish_and_summarise.

Lemma publish_and_summarise_yields (forbid : call -> bool) :
  (forall name, forbid (CF_describe_stacks name) = false) ->
  (forall f b k t, forbid (S3_upload_file f b k t) = false) ->
  yields (avoids forbid) never_exits Create.publish_and_summarise.
Proof.
  intros Hd Hu. unfold Create.publish_and_summarise.
  apply yields_bind with (R := never_exits);
    [footprint| |apply never_exits_stop].
  intros _ _.
  apply yields_bind with (R := never_exits);
    [apply get_stack_output_yields, Hd| |apply never_exits_stop].
  intros bucket _.
  apply yields_bind with (R := never_exits); [| |apply never_exits_stop].
  { destruct (truthy bucket); [|footprint].
    apply yields_bind with (R := never_exits);
      [apply upload_to_s3_yields, Hu| |apply never_exits_stop].
    intros [] _; footprint. }
  intros _ _.
  apply yields_bind with (R := never_exits);
    [footprint| |apply never_exits_stop].
  intros _ _.
  apply yields_bind with (R := never_exits);
    [apply get_stack_output_yields, Hd| |apply never_exits_stop].
  intros url _. destruct (truthy url); footprint.
Qed.

Opaque Create.publish_and_summarise.

Ltac wp_run :=
  cbn [wp bind print_section print print_info print_error print_success
       sys_exit raise negb create_step].

Lemma lookups_keep (s : create_stage) (ev : event) :
  s = Nothing \/ s = NetworkReady ->
  avoids (fun c => negb (is_lookup c)) ev -> create_step s ev = s.
Proof.
  intros Hs Hev. destruct ev as [l|c r]; [reflexivity|].
  unfold avoids in Hev. simpl in Hev.
  destruct Hs as [-> | ->]; simpl; now destruct (is_lookup c).
Qed.

Lemma publishing_keeps (ev : event) :
  avoids (fun c => negb (is_describe c || is_upload c)) ev -> create_step AppReady ev = AppReady.
Proof.
  intros Hev. destruct ev as [l|c r]; [reflexivity|].
  unfold avoids in Hev. simpl in *. now destruct (is_describe c || is_upload c).
Qed.

Lemma create_step_network (template : string) (params : parameters)
    (caps : list string) (tags : list (string * string))
    (r : reply (CF_create_stack Create.NETWORK_STACK_NAME template params caps tags)) :
  create_step Nothing (Called _ r) = if is_ok r then NetworkRequested else Halted.
Proof. reflexivity. Qed.

Lemma create_step_app (template : string) (params : parameters)
    (caps : list string) (tags : list (string * string))
    (r : reply (CF_create_stack Create.APP_STACK_NAME template params caps tags)) :
  create_step NetworkReady (Called _ r) = if is_ok r then AppRequested else Halted.
Proof. reflexivity. Qed.

Section Provision.
Variable Q : result unit -> create_stage -> Prop.
Hypothesis Hdone : Q (Done tt) AppReady.
Hypothesis Hstop :
  forall sg s, s <> Violated -> exits_only 1%Z (@Stop unit sg) -> Q (Stop sg) s.

Ltac halt :=
  apply Hstop;
  [ discriminate
  | first [ intros ? ?; congruence
          | eapply exits_only_stop; eassumption
          | apply never_exits_only; eapply never_exits_stop; eassumption ] ].

Ltac wp_lookup lemma :=
  apply wp_bind;
  eapply wp_yields with (allowed := avoids (fun c => negb (is_lookup c)))
                        (R := exits_only 1%Z);
  [ first [ apply lemma; reflexivity
          | apply yields_mono with (allowed := avoids (fun c => negb (is_lookup c)))
                                   (R := never_exits);
            [ auto | intros ?; apply never_exits_only | apply lemma; reflexivity ] ]
  | intros ev Hev; apply lookups_keep; [auto | exact Hev]
  | intros [?|?] ?; [wp_run | halt] ].

Ltac wp_wait target :=
  apply wp_bind; rewrite wait_for_stack_creation_shape;
  apply wp_wait_with with (ready := target) (halted := Halted);
  [ reflexivity | reflexivity | reflexivity | reflexivity
  | intros [e|[| |]]; reflexivity
  | wp_run
  | intros [[|]|?] ? ?; [congruence | split; wp_run; halt | split; halt] ].

Transparent Create.provision.

Lemma wp_provision : wp create_step Create.provision Q Nothing.
Proof.
  unfold Create.provision. wp_run.
  wp_lookup read_template_yields.
  wp_lookup read_parameters_yields.
  apply wp_bind, wp_create_stack. intros r. rewrite create_step_network.
  destruct r as [[m|m|m| |m]|id]; wp_run; try halt.
  wp_wait NetworkReady.
  wp_lookup display_stack_outputs_yields.
  wp_lookup read_template_yields.
  wp_lookup read_parameters_yields.
  apply wp_bind, wp_create_stack. intros r. rewrite create_step_app.
  destruct r as [[m|m|m| |m]|id']; wp_run; try halt.
  wp_wait AppReady.
  eapply wp_yields with (allowed := avoids (fun c => negb (is_describe c || is_upload c)))
                        (R := never_exits).
  - apply display_stack_outputs_yields. reflexivity.
  - apply publishing_keeps.
  - intros [[]|?] ?; [exact Hdone | halt].
Qed.

Opaque Create.provision.

End Provision.

Lemma wp_create_script :
  wp create_step Create.script
     (fun o s => s <> Violated /\
                 (o = Done tt -> s = AppReady) /\
                 (o = Done tt \/ o = Stop (SystemExit 1)))
     Nothing.
Proof.
  apply wp_toplevel; [reflexivity|].
  unfold Create.main. apply wp_bind.
  eapply wp_yields with (allowed := avoids (fun c => negb (is_lookup c)))
                        (R := exits_only 1%Z).
  { apply precheck_yields. reflexivity. }
  { intros ev Hev. apply lookups_keep; auto. }
  intros [[]|[e|n]] Ho.
  - apply wp_bind, wp_provision.
    + eapply wp_yields with
        (allowed := avoids (fun c => negb (is_describe c || is_upload c)))
        (R := never_exits).
      * apply publish_and_summarise_yields; reflexivity.
      * apply publishing_keeps.
      * intros [[]|[e|n]] Hn.
        -- repeat split; auto; discriminate.
        -- repeat split; auto; discriminate.
        -- now destruct (Hn n).
    + intros [e|n] s Hs He.
      * repeat split; auto; discriminate.
      * rewrite (He n eq_refl). repeat split; auto; discriminate.
  - repeat split; auto; discriminate.
  - rewrite (Ho n eq_refl). repeat split; auto; discriminate.
Qed.

(** Whatever the services answer, the trace of a create run respects the
    order of [create_step]: the network stack is requested first, the
    application stack only after a poll found the network stack in its
    terminal success state, the upload only after a poll found the
    application stack ready, and once a request is rejected or a wait fails
    no later stage runs.  A run that exits with code 0 has brought both
    stacks to terminal success, and every other run exits with code 1. *)
Lemma create_run_is_accepted {W : Type} (E : env W) (w : W) :
  observe create_step Nothing (trace (exec E Create.script w)) <> Violated /\
  (exit_code (outcome (exec E Create.script w)) = 0%Z ->
   observe create_step Nothing (trace (exec E Create.script w)) = AppReady) /\
  (exit_code (outcome (exec E Create.script w)) = 0%Z \/
   exit_code (outcome (exec E Create.script w)) = 1%Z).
Proof.
  destruct (wp_sound create_step E Create.script _ Nothing w wp_create_script)
    as (Hv & Hready & Hout).
  split; [exact Hv|]. split.
  - intros Hexit. apply Hready.
    destruct Hout as [Ho|Ho]; [exact Ho|]. rewrite Ho in Hexit. discriminate.
  - destruct Hout as [-> | ->]; auto.
Qed.

Example cooperative_create_succeeds :
  exit_code (outcome (exec cooperative Create.script 0)) = 0%Z /\
  observe create_step Nothing (trace (exec cooperative Create.script 0)) = AppReady /\
  count_calls is_create (trace (exec cooperative Create.script 0)) = 2 /\
  count_calls is_upload (trace (exec cooperative Create.script 0)) = 1.
Proof. vm_compute. repeat split. Qed.

Example rejected_create_exits_1 :
  exit_code (outcome (exec rejects_creation Create.script 0)) = 1%Z /\
  observe create_step Nothing (trace (exec rejects_creation Create.script 0)) = Halted /\
  count_calls is_create (trace (exec rejects_creation Create.script 0)) = 1 /\
  count_calls is_poll (trace (exec rejects_creation Create.script 0)) = 0.
Proof. vm_compute. repeat split. Qed.

(** ** The delete flow empties before it deletes *)

Lemma before_deletion_step (b : string) (s : delete_stage) (ev : event) :
  before_deletion (delete_step b s ev) ->
  before_deletion s /\ on_call is_delete_stack ev = false.
Proof.
  unfold before_deletion.
  destruct ev as [l|c r]; [simpl; tauto|].
  destruct s, c; simpl;
    repeat match goal with
           | |- context [if ?x then _ else _] => destruct x
           end;
    unfold polled;
    repeat match goal with
           | |- context [match ?x with _ => _ end] => destruct x
           end;
    intuition discriminate.
Qed.

Lemma before_deletion_observe (b : string) (t : list event) (s : delete_stage) :
  before_deletion (observe (delete_step b) s t) ->
  before_deletion s /\ issued is_delete_stack t = false.
Proof.
  revert s. induction t as [|ev t IH]; intros s H; simpl in *; [auto|].
  destruct (IH _ H) as [Hs Ht].
  destruct (before_deletion_step b s ev Hs) as [Hs' Hev].
  split; [exact Hs'|]. unfold issued in *. simpl.
  unfold on_call in Hev. destruct ev; [exact Ht|]. now rewrite Hev.
Qed.

Lemma delete_step_objects (b : string) (r : reply (S3_delete_objects b)) :
  delete_step b ToEmpty (Called _ r) =
  if is_ok r then ObjectsDeleted else if is_missing r then Emptied else EmptyFailed.
Proof. simpl. now rewrite String.eqb_refl. Qed.

Lemma delete_step_versions (b : string) (r : reply (S3_delete_object_versions b)) :
  delete_step b ObjectsDeleted (Called _ r) =
  if is_ok r || is_missing r then Emptied else EmptyFailed.
Proof. simpl. now rewrite String.eqb_refl. Qed.

Lemma wp_empty_s3_bucket (b : string) (Q : result bool -> delete_stage -> Prop) :
  Q (Done true) Emptied ->
  Q (Done false) EmptyFailed ->
  (forall e, Q (Stop (Exc e)) EmptyFailed) ->
  wp (delete_step b) (Delete.empty_s3_bucket b) Q ToEmpty.
Proof.
  intros Hok Hfail Hexc. unfold Delete.empty_s3_bucket.
  cbn [wp bind try_except print_info perform].
  intros r1. rewrite delete_step_objects.
  destruct r1 as [[m|m|m| |m]|[]]; cbn [is_ok is_missing bind try_except wp]; auto.
  - destruct (py_in "NoSuchBucket" m); cbn [wp bind print_info print_error]; auto.
  - intros r2. rewrite delete_step_versions.
    destruct r2 as [[m|m|m| |m]|[]];
      cbn [is_ok is_missing orb bind try_except wp print_success]; auto.
    destruct (py_in "NoSuchBucket" m); cbn [wp bind print_info print_error]; auto.
Qed.

Lemma wp_delete_stack (b name : string) (Q : result bool -> delete_stage -> Prop)
    (s : delete_stage) :
  (forall r,
      Q (match r with
         | inr _ => Done true
         | inl (ClientError _) => Done false
         | inl e => Stop (Exc e)
         end)
        (delete_step b s (Called (CF_delete_stack name) r))) ->
  wp (delete_step b) (Delete.delete_stack name) Q s.
Proof.
  intros H. unfold Delete.delete_stack. simpl.
  intros r. specialize (H r). destruct r as [[]|[]]; simpl; exact H.
Qed.

Section Teardown.
Variable b : string.
Variable Q : result unit -> delete_stage -> Prop.
Hypothesis Hbucket : b <> "".
Hypothesis Hdone : Q (Done tt) NetworkGone.
Hypothesis Hstop :
  forall sg s, s <> Broken -> s <> NetworkGone ->
               exits_only 1%Z (@Stop unit sg) -> Q (Stop sg) s.

Ltac stop :=
  apply Hstop;
  [ discriminate | discriminate
  | first [ intros ? ?; congruence
          | apply never_exits_only; eapply never_exits_stop; eassumption ] ].

Ltac run :=
  cbn [wp bind print_section print print_info print_error print_success
       sys_exit raise negb].

Ltac wait_gone target :=
  apply wp_bind; rewrite wait_for_stack_deletion_shape;
  apply wp_wait_with with (ready := target) (halted := Stopped);
  [ reflexivity | reflexivity | reflexivity | reflexivity
  | intros [e|[| |]]; reflexivity
  | run
  | intros [[|]|?] ? ?; [congruence | split; run; stop | split; stop] ].

Lemma wp_after_resolution : wp (delete_step b) (after_resolution b) Q ToEmpty.
Proof.
  unfold after_resolution, Delete.empty_or_exit.
  destruct b as [|a rest]; [contradiction|]. cbn [truthy default].
  apply wp_bind, wp_bind, wp_empty_s3_bucket; run; try stop;
    [|intros e; stop].
  unfold Delete.delete_app_step. run.
  apply wp_bind, wp_bind, wp_delete_stack. intros r.
  destruct r as [[m|m|m| |m]|[]]; run; try stop.
  change (delete_step (String a rest) Emptied (Called (CF_delete_stack Delete.APP_STACK_NAME) (inr tt)))
    with AppDeleting.
  wait_gone AppGone.
  unfold Delete.delete_network_step. run.
  apply wp_bind, wp_bind, wp_delete_stack. intros r.
  destruct r as [[m|m|m| |m]|[]]; run; try stop.
  change (delete_step (String a rest) AppGone (Called (CF_delete_stack Delete.NETWORK_STACK_NAME) (inr tt)))
    with NetworkDeleting.
  wait_gone NetworkGone.
  unfold Delete.summary. run. exact Hdone.
Qed.

End Teardown.

Lemma calls_app (t1 t2 : list event) : calls (t1 ++ t2) = calls t1 ++ calls t2.
Proof. apply List.filter_app. Qed.

Lemma observe_app {S : Type} (step : S -> event -> S) (s : S) (t1 t2 : list event) :
  observe step s (t1 ++ t2) = observe step (observe step s t1) t2.
Proof. apply fold_left_app. Qed.

(** A monitor that ignores printing reads only the calls of a trace. *)
Lemma observe_calls {S : Type} (step : S -> event -> S) (t : list event) (s : S) :
  (forall s' l, step s' (Printed l) = s') ->
  observe step s t = observe step s (calls t).
Proof.
  intros Hprint. revert s. induction t as [|[l|c r] t IH]; intros s; simpl; auto.
  rewrite Hprint. apply IH.
Qed.

Lemma at_toplevel_prepend {W : Type} (t : list event) (r : run W unit) :
  at_toplevel (prepend t r) = prepend t (at_toplevel r).
Proof.
  unfold at_toplevel, prepend. destruct r as [tr [[]|[e|n]] w]; simpl; try reflexivity.
  now rewrite app_assoc.
Qed.

Lemma trace_at_toplevel {W : Type} (r : run W unit) :
  exists tail, trace (at_toplevel r) = trace r ++ tail.
Proof.
  unfold at_toplevel. destruct r as [tr [[]|[e|n]] w]; simpl; eauto;
    exists []; now rewrite app_nil_r.
Qed.

Lemma trace_andthen {W A B : Type} (r : run W A) (k : A -> W -> run W B) :
  exists tail, trace (andthen r k) = trace r ++ tail.
Proof.
  unfold andthen. destruct r as [tr [a|sg] w]; simpl; eauto.
  exists []; now rewrite app_nil_r.
Qed.

Lemma delete_stack_exists_present {W : Type} (E : env W) (w w' : W) (name : string)
    (r : reply (CF_describe_stacks name)) :
  answers E w (CF_describe_stacks name) r w' ->
  present r ->
  exec E (Delete.stack_exists name) w = Run [Called (CF_describe_stacks name) r] (Done true) w'.
Proof.
  unfold answers, Delete.stack_exists. intros H Hp. simpl. rewrite H. simpl.
  destruct r as [e|[|s rest]]; simpl in Hp; try contradiction; simpl.
  destruct (String.eqb_spec (StackStatus s) "DELETE_COMPLETE"); [contradiction|reflexivity].
Qed.

Section BothPresent.
Context {W : Type} (E : env W) (w0 w1 w2 w3 w4 : W) (answer : string).
Context (r_app : reply (CF_describe_stacks Delete.APP_STACK_NAME)).
Context (r_net : reply (CF_describe_stacks Delete.NETWORK_STACK_NAME)).
Context (s : stack) (rest : list stack) (b : string).
Hypothesis Hin : answers E w0 (Input confirmation_prompt) (inr answer) w1.
Hypothesis Hyes : Delete.accepted answer = true.
Hypothesis Happ : answers E w1 (CF_describe_stacks Delete.APP_STACK_NAME) r_app w2.
Hypothesis Happ_present : present r_app.
Hypothesis Hnet : answers E w2 (CF_describe_stacks Delete.NETWORK_STACK_NAME) r_net w3.
Hypothesis Hnet_present : present r_net.
Hypothesis Hout : answers E w3 (CF_describe_stacks Delete.APP_STACK_NAME) (inr (s :: rest)) w4.
Hypothesis Hbucket : scan_outputs (default [] (Outputs s)) "S3BucketName" = Some b.

Lemma delete_main_found :
  exists pre,
    exec E Delete.main w0 = prepend pre (exec E (Delete.teardown true true) w3) /\
    calls pre = firstn 3 (checks answer r_app r_net s rest).
Proof.
  exists (firstn 12 (trace (exec E Delete.main w0))).
  pose proof Hin as Hin'. pose proof Happ as Happ'. pose proof Hnet as Hnet'.
  unfold answers, confirmation_prompt in Hin', Happ', Hnet'.
  unfold checks, Delete.main, Delete.confirm_deletion, Delete.stack_exists,
    confirmation_prompt.
  simpl. rewrite Hin'. simpl. rewrite Hyes. simpl. rewrite Happ'. simpl.
  destruct r_app as [e|[|s1 rest1]]; simpl in Happ_present; try contradiction.
  simpl.
  destruct (String.eqb_spec (StackStatus s1) "DELETE_COMPLETE"); [contradiction|].
  simpl. rewrite Hnet'. simpl.
  destruct r_net as [e|[|s2 rest2]]; simpl in Hnet_present; try contradiction.
  simpl.
  destruct (String.eqb_spec (StackStatus s2) "DELETE_COMPLETE"); [contradiction|].
  simpl. split; reflexivity.
Qed.

Opaque Delete.empty_or_exit.

Lemma empty_bucket_step_resolved :
  exists pre,
    exec E (Delete.empty_bucket_step true) w3 =
      prepend pre (exec E (Delete.empty_or_exit (Some b)) w4) /\
    calls pre = skipn 3 (checks answer r_app r_net s rest).
Proof.
  exists (firstn 4 (trace (exec E (Delete.empty_bucket_step true) w3))).
  pose proof Hout as Hout'. unfold answers in Hout'.
  unfold checks, Delete.empty_bucket_step, get_stack_output.
  simpl. rewrite Hout'. simpl. rewrite Hbucket. split; reflexivity.
Qed.

Transparent Delete.empty_or_exit Delete.teardown.

Lemma andthen_prepend {A B : Type} (t : list event) (r : run W A) (k : A -> W -> run W B) :
  andthen (prepend t r) k = prepend t (andthen r k).
Proof.
  unfold andthen, prepend. destruct r as [tr [a|sg] w]; simpl; [|reflexivity].
  now rewrite app_assoc.
Qed.

Lemma delete_script_resolved :
  exists pre,
    exec E Delete.script w0 = prepend pre (exec E (toplevel (after_resolution b)) w4) /\
    calls pre = checks answer r_app r_net s rest.
Proof.
  destruct delete_main_found as (pre1 & Hmain & Hcalls1).
  destruct empty_bucket_step_resolved as (pre2 & Hstep & Hcalls2).
  exists (pre1 ++ pre2). split.
  - unfold Delete.script. rewrite !exec_toplevel, Hmain.
    unfold Delete.teardown, after_resolution.
    rewrite (exec_bind E (Delete.empty_bucket_step true)), Hstep, andthen_prepend,
      prepend_prepend, at_toplevel_prepend.
    now rewrite (exec_bind E (Delete.empty_or_exit (Some b))).
  - rewrite calls_app, Hcalls1, Hcalls2. reflexivity.
Qed.

Opaque Delete.teardown.

End BothPresent.

Lemma emptying_comes_first {W : Type} (E : env W) (w4 : W) (b : string) :
  b <> "" ->
  exists tail,
    calls (trace (exec E (toplevel (after_resolution b)) w4)) =
    Called (S3_delete_objects b) (reply_in E w4 (S3_delete_objects b)) :: tail.
Proof.
  intros Hnonempty. rewrite exec_toplevel.
  destruct (trace_at_toplevel (exec E (after_resolution b) w4)) as (t3 & ->).
  unfold after_resolution. rewrite exec_bind.
  destruct (trace_andthen (exec E (Delete.empty_or_exit (Some b)) w4)
              (fun _ w' => exec E (do _ <- Delete.delete_app_step true;
                                   do _ <- Delete.delete_network_step true;
                                   Delete.summary) w')) as (t2 & ->).
  unfold Delete.empty_or_exit.
  destruct b as [|a rest']; [contradiction|]. cbn [truthy default].
  rewrite exec_bind.
  match goal with
  | |- context [andthen ?r ?k] => destruct (trace_andthen r k) as (t1 & ->)
  end.
  unfold Delete.empty_s3_bucket, reply_in. simpl. eauto.
Qed.

Lemma wp_resolved_script (b : string) :
  b <> "" ->
  wp (delete_step b) (toplevel (after_resolution b))
     (fun o s => s <> Broken /\
                 (o = Done tt <-> s = NetworkGone) /\
                 (o = Done tt \/ o = Stop (SystemExit 1)))
     ToEmpty.
Proof.
  intros Hb. apply wp_toplevel; [reflexivity|].
  apply wp_after_resolution; [exact Hb | |].
  - repeat split; auto; discriminate.
  - intros [e|n] s Hs Hn He.
    + repeat split; auto; try discriminate. intros ->; contradiction.
    + rewrite (He n eq_refl). repeat split; auto; try discriminate.
      intros ->; contradiction.
Qed.

(** A delete run that is confirmed, finds both stacks and reads the bucket
    name [b] from the outputs of the application stack calls the deletion of
    the objects of [b] first, before any other mutation, and keeps the order
    of [delete_step]: objects, then versions, then the application stack and
    the wait for it, then the network stack and the wait for it.  It exits
    with code 0 exactly when the network stack was found gone at the end of
    that sequence, and with code 1 otherwise; when an emptying call fails,
    the run exits with code 1 and the trace holds no request to delete a
    stack. *)
Lemma delete_run_is_accepted {W : Type} (E : env W) (w0 w1 w2 w3 w4 : W)
    (answer : string)
    (r_app : reply (CF_describe_stacks Delete.APP_STACK_NAME))
    (r_net : reply (CF_describe_stacks Delete.NETWORK_STACK_NAME))
    (s : stack) (rest : list stack) (b : string) :
  answers E w0 (Input confirmation_prompt) (inr answer) w1 ->
  Delete.accepted answer = true ->
  answers E w1 (CF_describe_stacks Delete.APP_STACK_NAME) r_app w2 ->
  present r_app ->
  answers E w2 (CF_describe_stacks Delete.NETWORK_STACK_NAME) r_net w3 ->
  present r_net ->
  answers E w3 (CF_describe_stacks Delete.APP_STACK_NAME) (inr (s :: rest)) w4 ->
  scan_outputs (default [] (Outputs s)) "S3BucketName" = Some b ->
  b <> "" ->
  (exists tail,
      calls (trace (exec E Delete.script w0)) =
      checks answer r_app r_net s rest ++
      Called (S3_delete_objects b) (reply_in E w4 (S3_delete_objects b)) :: tail) /\
  observe (delete_step b) ToEmpty (trace (exec E Delete.script w0)) <> Broken /\
  (exit_code (outcome (exec E Delete.script w0)) = 0%Z <->
   observe (delete_step b) ToEmpty (trace (exec E Delete.script w0)) = NetworkGone) /\
  (exit_code (outcome (exec E Delete.script w0)) = 0%Z \/
   exit_code (outcome (exec E Delete.script w0)) = 1%Z) /\
  (observe (delete_step b) ToEmpty (trace (exec E Delete.script w0)) = EmptyFailed ->
   exit_code (outcome (exec E Delete.script w0)) = 1%Z /\
   issued is_delete_stack (trace (exec E Delete.script w0)) = false).
Proof.
  intros Hin Hyes Happ Happ_present Hnet Hnet_present Hout Hbucket Hnonempty.
  destruct (delete_script_resolved E w0 w1 w2 w3 w4 answer r_app r_net s rest b
              Hin Hyes Happ Happ_present Hnet Hnet_present Hout Hbucket)
    as (pre & Hrun & Hcalls).
  destruct (emptying_comes_first E w4 b Hnonempty) as (tail & Hfirst).
  pose proof (wp_sound (delete_step b) E _ _ ToEmpty w4 (wp_resolved_script b Hnonempty))
    as (Hbroken & Hzero & Hcode).
  assert (Hpre : observe (delete_step b) ToEmpty pre = ToEmpty).
  { rewrite observe_calls by reflexivity. rewrite Hcalls. reflexivity. }
  rewrite Hrun. unfold prepend at 1 2 3 4 5 6 7 8. cbn [trace outcome].
  rewrite observe_app, Hpre, calls_app, Hcalls, Hfirst.
  set (r := exec E (toplevel (after_resolution b)) w4) in *.
  set (m := observe (delete_step b) ToEmpty (trace r)) in *.
  assert (Hexit : exit_code (outcome r) = 0%Z <-> m = NetworkGone).
  { rewrite <- Hzero. destruct Hcode as [-> | ->]; split; auto; discriminate. }
  split; [eauto|]. split; [exact Hbroken|]. split; [exact Hexit|]. split.
  - destruct Hcode as [-> | ->]; auto.
  - intros Hm. split.
    + destruct Hcode as [Ho|Ho]; [|now rewrite Ho].
      apply Hzero in Ho. rewrite Ho in Hm. discriminate.
    + unfold prepend. cbn [trace]. rewrite issued_app. apply orb_false_iff. split.
      * apply avoids_issued. apply List.Forall_forall. intros ev Hev.
        assert (Hin' : In ev (calls pre) \/ is_call ev = false).
        { destruct (is_call ev) eqn:Hc; [left|now right].
          apply List.filter_In. auto. }
        destruct Hin' as [Hin'|Hin'].
        -- rewrite Hcalls in Hin'. unfold checks in Hin'. simpl in Hin'.
           destruct Hin' as [<-|[<-|[<-|[<-|[]]]]]; reflexivity.
        -- destruct ev; [reflexivity|discriminate].
      * apply (before_deletion_observe b (trace r) ToEmpty).
        fold m. rewrite Hm. unfold before_deletion. auto.
Qed.

Example both_stacks_deleted :
  exit_code (outcome (exec both_stacks_up Delete.script 0)) = 0%Z /\
  observe (delete_step "udagram-bucket") ToEmpty
    (trace (exec both_stacks_up Delete.script 0)) = NetworkGone /\
  map (fun ev => match ev with Called c _ => is_mutation c | Printed _ => false end)
      (calls (trace (exec both_stacks_up Delete.script 0))) =
    [false; false; false; false; true; true; true; false; true; false].
Proof. vm_compute. repeat split. Qed.

Example failed_emptying_stops_the_run :
  exit_code (outcome (exec versions_denied Delete.script 0)) = 1%Z /\
  observe (delete_step "udagram-bucket") ToEmpty
    (trace (exec versions_denied Delete.script 0)) = EmptyFailed /\
  issued is_delete_stack (trace (exec versions_denied Delete.script 0)) = false.
Proof. vm_compute. repeat split. Qed.

(** ** An upload failure that the helper catches *)

Lemma create_stack_yields (forbid : call -> bool) (name template : string)
    (params : parameters) :
  (forall t p caps tags, forbid (CF_create_stack name t p caps tags) = false) ->
  yields (avoids forbid) never_exits (Create.create_stack name template params).
Proof.
  intros H. unfold Create.create_stack. footprint.
Qed.

Lemma waiter_loop_yields (forbid : call -> bool) (k : waiter) (name : string)
    (delay n : nat) :
  forbid (CF_waiter_poll k name) = false ->
  forbid (Sleep delay) = false ->
  yields (avoids forbid) never_exits (waiter_loop k name delay n).
Proof.
  intros Hp Hs. induction n as [|n IH].
  - intros ? ?; discriminate.
  - rewrite waiter_loop_S. simpl.
    intros [e|[| |]]; simpl; (split; [exact Hp|]); try (intros ? ?; discriminate).
    destruct n as [|n]; simpl; [intros ? ?; discriminate|].
    intros [e|[]]; simpl; (split; [exact Hs|]); [intros ? ?; discriminate|exact IH].
Qed.

Lemma wait_with_yields (forbid : call -> bool) (k : waiter)
    (name announce done_msg failed_msg : string) :
  forbid (CF_waiter_poll k name) = false ->
  forbid (Sleep 30) = false ->
  forbid (CF_describe_stack_events name) = false ->
  yields (avoids forbid) never_exits (wait_with k name announce done_msg failed_msg).
Proof.
  intros Hp Hs He. unfold wait_with, waiter_wait.
  cbn [bind yields print_info]. split; [reflexivity|]. split; [reflexivity|].
  apply yields_try_except with (R := never_exits).
  - apply yields_bind with (R := never_exits).
    + now apply waiter_loop_yields.
    + intros _ _. simpl. split; [reflexivity|]. intros ? ?; discriminate.
    + apply never_exits_stop.
  - intros e _. destruct e as [m|m|m| |m]; try (intros ? ?; discriminate).
    cbn [bind yields print_error]. split; [reflexivity|].
    apply yields_bind with (R := never_exits).
    + now apply dump_stack_events_yields.
    + intros _ _. intros ? ?; discriminate.
    + apply never_exits_stop.
  - auto.
  - auto.
Qed.

Transparent Create.provision.

Lemma provision_yields (forbid : call -> bool) :
  (forall c, is_upload c = false -> forbid c = false) ->
  yields (avoids forbid) (exits_only 1%Z) Create.provision.
Proof.
  intros H.
  assert (Hgate : forall (ok : bool) (msg : string),
             yields (avoids forbid) (exits_only 1%Z)
               (if negb ok then do _ <- print_error msg; sys_exit 1 else Ret tt)).
  { intros [|] msg; simpl; [intros ? ?; discriminate|].
    split; [reflexivity|]. intros ? [= <-]. reflexivity. }
  assert (Hheader : forall msg,
             yields (avoids forbid) (exits_only 1%Z) (print_section msg)).
  { intros msg. apply print_section_yields. intros ? ?; discriminate. }
  assert (Hquiet : forall A (p : prog A),
             yields (avoids forbid) never_exits p ->
             yields (avoids forbid) (exits_only 1%Z) p).
  { intros A p Hp. eapply yields_mono; [| |exact Hp]; auto.
    intros o. apply never_exits_only. }
  unfold Create.provision.
  repeat first
    [ apply Hgate
    | apply Hheader
    | apply read_template_yields, H; reflexivity
    | apply read_parameters_yields, H; reflexivity
    | apply Hquiet, create_stack_yields; intros; apply H; reflexivity
    | apply Hquiet, display_stack_outputs_yields, H; reflexivity
    | rewrite wait_for_stack_creation_shape;
      apply Hquiet, wait_with_yields; apply H; reflexivity
    | apply yields_bind with (R := exits_only 1%Z); [ | intros ? _ | apply exits_only_stop] ].
Qed.

Opaque Create.provision.

Transparent Create.publish_and_summarise.

Ltac split_replies E :=
  repeat (simpl;
          match goal with
          | |- context [respond E ?c ?w] =>
              let e := fresh "e" in
              let v := fresh "v" in
              let w' := fresh "w" in
              destruct (respond E c w) as [[e|v] w']; [destruct e|]
          | v : value (CF_describe_stacks _) |- _ => destruct v as [|? ?]
          | v : value (S3_upload_file _ _ _ _) |- _ => destruct v
          | |- context [scan_outputs ?l ?k] =>
              destruct (scan_outputs l k) as [[|? ?]|]
          end).

Lemma publish_upload_failure {W : Type} (E : env W) (w : W) :
  existsb upload_failure_caught (trace (exec E Create.publish_and_summarise w)) = true ->
  (exists before bucket_name e after,
      trace (exec E Create.publish_and_summarise w) =
      before ++ aftermath bucket_name e ++ after) /\
  (forallb well_described (trace (exec E Create.publish_and_summarise w)) = true ->
   outcome (exec E Create.publish_and_summarise w) = Done tt).
Proof.
  unfold Create.publish_and_summarise, get_stack_output, Create.upload_to_s3.
  split_replies E; simpl; intros Hfailed; try discriminate Hfailed;
    (split;
     [ match goal with
       | |- exists _ _ _ _,
             ?e1 :: ?e2 :: ?e3 :: ?e4 :: ?e5 ::
             Called (S3_upload_file _ ?bk _ _) (inl ?ex) :: _ = _ =>
           exists [e1; e2; e3; e4; e5], bk, ex
       end;
       eexists; reflexivity
     | intros Hd; first [reflexivity | discriminate Hd] ]).
Qed.

Opaque Create.publish_and_summarise.

Lemma no_upload_no_failure (t : list event) :
  Forall (avoids is_upload) t -> existsb upload_failure_caught t = false.
Proof.
  induction 1 as [|ev t Hev _ IH]; simpl; [reflexivity|].
  rewrite IH, orb_false_r. unfold avoids in Hev.
  destruct ev as [l|c r]; [reflexivity|]. simpl in Hev.
  destruct c; try discriminate; reflexivity.
Qed.

(** A create run either makes no upload call at all, or consists of calls
    that are not uploads followed by the last block of [main]. *)
Lemma create_script_reaches_publish {W : Type} (E : env W) (w : W) :
  Forall (avoids is_upload) (trace (exec E Create.script w)) \/
  exists pre w2,
    Forall (avoids is_upload) pre /\
    exec E Create.script w =
      prepend pre (at_toplevel (exec E Create.publish_and_summarise w2)).
Proof.
  unfold Create.script, Create.main.
  rewrite exec_toplevel, exec_bind.
  destruct (yields_sound (avoids is_upload) (exits_only 1%Z) Create.precheck E w
              (precheck_yields is_upload (fun _ => eq_refl))) as [Hfree1 _].
  destruct (exec E Create.precheck w) as [t1 [[]|sg1] w1]; cbn [trace] in Hfree1.
  2:{ left. unfold andthen, at_toplevel; cbn [outcome trace final].
      destruct sg1 as [e|n]; cbn [trace]; auto.
      apply Forall_app; split; auto. repeat constructor. }
  unfold andthen; cbn [outcome trace final]. rewrite exec_bind.
  destruct (yields_sound (avoids is_upload) (exits_only 1%Z) Create.provision E w1
              (provision_yields is_upload (fun _ H => H))) as [Hfree2 _].
  destruct (exec E Create.provision w1) as [t2 [[]|sg2] w2]; cbn [trace] in Hfree2.
  2:{ left. unfold andthen, at_toplevel, prepend; cbn [outcome trace final].
      destruct sg2 as [e|n]; cbn [trace]; repeat (apply Forall_app; split); auto.
      repeat constructor. }
  right. exists (t1 ++ t2), w2. split; [apply Forall_app; auto|].
  unfold andthen; cbn [outcome trace final].
  now rewrite prepend_prepend, at_toplevel_prepend.
Qed.

(** An upload failure that [upload_to_s3] catches is not fatal.  In every
    run of the create flow in which the upload call raises FileNotFoundError
    or ClientError, the trace continues after the failed call with the error
    report, the advice to upload manually and the header of the final
    summary; and when the describe calls of the run answer as documented,
    the run exits with code 0. *)
Lemma caught_upload_failure_is_not_fatal {W : Type} (E : env W) (w : W) :
  existsb upload_failure_caught (trace (exec E Create.script w)) = true ->
  (exists before bucket_name e after,
      trace (exec E Create.script w) = before ++ aftermath bucket_name e ++ after) /\
  (forallb well_described (trace (exec E Create.script w)) = true ->
   exit_code (outcome (exec E Create.script w)) = 0%Z).
Proof.
  destruct (create_script_reaches_publish E w) as [Hfree|(pre & w2 & Hfree & ->)].
  { intros Hfailed. rewrite (no_upload_no_failure _ Hfree) in Hfailed. discriminate. }
  pose proof (publish_upload_failure E w2) as Hpub.
  destruct (trace_at_toplevel (exec E Create.publish_and_summarise w2)) as (tail & Htail).
  assert (Hquiet : existsb upload_failure_caught tail = false).
  { revert Htail. unfold at_toplevel.
    destruct (exec E Create.publish_and_summarise w2) as [tp [[]|[e|n]] wp];
      cbn [trace outcome final]; intros Htail.
    - rewrite <- (app_nil_r tp) in Htail at 1. apply app_inv_head in Htail. now subst.
    - apply app_inv_head in Htail. now subst.
    - rewrite <- (app_nil_r tp) in Htail at 1. apply app_inv_head in Htail. now subst. }
  unfold prepend. cbn [trace outcome]. rewrite exit_code_at_toplevel, Htail.
  rewrite !existsb_app, (no_upload_no_failure pre Hfree), Hquiet, orb_false_r.
  cbn [orb]. intros Hfailed.
  destruct (Hpub Hfailed) as ((before & bucket & e & after & Htrace) & Hexit).
  split.
  - exists (pre ++ before), bucket, e, (after ++ tail).
    rewrite Htrace. now rewrite <- !app_assoc.
  - rewrite !forallb_app. intros Hd.
    apply andb_true_iff in Hd. destruct Hd as [_ Hd].
    apply andb_true_iff in Hd. destruct Hd as [Hd _].
    now rewrite (Hexit Hd).
Qed.

Example missing_static_file_is_not_fatal :
  existsb upload_failure_caught (trace (exec static_file_missing Create.script 0)) = true /\
  exit_code (outcome (exec static_file_missing Create.script 0)) = 0%Z.
Proof. vm_compute. split; reflexivity. Qed.

Example unexpected_error_after_failed_upload :
  existsb upload_failure_caught (trace (exec summary_lookup_breaks Create.script 0)) = true /\
  forallb well_described (trace (exec summary_lookup_breaks Create.script 0)) = false /\
  exit_code (outcome (exec summary_lookup_breaks Create.script 0)) = 1%Z.
Proof. vm_compute. repeat split. Qed.

(** * Further properties *)

(** ** Text *)

Lemma append_nil (s : string) : "" +:+ s = s.
Proof. reflexivity. Qed.

Lemma append_cons (c : ascii) (a b : string) : String c a +:+ b = String c (a +:+ b).
Proof. reflexivity. Qed.

Ltac text := rewrite ?append_nil, ?append_cons; simpl; rewrite ?append_nil, ?append_cons.

Lemma prefix_append (needle hay : string) :
  String.prefix needle hay = true <-> exists after, hay = needle +:+ after.
Proof.
  revert hay. induction needle as [|c needle IH]; intros hay.
  - split; [intros _; now exists hay | intros _; now destruct hay].
  - destruct hay as [|c' hay]; simpl.
    + split; [discriminate | intros [after H]; discriminate H].
    + destruct (ascii_dec c c') as [->|Hne].
      * rewrite IH. split; intros [after H]; exists after; [now rewrite H | now injection H].
      * split; [discriminate | intros [after H]; injection H as H1 H2; congruence].
Qed.

Lemma py_in_nil (needle : string) : py_in needle "" = String.prefix needle "".
Proof. now destruct needle. Qed.

Lemma py_in_cons (needle : string) (c : ascii) (hay : string) :
  py_in needle (String c hay) = String.prefix needle (String c hay) || py_in needle hay.
Proof. reflexivity. Qed.

Lemma py_in_occurs (needle hay : string) :
  py_in needle hay = true <-> occurs_in needle hay.
Proof.
  unfold occurs_in. induction hay as [|c hay IH].
  - rewrite py_in_nil, prefix_append. split.
    + intros [after H]. now exists "", after.
    + intros ([|c before] & after & H); [now exists after | discriminate H].
  - rewrite py_in_cons, orb_true_iff, prefix_append, IH. split.
    + intros [[after H] | (before & after & H)].
      * now exists "", after.
      * exists (String c before), after. now rewrite H.
    + intros ([|c' before] & after & H).
      * left. now exists after.
      * right. injection H as _ H. now exists before, after.
Qed.

Lemma isspace_lower_char (c : ascii) : isspace (lower_char c) = isspace c.
Proof. destruct c as [[] [] [] [] [] [] [] []]; reflexivity. Qed.

Lemma str_lstrip_space (s : string) : all_space s = true -> str_lstrip s = "".
Proof.
  induction s as [|c s IH]; simpl; [reflexivity|].
  intros H. apply andb_true_iff in H. destruct H as [-> Hs]. auto.
Qed.

Lemma str_rstrip_space (s : string) : all_space s = true -> str_rstrip s = "".
Proof.
  induction s as [|c s IH]; simpl; [reflexivity|].
  intros H. apply andb_true_iff in H. destruct H as [Hc Hs].
  now rewrite (IH Hs), Hc.
Qed.

Lemma str_rstrip_padded (s pad : string) :
  all_space pad = true -> str_rstrip (s +:+ pad) = str_rstrip s.
Proof.
  intros H. induction s as [|c s IH]; text.
  - now apply str_rstrip_space.
  - now rewrite IH.
Qed.

Lemma str_strip_padded (before s after : string) :
  all_space before = true -> all_space after = true ->
  str_strip (before +:+ s +:+ after) = str_strip s.
Proof.
  intros Hb Ha. unfold str_strip.
  induction before as [|c before IH]; text.
  - clear Hb. induction s as [|c s IH]; text.
    + now rewrite (str_lstrip_space after Ha).
    + destruct (isspace c); [exact IH|].
      rewrite <- append_cons. now apply str_rstrip_padded.
  - simpl in Hb. apply andb_true_iff in Hb. destruct Hb as [-> Hb]. auto.
Qed.

Lemma str_lstrip_splits (s : string) :
  exists before, s = before +:+ str_lstrip s /\ all_space before = true.
Proof.
  induction s as [|c s (before & Hs & Hb)]; simpl.
  - now exists "".
  - destruct (isspace c) eqn:Hc.
    + exists (String c before). text. rewrite Hc, Hb. split; [now rewrite <- Hs | reflexivity].
    + now exists "".
Qed.

Lemma str_rstrip_splits (s : string) :
  exists after, s = str_rstrip s +:+ after /\ all_space after = true.
Proof.
  induction s as [|c s (after & Hs & Ha)]; simpl.
  - now exists "".
  - destruct (str_rstrip s) as [|c' r] eqn:Hr.
    + rewrite append_nil in Hs. subst after. destruct (isspace c) eqn:Hc.
      * exists (String c s). text. now rewrite Hc, Ha.
      * now exists s.
    + exists after. split; [rewrite append_cons; now rewrite <- Hs | exact Ha].
Qed.

Lemma str_strip_splits (s : string) :
  exists before after,
    s = before +:+ str_strip s +:+ after /\
    all_space before = true /\ all_space after = true.
Proof.
  destruct (str_lstrip_splits s) as (before & Hs & Hb).
  destruct (str_rstrip_splits (str_lstrip s)) as (after & Hl & Ha).
  exists before, after. unfold str_strip. now rewrite <- Hl.
Qed.

Lemma str_lstrip_lower (s : string) : str_lstrip (str_lower s) = str_lower (str_lstrip s).
Proof.
  induction s as [|c s IH]; simpl; [reflexivity|].
  rewrite isspace_lower_char. now destruct (isspace c).
Qed.

Lemma str_rstrip_lower (s : string) : str_rstrip (str_lower s) = str_lower (str_rstrip s).
Proof.
  induction s as [|c s IH]; simpl; [reflexivity|].
  rewrite IH, isspace_lower_char.
  destruct (str_rstrip s); simpl; [now destruct (isspace c) | reflexivity].
Qed.

Lemma str_strip_lower (s : string) : str_strip (str_lower s) = str_lower (str_strip s).
Proof. unfold str_strip. now rewrite str_lstrip_lower, str_rstrip_lower. Qed.

(** X1. The confirmation is accepted exactly for the answers that are [yes]
    or [y] in any mix of upper and lower case, with any whitespace before
    and after and nothing else: no other text, and no whitespace inside the
    word, is accepted. *)
Theorem accepted_exactly_yes_or_y (answer : string) :
  Delete.accepted answer = true <->
  exists before word after,
    answer = before +:+ word +:+ after /\
    all_space before = true /\ all_space after = true /\
    (str_lower word = "yes" \/ str_lower word = "y").
Proof.
  unfold Delete.accepted. rewrite orb_true_iff, !String.eqb_eq, str_strip_lower. split.
  - intros H. destruct (str_strip_splits answer) as (before & after & Hs & Hb & Ha).
    now exists before, (str_strip answer), after.
  - intros (before & word & after & -> & Hb & Ha & H).
    rewrite (str_strip_padded before word after Hb Ha).
    rewrite <- str_strip_lower. destruct H as [-> | ->]; [left | right]; reflexivity.
Qed.

(** ** The existence checks *)

(** X2. [stack_exists] of create.py makes one describe call and has three
    outcomes: [True] when the call returns, [False] exactly when it raises a
    ClientError whose text contains the phrase "does not exist" somewhere,
    and otherwise the exception of the call, re-raised unchanged. *)
Theorem create_stack_exists_outcomes {W : Type} (E : env W) (w : W) (name : string) :
  let r := reply_in E w (CF_describe_stacks name) in
  let run := exec E (Create.stack_exists name) w in
  trace run = [Called (CF_describe_stacks name) r] /\
  final run = world_after E w (CF_describe_stacks name) /\
  (outcome run = Done false <-> reported_missing r) /\
  (forall e, outcome run = Stop (Exc e) <-> r = inl e /\ ~ reported_missing r) /\
  (forall n, outcome run <> Stop (SystemExit n)).
Proof.
  unfold Create.stack_exists, reply_in, world_after. simpl.
  destruct (respond E (CF_describe_stacks name) w) as [[e|v] w1]; simpl;
    [ destruct e as [m|m|m| |m]; simpl;
      [destruct (py_in "does not exist" m) eqn:Hin; simpl|..] |];
    repeat match goal with
           | |- _ /\ _ => split
           | |- _ <-> _ => split
           | |- forall _ : exn, _ => intro
           | |- forall _ : Z, _ => intro
           end;
    try reflexivity;
    solve [ discriminate
          | intros _; now apply py_in_occurs
          | intros H; apply py_in_occurs in H; congruence
          | intros [_ H]; destruct H; now apply py_in_occurs
          | intros [= <-]; split;
            [ reflexivity
            | first [ tauto | intros H; apply py_in_occurs in H; congruence ] ]
          | intros [[= <-] _]; reflexivity
          | intros [H _]; discriminate H
          | intros []
          | intros H; discriminate H ].
Qed.

Lemma precheck_passes {W : Type} (E : env W) (w : W) :
  outcome (exec E Create.precheck w) = Done tt ->
  reported_missing (reply_in E w (CF_describe_stacks Create.NETWORK_STACK_NAME)) /\
  reported_missing
    (reply_in E (world_after E w (CF_describe_stacks Create.NETWORK_STACK_NAME))
       (CF_describe_stacks Create.APP_STACK_NAME)).
Proof.
  unfold Create.precheck, Create.stack_exists, reply_in, world_after. simpl.
  destruct (respond E (CF_describe_stacks Create.NETWORK_STACK_NAME) w) as [[e1|v1] w1]; simpl;
    [destruct e1 as [m1|m1|m1| |m1]; simpl; try discriminate|discriminate].
  destruct (py_in "does not exist" m1) eqn:H1; simpl; [|discriminate].
  destruct (respond E (CF_describe_stacks Create.APP_STACK_NAME) w1) as [[e2|v2] w2]; simpl;
    [destruct e2 as [m2|m2|m2| |m2]; simpl; try discriminate|discriminate].
  destruct (py_in "does not exist" m2) eqn:H2; simpl; [|discriminate].
  intros _. split; now apply py_in_occurs.
Qed.

(** X3. The create run goes beyond its two existence checks only when both
    answered that the stack does not exist: if the run makes any call other
    than a describe call (a file read, a request, a poll, an upload), then
    the describe call for the network stack and the one for the application
    stack each raised a ClientError whose text contains "does not exist". *)
Theorem create_proceeds_only_when_both_missing {W : Type} (E : env W) (w : W) :
  issued (fun c => negb (is_describe c)) (trace (exec E Create.script w)) = true ->
  reported_missing (reply_in E w (CF_describe_stacks Create.NETWORK_STACK_NAME)) /\
  reported_missing
    (reply_in E (world_after E w (CF_describe_stacks Create.NETWORK_STACK_NAME))
       (CF_describe_stacks Create.APP_STACK_NAME)).
Proof.
  unfold Create.script, Create.main.
  rewrite exec_toplevel, issued_at_toplevel, exec_bind.
  pose proof (precheck_passes E w) as Hpass.
  destruct (yields_sound (avoids (fun c => negb (is_describe c))) (exits_only 1%Z)
              Create.precheck E w
              (precheck_yields (fun c => negb (is_describe c)) (fun _ => eq_refl)))
    as [Hquiet _].
  apply avoids_issued in Hquiet.
  destruct (exec E Create.precheck w) as [t [[]|sg] w1]; cbn [trace outcome] in *.
  - intros _. now apply Hpass.
  - unfold andthen; cbn [outcome trace]. rewrite Hquiet. discriminate.
Qed.

Lemma create_proceeds_only_when_both_missing_witness :
  reported_missing (reply_in cooperative 0 (CF_describe_stacks Create.NETWORK_STACK_NAME)) /\
  reported_missing
    (reply_in cooperative (world_after cooperative 0 (CF_describe_stacks Create.NETWORK_STACK_NAME))
       (CF_describe_stacks Create.APP_STACK_NAME)).
Proof.
  apply (create_proceeds_only_when_both_missing cooperative 0). vm_compute. reflexivity.
Defined.

(** ** The [__main__] block *)

(** X4. The [__main__] block lets no exception escape.  Whatever [main] does,
    the script run ends normally or by [sys.exit]; when [main] ends with an
    exception, the run is that of [main] followed by exactly one more line
    (the cancellation notice for KeyboardInterrupt, "Unexpected error: ..."
    with the text of the exception otherwise) and the exit status is 1; in
    every other case the run is the run of [main] unchanged. *)
Theorem toplevel_lets_no_exception_escape {W : Type} (E : env W) (main : prog unit) (w : W) :
  let r := exec E main w in
  let r' := exec E (toplevel main) w in
  final r' = final r /\
  (forall e, outcome r' <> Stop (Exc e)) /\
  (forall e, outcome r = Stop (Exc e) ->
     trace r' = trace r ++ [Printed (crash_report e)] /\
     outcome r' = Stop (SystemExit 1)) /\
  ((forall e, outcome r <> Stop (Exc e)) -> r' = r) /\
  crash_report KeyboardInterrupt =
    Plain (newline +:+ newline +:+ "Operation cancelled by user.") /\
  (forall e, e <> KeyboardInterrupt ->
     crash_report e = Error ("Unexpected error: " +:+ str_exn e)).
Proof.
  assert (Hreport : forall e, e <> KeyboardInterrupt ->
                      crash_report e = Error ("Unexpected error: " +:+ str_exn e)).
  { intros [] H; solve [reflexivity | now destruct H]. }
  cbv zeta. rewrite exec_toplevel. unfold at_toplevel.
  destruct (exec E main w) as [t [a|[e|n]] w']; cbn [trace outcome final];
    (split; [reflexivity|]); (split; [intros ?; discriminate|]);
    (split; [|split; [|split; [reflexivity | exact Hreport]]]);
    try (intros ? ?; discriminate); try reflexivity.
  - intros e' [= <-]. split; reflexivity.
  - intros H. now destruct (H e).
Qed.

(** ** What the scripts may call *)

Lemma toplevel_yields (forbid : call -> bool) (R : result unit -> Prop) (main : prog unit) :
  R (Stop (SystemExit 1)) ->
  yields (avoids forbid) R main ->
  yields (avoids forbid) R (toplevel main).
Proof.
  intros Hexit Hmain. unfold toplevel.
  apply yields_try_except with (R := R); auto.
  intros e _. destruct e; simpl; (split; [reflexivity | exact Hexit]).
Qed.

Lemma exits_only_1_stop {A : Type} : exits_only 1%Z (@Stop A (SystemExit 1)).
Proof. intros n [= <-]. reflexivity. Qed.

Lemma create_stack_emits (forbid : call -> bool) (name template : string)
    (params : parameters) :
  forbid (CF_create_stack name template params ["CAPABILITY_NAMED_IAM"]
            [("Project", "Udagram"); ("Environment", "Production")]) = false ->
  yields (avoids forbid) never_exits (Create.create_stack name template params).
Proof. intros H. unfold Create.create_stack. footprint. Qed.

Section CreateCalls.
Variable forbid : call -> bool.
Hypothesis Hallowed : forall c, create_may_call c = true -> forbid c = false.

Lemma precheck_emits : yields (avoids forbid) (exits_only 1%Z) Create.precheck.
Proof.
  pose proof (Hallowed (CF_describe_stacks Create.NETWORK_STACK_NAME) eq_refl) as H1.
  pose proof (Hallowed (CF_describe_stacks Create.APP_STACK_NAME) eq_refl) as H2.
  unfold Create.precheck, Create.stack_exists. footprint.
Qed.

Transparent Create.provision Create.publish_and_summarise.

Lemma provision_emits : yields (avoids forbid) (exits_only 1%Z) Create.provision.
Proof.
  assert (Hgate : forall (ok : bool) (msg : string),
             yields (avoids forbid) (exits_only 1%Z)
               (if negb ok then do _ <- print_error msg; sys_exit 1 else Ret tt)).
  { intros [|] msg; simpl; [intros ? ?; discriminate|].
    split; [reflexivity|]. intros ? [= <-]. reflexivity. }
  assert (Hheader : forall msg,
             yields (avoids forbid) (exits_only 1%Z) (print_section msg)).
  { intros msg. apply print_section_yields. intros ? ?; discriminate. }
  assert (Hquiet : forall A (p : prog A),
             yields (avoids forbid) never_exits p ->
             yields (avoids forbid) (exits_only 1%Z) p).
  { intros A p Hp. eapply yields_mono; [| |exact Hp]; auto.
    intros o. apply never_exits_only. }
  unfold Create.provision.
  repeat first
    [ apply Hgate
    | apply Hheader
    | apply read_template_yields, Hallowed; reflexivity
    | apply read_parameters_yields, Hallowed; reflexivity
    | apply Hquiet, create_stack_emits, Hallowed; reflexivity
    | apply Hquiet, display_stack_outputs_yields, Hallowed; reflexivity
    | rewrite wait_for_stack_creation_shape;
      apply Hquiet, wait_with_yields; apply Hallowed; reflexivity
    | apply yields_bind with (R := exits_only 1%Z); [ | intros ? _ | apply exits_only_stop] ].
Qed.

Lemma publish_and_summarise_emits :
  yields (avoids forbid) never_exits Create.publish_and_summarise.
Proof.
  pose proof (Hallowed (CF_describe_stacks Create.APP_STACK_NAME) eq_refl) as Hd.
  unfold Create.publish_and_summarise.
  apply yields_bind with (R := never_exits);
    [footprint| |apply never_exits_stop].
  intros _ _.
  apply yields_bind with (R := never_exits);
    [apply get_stack_output_yields, Hd| |apply never_exits_stop].
  intros bucket _.
  apply yields_bind with (R := never_exits); [| |apply never_exits_stop].
  { destruct (truthy bucket); [|footprint].
    apply yields_bind with (R := never_exits);
      [apply upload_to_s3_yields, Hallowed; reflexivity| |apply never_exits_stop].
    intros [] _; footprint. }
  intros _ _.
  apply yields_bind with (R := never_exits);
    [footprint| |apply never_exits_stop].
  intros _ _.
  apply yields_bind with (R := never_exits);
    [apply get_stack_output_yields, Hd| |apply never_exits_stop].
  intros url _. destruct (truthy url); footprint.
Qed.

Opaque Create.provision Create.publish_and_summarise.

Lemma create_script_emits : yields (avoids forbid) (exits_only 1%Z) Create.script.
Proof.
  unfold Create.script, Create.main.
  apply toplevel_yields; [apply exits_only_1_stop|].
  apply yields_bind with (R := exits_only 1%Z);
    [apply precheck_emits | intros _ _ | apply exits_only_stop].
  apply yields_bind with (R := exits_only 1%Z);
    [apply provision_emits | intros _ _ | apply exits_only_stop].
  eapply yields_mono; [| |apply publish_and_summarise_emits]; auto.
  intros o. apply never_exits_only.
Qed.

End CreateCalls.

(** X5. Every call of a create run is one of the calls create.py is written
    to make.  It describes, creates, polls and lists the events of the
    network and the application stack only; every creation request carries
    the capability CAPABILITY_NAMED_IAM and the tags Project=Udagram and
    Environment=Production; it reads only its four input files; it sleeps 30
    seconds at a time; the only upload is of the static page, as
    [index.html] with content type [text/html]; and it never deletes a
    stack, never empties a bucket and never prompts. *)
Theorem create_run_calls {W : Type} (E : env W) (w : W) :
  issued (fun c => negb (create_may_call c)) (trace (exec E Create.script w)) = false /\
  issued is_delete_stack (trace (exec E Create.script w)) = false /\
  issued (fun c => match c with
                   | S3_delete_objects _ | S3_delete_object_versions _ | Input _ => true
                   | _ => false
                   end) (trace (exec E Create.script w)) = false.
Proof.
  repeat split; apply avoids_issued;
    refine (proj1 (yields_sound _ _ _ E w (create_script_emits _ _)));
    intros c Hc; destruct c; solve [reflexivity | discriminate Hc | now rewrite Hc].
Qed.

Lemma never_exits_0_or_1 {A : Type} (o : result A) : never_exits o -> exits_0_or_1 o.
Proof. intros H n Hn. now destruct (H n). Qed.

Lemma exits_0_or_1_stop {A B : Type} (sg : signal) :
  exits_0_or_1 (@Stop A sg) -> exits_0_or_1 (@Stop B sg).
Proof. intros H n [= ->]. now apply H. Qed.

Section DeleteSteps.
Variable forbid : call -> bool.

Lemma gate_emits (ok : bool) (q : prog unit) :
  yields (avoids forbid) exits_0_or_1 q ->
  yields (avoids forbid) exits_0_or_1 (if negb ok then q else Ret tt).
Proof. intros Hq. destruct ok; simpl; [intros ? ?; discriminate | exact Hq]. Qed.

Lemma quiet_emits {A : Type} (p : prog A) :
  yields (avoids forbid) never_exits p -> yields (avoids forbid) exits_0_or_1 p.
Proof.
  intros Hp. eapply yields_mono; [| |exact Hp]; auto.
  intros o. apply never_exits_0_or_1.
Qed.

Ltac leaves := simpl; repeat (split; [reflexivity|]); intros ? [= <-]; auto.

Ltac next tac :=
  apply yields_bind with (R := exits_0_or_1);
  [ tac | intros ? _ | apply exits_0_or_1_stop ].

Lemma header_emits (msg : string) :
  yields (avoids forbid) exits_0_or_1 (print_section msg).
Proof. apply print_section_yields. intros ? ?; discriminate. Qed.

Lemma empty_s3_bucket_emits (b : string) :
  forbid (S3_delete_objects b) = false ->
  forbid (S3_delete_object_versions b) = false ->
  yields (avoids forbid) never_exits (Delete.empty_s3_bucket b).
Proof. intros H1 H2. unfold Delete.empty_s3_bucket. footprint. Qed.

Lemma delete_stack_emits (name : string) :
  forbid (CF_delete_stack name) = false ->
  yields (avoids forbid) never_exits (Delete.delete_stack name).
Proof. intros H. unfold Delete.delete_stack. footprint. Qed.

Lemma confirm_deletion_emits :
  forbid (Input confirmation_prompt) = false ->
  yields (avoids forbid) never_exits Delete.confirm_deletion.
Proof.
  intros H. unfold Delete.confirm_deletion. unfold confirmation_prompt in H. footprint.
Qed.

Lemma empty_bucket_step_emits (app_stack_exists : bool) :
  forbid (CF_describe_stacks Delete.APP_STACK_NAME) = false ->
  (forall b, forbid (S3_delete_objects b) = false) ->
  (forall b, forbid (S3_delete_object_versions b) = false) ->
  yields (avoids forbid) exits_0_or_1 (Delete.empty_bucket_step app_stack_exists).
Proof.
  intros Hd Ho Hv. unfold Delete.empty_bucket_step, Delete.empty_or_exit.
  destruct app_stack_exists; [|intros ? ?; discriminate].
  next ltac:(apply header_emits).
  next ltac:(apply quiet_emits, get_stack_output_yields, Hd).
  match goal with |- context [truthy ?v] => destruct (truthy v) end.
  - next ltac:(apply quiet_emits, empty_s3_bucket_emits; auto).
    apply gate_emits. leaves.
  - simpl. split; [reflexivity|]. intros ? ?; discriminate.
Qed.

Lemma delete_step_emits (present : bool) (name header rejected failed hint absent : string) :
  forbid (CF_delete_stack name) = false ->
  forbid (CF_waiter_poll stack_delete_complete name) = false ->
  forbid (Sleep 30) = false ->
  forbid (CF_describe_stack_events name) = false ->
  yields (avoids forbid) exits_0_or_1
    (if present
     then
       do _ <- print_section header;
       do requested <- Delete.delete_stack name;
       do _ <- (if negb requested
                then do _ <- print_error rejected; sys_exit 1
                else Ret tt);
       do gone <- Delete.wait_for_stack_deletion name;
       if negb gone
       then do _ <- print_error failed; do _ <- print_info hint; sys_exit 1
       else Ret tt
     else print_info absent).
Proof.
  intros Hd Hp Hs He. destruct present.
  - next ltac:(apply header_emits).
    next ltac:(apply quiet_emits, delete_stack_emits, Hd).
    next ltac:(apply gate_emits; leaves).
    next ltac:(rewrite wait_for_stack_deletion_shape;
               apply quiet_emits, wait_with_yields; assumption).
    apply gate_emits. leaves.
  - simpl. split; [reflexivity|]. intros ? ?; discriminate.
Qed.

Lemma delete_app_step_emits (app_stack_exists : bool) :
  forbid (CF_delete_stack Delete.APP_STACK_NAME) = false ->
  forbid (CF_waiter_poll stack_delete_complete Delete.APP_STACK_NAME) = false ->
  forbid (Sleep 30) = false ->
  forbid (CF_describe_stack_events Delete.APP_STACK_NAME) = false ->
  yields (avoids forbid) exits_0_or_1 (Delete.delete_app_step app_stack_exists).
Proof. unfold Delete.delete_app_step. apply delete_step_emits. Qed.

Lemma delete_network_step_emits (network_stack_exists : bool) :
  forbid (CF_delete_stack Delete.NETWORK_STACK_NAME) = false ->
  forbid (CF_waiter_poll stack_delete_complete Delete.NETWORK_STACK_NAME) = false ->
  forbid (Sleep 30) = false ->
  forbid (CF_describe_stack_events Delete.NETWORK_STACK_NAME) = false ->
  yields (avoids forbid) exits_0_or_1 (Delete.delete_network_step network_stack_exists).
Proof. unfold Delete.delete_network_step. apply delete_step_emits. Qed.

Lemma summary_emits : yields (avoids forbid) exits_0_or_1 Delete.summary.
Proof.
  unfold Delete.summary. next ltac:(apply header_emits).
  simpl. repeat (split; [reflexivity|]). intros ? ?; discriminate.
Qed.

Transparent Delete.teardown.

(** The steps of a delete run emit only what the steps for the stacks that
    were found emit. *)
Lemma teardown_steps_emit (app_stack_exists network_stack_exists : bool) :
  yields (avoids forbid) exits_0_or_1 (Delete.empty_bucket_step app_stack_exists) ->
  yields (avoids forbid) exits_0_or_1 (Delete.delete_app_step app_stack_exists) ->
  yields (avoids forbid) exits_0_or_1 (Delete.delete_network_step network_stack_exists) ->
  yields (avoids forbid) exits_0_or_1
    (Delete.teardown app_stack_exists network_stack_exists).
Proof.
  intros H1 H2 H3. unfold Delete.teardown.
  next ltac:(exact H1). next ltac:(exact H2). next ltac:(exact H3).
  apply summary_emits.
Qed.

Opaque Delete.teardown.

End DeleteSteps.

Section DeleteCalls.
Variable forbid : call -> bool.
Hypothesis Hallowed : forall c, delete_may_call c = true -> forbid c = false.

Lemma teardown_emits (app_stack_exists network_stack_exists : bool) :
  yields (avoids forbid) exits_0_or_1
    (Delete.teardown app_stack_exists network_stack_exists).
Proof.
  apply teardown_steps_emit.
  - apply empty_bucket_step_emits; intros; apply Hallowed; reflexivity.
  - apply delete_app_step_emits; apply Hallowed; reflexivity.
  - apply delete_network_step_emits; apply Hallowed; reflexivity.
Qed.

Lemma delete_main_emits : yields (avoids forbid) exits_0_or_1 Delete.main.
Proof.
  pose proof (@quiet_emits forbid) as Hquiet.
  unfold Delete.main. cbn [bind print_info yields]. split; [reflexivity|].
  apply yields_bind with (R := exits_0_or_1);
    [apply Hquiet, confirm_deletion_emits, Hallowed; reflexivity
    | intros confirmed _ | apply exits_0_or_1_stop].
  apply yields_bind with (R := exits_0_or_1); [| intros _ _ | apply exits_0_or_1_stop].
  { destruct confirmed; simpl; [intros ? ?; discriminate|].
    split; [reflexivity|]. intros n [= <-]. auto. }
  apply yields_bind with (R := exits_0_or_1);
    [apply Hquiet, delete_stack_exists_yields, Hallowed; reflexivity
    | intros app_stack_exists _ | apply exits_0_or_1_stop].
  apply yields_bind with (R := exits_0_or_1);
    [apply Hquiet, delete_stack_exists_yields, Hallowed; reflexivity
    | intros network_stack_exists _ | apply exits_0_or_1_stop].
  apply yields_bind with (R := exits_0_or_1); [| intros _ _ | apply exits_0_or_1_stop].
  { destruct (negb app_stack_exists && negb network_stack_exists); simpl;
      [|intros ? ?; discriminate].
    split; [reflexivity|]. intros n [= <-]. auto. }
  apply teardown_emits.
Qed.

End DeleteCalls.

(** X6. Every call of a delete run is one of the calls delete.py is written
    to make: the confirmation prompt, describe and delete requests, polls of
    the deletion waiter and event listings for the application and the
    network stack only, sleeps of 30 seconds, and the two emptying
    operations on a bucket.  It never creates a stack, never uploads and
    never reads a file; and the run always ends with exit status 0 or 1. *)
Theorem delete_run_calls {W : Type} (E : env W) (w : W) :
  issued (fun c => negb (delete_may_call c)) (trace (exec E Delete.script w)) = false /\
  issued is_create (trace (exec E Delete.script w)) = false /\
  issued is_upload (trace (exec E Delete.script w)) = false /\
  issued (fun c => match c with ReadText _ | ReadJson _ => true | _ => false end)
    (trace (exec E Delete.script w)) = false /\
  (exit_code (outcome (exec E Delete.script w)) = 0%Z \/
   exit_code (outcome (exec E Delete.script w)) = 1%Z).
Proof.
  assert (Hfree : forall forbid,
             (forall c, delete_may_call c = true -> forbid c = false) ->
             issued forbid (trace (exec E Delete.script w)) = false).
  { intros forbid H. unfold Delete.script. rewrite exec_toplevel, issued_at_toplevel.
    apply avoids_issued.
    exact (proj1 (yields_sound _ _ _ E w (delete_main_emits forbid H))). }
  repeat split;
    try (apply Hfree; intros c Hc; destruct c;
         solve [reflexivity | discriminate Hc | now rewrite Hc]).
  unfold Delete.script. rewrite exec_toplevel, exit_code_at_toplevel.
  pose proof (proj2 (yields_sound _ _ _ E w
                       (delete_main_emits (fun _ => false) (fun _ _ => eq_refl)))) as Hexit.
  destruct (outcome (exec E Delete.main w)) as [[]|[e|n]]; simpl; auto.
Qed.

(** ** What a delete run leaves alone *)

Lemma answers_reply {W : Type} (E : env W) (w : W) (c : call) :
  answers E w c (reply_in E w c) (world_after E w c).
Proof. unfold answers, reply_in, world_after. now destruct (respond E c w). Qed.

Lemma issued_weaken (p q : call -> bool) (t : list event) :
  (forall c, p c = true -> q c = true) -> issued q t = false -> issued p t = false.
Proof.
  intros Hpq. induction t as [|ev t IH]; simpl; [reflexivity|].
  intros H. apply orb_false_iff in H. destruct H as [Hev Ht].
  rewrite (IH Ht), orb_false_r. destruct ev as [l|c r]; [reflexivity|].
  destruct (p c) eqn:Hp; [|reflexivity]. now rewrite (Hpq c Hp) in Hev.
Qed.

Lemma delete_stack_exists_run {W : Type} (E : env W) (w : W) (name : string) :
  trace (exec E (Delete.stack_exists name) w) =
    [Called (CF_describe_stacks name) (reply_in E w (CF_describe_stacks name))] /\
  final (exec E (Delete.stack_exists name) w) = world_after E w (CF_describe_stacks name).
Proof.
  unfold Delete.stack_exists, reply_in, world_after. simpl.
  destruct (respond E (CF_describe_stacks name) w) as [[e|[|s rest]] w']; simpl.
  - destruct e as [m|m|m| |m]; simpl; try (split; reflexivity).
    destruct (py_in "does not exist" m); split; reflexivity.
  - split; reflexivity.
  - destruct (String.eqb (StackStatus s) "DELETE_COMPLETE"); split; reflexivity.
Qed.

Opaque Delete.stack_exists.

(** A delete run either stops before its steps, having called nothing but
    the prompt and the two existence checks, or consists of those followed
    by the steps for the two flags the checks returned. *)
Lemma delete_main_decomposed {W : Type} (E : env W) (w : W) :
  let w1 := world_after E w (Input confirmation_prompt) in
  let w2 := world_after E w1 (CF_describe_stacks Delete.APP_STACK_NAME) in
  let w3 := world_after E w2 (CF_describe_stacks Delete.NETWORK_STACK_NAME) in
  issued is_mutation (trace (exec E Delete.main w)) = false \/
  exists pre a n,
    exec E Delete.main w = prepend pre (exec E (Delete.teardown a n) w3) /\
    issued is_mutation pre = false /\
    (exists answer, reply_in E w (Input confirmation_prompt) = inr answer /\
                    Delete.accepted answer = true) /\
    outcome (exec E (Delete.stack_exists Delete.APP_STACK_NAME) w1) = Done a /\
    outcome (exec E (Delete.stack_exists Delete.NETWORK_STACK_NAME) w2) = Done n.
Proof.
  cbv zeta. 
  unfold Delete.main, Delete.confirm_deletion, reply_in, world_after, confirmation_prompt.
  simpl.
  destruct (respond E (Input (newline +:+ "Are you sure you want to continue? (yes/no): ")) w)
    as [[e|answer] w1]; simpl; [left; reflexivity|].
  destruct (Delete.accepted answer) eqn:Hyes; simpl; [|left; reflexivity].
  rewrite exec_bind.
  destruct (delete_stack_exists_run E w1 Delete.APP_STACK_NAME) as [Ht1 Hf1].
  unfold reply_in, world_after in Ht1, Hf1.
  destruct (exec E (Delete.stack_exists Delete.APP_STACK_NAME) w1) as [t1 o1 f1].
  cbn [trace final outcome] in *. subst t1 f1.
  destruct o1 as [a|sg]; unfold andthen at 1 2; cbn [outcome trace final];
    [|left; reflexivity].
  rewrite exec_bind.
  set (w2 := snd (respond E (CF_describe_stacks Delete.APP_STACK_NAME) w1)) in *.
  destruct (delete_stack_exists_run E w2 Delete.NETWORK_STACK_NAME) as [Ht2 Hf2].
  unfold reply_in, world_after in Ht2, Hf2.
  destruct (exec E (Delete.stack_exists Delete.NETWORK_STACK_NAME) w2) as [t2 o2 f2].
  cbn [trace final outcome] in *. subst t2 f2.
  destruct o2 as [n|sg]; unfold andthen at 1 2; cbn [outcome trace final];
    [|left; reflexivity].
  destruct (negb a && negb n); simpl; [left; reflexivity|].
  right.
  match goal with
  | |- exists pre a' n', ?lhs = _ /\ _ => exists (firstn 12 (trace lhs)), a, n
  end.
  repeat split; eauto.
Qed.

Transparent Delete.stack_exists.

(** X7. The delete run does nothing without a confirmation.  If a run makes
    any call to CloudFormation or S3, even a describe call, then the prompt
    returned an answer and that answer was accepted; a prompt that raises
    (end of input, an interrupt) or returns anything else leaves the
    services untouched. *)
Theorem delete_acts_only_when_confirmed {W : Type} (E : env W) (w : W) :
  issued is_remote (trace (exec E Delete.script w)) = true ->
  exists answer,
    reply_in E w (Input confirmation_prompt) = inr answer /\
    Delete.accepted answer = true.
Proof.
  unfold Delete.script, Delete.main, Delete.confirm_deletion, reply_in, confirmation_prompt.
  rewrite exec_toplevel, issued_at_toplevel. simpl.
  destruct (respond E (Input (newline +:+ "Are you sure you want to continue? (yes/no): ")) w)
    as [[e|answer] w1]; simpl; [discriminate|].
  destruct (Delete.accepted answer) eqn:Hyes; simpl; [|discriminate].
  intros _. now exists answer.
Qed.

Lemma delete_acts_only_when_confirmed_witness :
  exists answer,
    reply_in both_stacks_up 0 (Input confirmation_prompt) = inr answer /\
    Delete.accepted answer = true.
Proof.
  apply (delete_acts_only_when_confirmed both_stacks_up 0). vm_compute. reflexivity.
Defined.

Lemma teardown_skips_app (network_stack_exists : bool) :
  yields (avoids (fun c => deletes Delete.APP_STACK_NAME c || touches_bucket c))
    exits_0_or_1 (Delete.teardown false network_stack_exists).
Proof.
  apply teardown_steps_emit.
  - intros ? ?; discriminate.
  - simpl. split; [reflexivity|]. intros ? ?; discriminate.
  - apply delete_network_step_emits; reflexivity.
Qed.

Lemma teardown_skips_network (app_stack_exists : bool) :
  yields (avoids (deletes Delete.NETWORK_STACK_NAME))
    exits_0_or_1 (Delete.teardown app_stack_exists false).
Proof.
  apply teardown_steps_emit.
  - apply empty_bucket_step_emits; reflexivity.
  - apply delete_app_step_emits; reflexivity.
  - simpl. split; [reflexivity|]. intros ? ?; discriminate.
Qed.

(** X8. A stack that the existence check reports as absent or already
    deleted is left alone.  In every delete run, if the check of the
    application stack finds it absent then the run never requests its
    deletion and never calls an emptying operation on any bucket; if the
    check of the network stack finds it absent then the run never requests
    the deletion of the network stack. *)
Theorem absent_stacks_are_left_alone {W : Type} (E : env W) (w : W) :
  let w1 := world_after E w (Input confirmation_prompt) in
  let w2 := world_after E w1 (CF_describe_stacks Delete.APP_STACK_NAME) in
  (absent_or_deleted (reply_in E w1 (CF_describe_stacks Delete.APP_STACK_NAME)) ->
   issued (fun c => deletes Delete.APP_STACK_NAME c || touches_bucket c)
     (trace (exec E Delete.script w)) = false) /\
  (absent_or_deleted (reply_in E w2 (CF_describe_stacks Delete.NETWORK_STACK_NAME)) ->
   issued (deletes Delete.NETWORK_STACK_NAME) (trace (exec E Delete.script w)) = false).
Proof.
  cbv zeta. unfold Delete.script. rewrite exec_toplevel, !issued_at_toplevel.
  destruct (delete_main_decomposed E w)
    as [Hquiet | (pre & a & n & -> & Hpre & _ & Ha & Hn)].
  - split; intros _; (eapply issued_weaken; [|exact Hquiet]);
      intros [] Hc; solve [reflexivity | discriminate Hc].
  - unfold prepend; cbn [trace]. rewrite !issued_app. split; intros Habsent.
    + rewrite (delete_stack_exists_absent E _ _ _ _ (answers_reply E _ _) Habsent) in Ha.
      injection Ha as <-. apply orb_false_iff. split.
      * eapply issued_weaken; [|exact Hpre].
        intros [] Hc; solve [reflexivity | discriminate Hc].
      * apply avoids_issued.
        exact (proj1 (yields_sound _ _ _ E _ (teardown_skips_app n))).
    + rewrite (delete_stack_exists_absent E _ _ _ _ (answers_reply E _ _) Habsent) in Hn.
      injection Hn as <-. apply orb_false_iff. split.
      * eapply issued_weaken; [|exact Hpre].
        intros [] Hc; solve [reflexivity | discriminate Hc].
      * apply avoids_issued.
        exact (proj1 (yields_sound _ _ _ E _ (teardown_skips_network a))).
Qed.

(** ** A bucket name that cannot be read *)

Lemma issued_calls (p : call -> bool) (t : list event) : issued p t = issued p (calls t).
Proof.
  induction t as [|[l|c r] t IH]; simpl; [reflexivity | exact IH | now rewrite IH].
Qed.

Opaque Delete.stack_exists.

Lemma delete_main_checked {W : Type} (E : env W) (w0 w1 w2 w3 : W) (answer : string)
    (r_app : reply (CF_describe_stacks Delete.APP_STACK_NAME))
    (r_net : reply (CF_describe_stacks Delete.NETWORK_STACK_NAME))
    (a n : bool) :
  answers E w0 (Input confirmation_prompt) (inr answer) w1 ->
  Delete.accepted answer = true ->
  exec E (Delete.stack_exists Delete.APP_STACK_NAME) w1 =
    Run [Called (CF_describe_stacks Delete.APP_STACK_NAME) r_app] (Done a) w2 ->
  exec E (Delete.stack_exists Delete.NETWORK_STACK_NAME) w2 =
    Run [Called (CF_describe_stacks Delete.NETWORK_STACK_NAME) r_net] (Done n) w3 ->
  a || n = true ->
  exists pre,
    exec E Delete.main w0 = prepend pre (exec E (Delete.teardown a n) w3) /\
    calls pre =
      [Called (Input confirmation_prompt) (inr answer);
       Called (CF_describe_stacks Delete.APP_STACK_NAME) r_app;
       Called (CF_describe_stacks Delete.NETWORK_STACK_NAME) r_net].
Proof.
  unfold answers, confirmation_prompt. intros Hin Hyes Happ Hnet Hflags.
  exists (firstn 12 (trace (exec E Delete.main w0))).
  unfold Delete.main, Delete.confirm_deletion. simpl. rewrite Hin. simpl.
  rewrite Hyes. simpl. rewrite exec_bind, Happ. unfold andthen.
  cbn [outcome trace final]. rewrite exec_bind, Hnet. unfold andthen.
  cbn [outcome trace final].
  replace (negb a && negb n) with false by (now destruct a, n).
  simpl. split; reflexivity.
Qed.

Transparent Delete.stack_exists.

Lemma deletion_steps_emit (forbid : call -> bool) (a n : bool) :
  yields (avoids forbid) exits_0_or_1 (Delete.delete_app_step a) ->
  yields (avoids forbid) exits_0_or_1 (Delete.delete_network_step n) ->
  yields (avoids forbid) exits_0_or_1 (deletion_steps a n).
Proof.
  intros H1 H2. unfold deletion_steps.
  apply yields_bind with (R := exits_0_or_1);
    [exact H1 | intros ? _ | apply exits_0_or_1_stop].
  apply yields_bind with (R := exits_0_or_1);
    [exact H2 | intros ? _ | apply exits_0_or_1_stop].
  apply summary_emits.
Qed.

Lemma app_deletion_requested {W : Type} (E : env W) (w : W) (n : bool) :
  issued (deletes Delete.APP_STACK_NAME) (trace (exec E (deletion_steps true n) w)) = true.
Proof.
  unfold deletion_steps, Delete.delete_app_step, Delete.delete_stack. simpl.
  reflexivity.
Qed.

Transparent Delete.teardown.
Opaque get_stack_output.

Lemma teardown_without_bucket {W : Type} (E : env W) (w : W) (n : bool)
    (s3_bucket_name : option string) :
  outcome (exec E (get_stack_output Delete.APP_STACK_NAME "S3BucketName") w) =
    Done s3_bucket_name ->
  truthy s3_bucket_name = false ->
  exec E (Delete.teardown true n) w =
  prepend
    (map Printed [Plain (newline +:+ rule);
                  Plain ("  " +:+ "Step 1: Emptying S3 Bucket");
                  Plain rule] ++
     trace (exec E (get_stack_output Delete.APP_STACK_NAME "S3BucketName") w) ++
     [bucket_warning])
    (exec E (deletion_steps true n)
       (final (exec E (get_stack_output Delete.APP_STACK_NAME "S3BucketName") w))).
Proof.
  intros Hlookup Hfalsy.
  unfold Delete.teardown, deletion_steps. rewrite exec_bind.
  unfold Delete.empty_bucket_step. cbn [print_section print bind exec].
  rewrite exec_bind.
  destruct (exec E (get_stack_output Delete.APP_STACK_NAME "S3BucketName") w)
    as [tg og wg].
  cbn [outcome trace final] in *. subst og.
  unfold Delete.empty_or_exit, andthen at 2. cbn [outcome trace final].
  rewrite Hfalsy. cbn [Delete.print_warning exec].
  rewrite !andthen_logged, andthen_prepend, andthen_logged.
  unfold andthen at 1. cbn [outcome trace final].
  match goal with |- context [exec E ?p wg] => generalize (exec E p wg) end.
  intros [tr or wr]. unfold logged, prepend, bucket_warning. cbn [trace outcome final map app].
  now rewrite <- app_assoc.
Qed.

Transparent get_stack_output.
Opaque Delete.teardown.

(** X9. When the delete run cannot read the bucket name, it does not stop:
    it warns and goes on to delete.  In a confirmed run that finds the
    application stack, if the lookup of the output S3BucketName yields
    nothing (the describe call is rejected, the output is missing, or its
    value is empty), then the run prints the warning, never calls an
    emptying operation, and requests the deletion of the application
    stack. *)
Theorem unreadable_bucket_name_is_skipped {W : Type} (E : env W) (w0 w1 w2 w3 : W)
    (answer : string)
    (r_app : reply (CF_describe_stacks Delete.APP_STACK_NAME))
    (r_net : reply (CF_describe_stacks Delete.NETWORK_STACK_NAME))
    (s3_bucket_name : option string) :
  answers E w0 (Input confirmation_prompt) (inr answer) w1 ->
  Delete.accepted answer = true ->
  answers E w1 (CF_describe_stacks Delete.APP_STACK_NAME) r_app w2 ->
  present r_app ->
  answers E w2 (CF_describe_stacks Delete.NETWORK_STACK_NAME) r_net w3 ->
  present r_net \/ absent_or_deleted r_net ->
  outcome (exec E (get_stack_output Delete.APP_STACK_NAME "S3BucketName") w3) =
    Done s3_bucket_name ->
  truthy s3_bucket_name = false ->
  In bucket_warning (trace (exec E Delete.script w0)) /\
  issued touches_bucket (trace (exec E Delete.script w0)) = false /\
  issued (deletes Delete.APP_STACK_NAME) (trace (exec E Delete.script w0)) = true.
Proof.
  intros Hin Hyes Happ Hpresent Hnet Heither Hlookup Hfalsy.
  assert (Hn : exists n, exec E (Delete.stack_exists Delete.NETWORK_STACK_NAME) w2 =
                 Run [Called (CF_describe_stacks Delete.NETWORK_STACK_NAME) r_net] (Done n) w3).
  { destruct Heither as [H|H];
      [ exists true; now apply delete_stack_exists_present
      | exists false; now apply delete_stack_exists_absent ]. }
  destruct Hn as (n & Hn).
  destruct (delete_main_checked E w0 w1 w2 w3 answer r_app r_net true n Hin Hyes
              (delete_stack_exists_present E w1 w2 _ r_app Happ Hpresent) Hn eq_refl)
    as (pre & Hmain & Hcalls).
  assert (Hpre : forall p, issued p pre =
                   issued p [Called (Input confirmation_prompt) (inr answer);
                             Called (CF_describe_stacks Delete.APP_STACK_NAME) r_app;
                             Called (CF_describe_stacks Delete.NETWORK_STACK_NAME) r_net]).
  { intros p. now rewrite issued_calls, Hcalls. }
  pose proof (proj1 (yields_sound _ _ _ E w3
                (get_stack_output_yields touches_bucket Delete.APP_STACK_NAME
                   "S3BucketName" eq_refl))) as Hquiet.
  apply avoids_issued in Hquiet.
  unfold Delete.script. rewrite exec_toplevel, Hmain, at_toplevel_prepend.
  rewrite (teardown_without_bucket E w3 n s3_bucket_name Hlookup Hfalsy).
  rewrite at_toplevel_prepend. unfold prepend; cbn [trace].
  set (rest := at_toplevel (exec E (deletion_steps true n) _)).
  assert (Hrest : issued touches_bucket (trace rest) = false).
  { unfold rest. rewrite issued_at_toplevel. apply avoids_issued.
    refine (proj1 (yields_sound _ _ _ E _ (deletion_steps_emit touches_bucket true n _ _)));
      [apply delete_app_step_emits | apply delete_network_step_emits]; reflexivity. }
  split; [|split].
  - apply in_or_app. right. apply in_or_app. left.
    apply in_or_app. right. apply in_or_app. right. now left.
  - rewrite !issued_app, Hpre, Hquiet, Hrest. reflexivity.
  - rewrite !issued_app. unfold rest. rewrite issued_at_toplevel, app_deletion_requested.
    now rewrite !orb_true_r.
Qed.

Lemma unreadable_bucket_name_is_skipped_witness :
  In bucket_warning (trace (exec bucket_output_missing Delete.script 0)) /\
  issued touches_bucket (trace (exec bucket_output_missing Delete.script 0)) = false /\
  issued (deletes Delete.APP_STACK_NAME)
    (trace (exec bucket_output_missing Delete.script 0)) = true.
Proof.
  assert (Hstatus : "CREATE_COMPLETE" <> "DELETE_COMPLETE") by discriminate.
  exact (unreadable_bucket_name_is_skipped bucket_output_missing 0 1 2 3 "y"
           (inr [ {| StackStatus := "CREATE_COMPLETE"; Outputs := None |} ])
           (inr [ {| StackStatus := "CREATE_COMPLETE"; Outputs := None |} ])
           None eq_refl eq_refl eq_refl Hstatus eq_refl (or_introl Hstatus)
           eq_refl eq_refl).
Defined.

Example only_the_network_stack_is_deleted :
  exit_code (outcome (exec app_already_gone Delete.script 0)) = 0%Z /\
  map (fun ev => match ev with
                 | Called (CF_delete_stack n) _ => Some n
                 | _ => None
                 end)
      (List.filter (on_call is_mutation) (trace (exec app_already_gone Delete.script 0))) =
    [Some Delete.NETWORK_STACK_NAME].
Proof. vm_compute. split; reflexivity. Qed.

(** ** The order of a delete run *)

Lemma order_step_print (s : deletion_order) (l : line) : order_step s (Printed l) = s.
Proof. reflexivity. Qed.

(** Calls that are neither a deletion request, nor an emptying operation,
    nor a poll leave the order where it is. *)
Lemma order_step_quiet (s : deletion_order) (ev : event) :
  avoids (fun c => is_delete_stack c || touches_bucket c || is_poll c) ev ->
  order_step s ev = s.
Proof.
  destruct ev as [l|c r]; [reflexivity|]. unfold avoids. simpl.
  destruct c; simpl; intros H; solve [reflexivity | discriminate H].
Qed.

Lemma order_step_emptying (ev : event) :
  avoids (fun c => is_delete_stack c || is_poll c) ev ->
  order_step NothingAsked ev = NothingAsked.
Proof.
  destruct ev as [l|c r]; [reflexivity|]. unfold avoids. simpl.
  destruct c; simpl; intros H; solve [reflexivity | discriminate H].
Qed.

Lemma wp_delete_stack_order (name : string) (Q : result bool -> deletion_order -> Prop)
    (s : deletion_order) :
  (forall r,
      Q (match r with
         | inr _ => Done true
         | inl (ClientError _) => Done false
         | inl e => Stop (Exc e)
         end)
        (order_step s (Called (CF_delete_stack name) r))) ->
  wp order_step (Delete.delete_stack name) Q s.
Proof.
  intros H. unfold Delete.delete_stack.
  cbn [wp bind try_except perform print_info]. rewrite order_step_print.
  intros r. specialize (H r).
  destruct r as [[]|[]];
    cbn [wp bind try_except print_success print_error]; rewrite ?order_step_print; exact H.
Qed.

Section Order.
Ltac run :=
  cbn [wp bind print_section print print_info print_error print_success
       sys_exit raise negb order_step].

Ltac fine :=
  split; [discriminate | first [intros H; discriminate H | intros _; unfold nothing_pending; auto]].

Lemma wp_wait_in_order (name : string) (requested ready : deletion_order)
    (R : result bool -> deletion_order -> Prop) :
  requested <> OutOfOrder ->
  (forall r, order_step requested (Called (CF_waiter_poll stack_delete_complete name) r) =
             match r with
             | inr PollSuccess => ready
             | _ => requested
             end) ->
  R (Done true) ready ->
  (forall o, o <> Done true -> never_exits o -> R o requested) ->
  wp order_step (Delete.wait_for_stack_deletion name) R requested.
Proof.
  intros Hreq Hpoll Hready Hfail. rewrite wait_for_stack_deletion_shape.
  apply wp_wait_with with (ready := ready) (halted := requested); auto;
    try (intros; destruct requested; reflexivity);
    try (intros r; rewrite Hpoll; now destruct r as [e|[| |]]).
Qed.

Transparent Delete.teardown.

Lemma wp_network_step (n : bool) (s : deletion_order) :
  s = NothingAsked \/ s = AppConfirmedGone ->
  wp order_step (do _ <- Delete.delete_network_step n; Delete.summary) in_order s.
Proof.
  intros Hs. unfold Delete.delete_network_step, Delete.summary.
  destruct n; run; [|destruct Hs as [-> | ->]; fine].
  apply wp_bind, wp_bind, wp_delete_stack_order. intros r.
  replace (order_step s (Called (CF_delete_stack Delete.NETWORK_STACK_NAME) r))
    with NetworkAsked by (destruct Hs as [-> | ->]; reflexivity).
  destruct r as [[m|m|m| |m]|[]]; run; try fine.
  apply wp_bind, wp_wait_in_order with (ready := NetworkConfirmedGone).
  - discriminate.
  - intros [e|[| |]]; reflexivity.
  - run. fine.
  - intros [[|]|[e|c]] Ho Hn; run; try fine; [congruence | destruct (Hn c eq_refl)].
Qed.

Lemma wp_teardown (a n : bool) : wp order_step (Delete.teardown a n) in_order NothingAsked.
Proof.
  unfold Delete.teardown. apply wp_bind.
  eapply wp_yields with (allowed := avoids (fun c => is_delete_stack c || is_poll c))
                        (R := exits_0_or_1).
  { apply empty_bucket_step_emits; reflexivity. }
  { apply order_step_emptying. }
  intros [[]|sg] _; [|fine].
  unfold Delete.delete_app_step. destruct a; run.
  - apply wp_bind, wp_bind, wp_delete_stack_order. intros r.
    change (order_step NothingAsked (Called (CF_delete_stack Delete.APP_STACK_NAME) r))
      with AppAsked.
    destruct r as [[m|m|m| |m]|[]]; run; try fine.
    apply wp_bind, wp_wait_in_order with (ready := AppConfirmedGone).
    + discriminate.
    + intros [e|[| |]]; reflexivity.
    + run. apply wp_network_step. now right.
    + intros [[|]|[e|c]] Ho Hn; run; try fine; [congruence | destruct (Hn c eq_refl)].
  - apply wp_network_step. now left.
Qed.

Opaque Delete.teardown.

Lemma wp_delete_script : wp order_step Delete.script in_order NothingAsked.
Proof.
  assert (Hquiet : forall A (p : prog A) (k : A -> prog unit)
                     (R : result unit -> deletion_order -> Prop),
             yields (avoids (fun c => is_delete_stack c || touches_bucket c || is_poll c))
                    never_exits p ->
             (forall sg, R (Stop sg) NothingAsked) ->
             (forall v, wp order_step (k v) R NothingAsked) ->
             wp order_step (bind p k) R NothingAsked).
  { intros A p k R Hp Hstop Hk. apply wp_bind.
    eapply wp_yields; [exact Hp | intros ev; apply order_step_quiet |].
    intros [v|sg] _; auto. }
  unfold Delete.script. apply wp_toplevel; [reflexivity|].
  unfold Delete.main. run.
  apply Hquiet; [apply confirm_deletion_emits; reflexivity | intros [e|c]; fine |].
  intros confirmed. apply wp_bind. destruct confirmed; run; [|fine].
  apply Hquiet; [apply delete_stack_exists_yields; reflexivity | intros [e|c]; fine |].
  intros a.
  apply Hquiet; [apply delete_stack_exists_yields; reflexivity | intros [e|c]; fine |].
  intros n. apply wp_bind. destruct (negb a && negb n); run; [fine|].
  eapply wp_mono; [|apply wp_teardown].
  intros [[]|[e|c]] s Hs; exact Hs.
Qed.

End Order.

(** X10. Every delete run keeps the deletion order, whatever the services
    answer.  Emptying operations are only called before any deletion
    request; the deletion of the application stack is requested at most once
    and never after that of the network stack; the deletion of the network
    stack is requested at most once, and when the deletion of the
    application stack was requested, only after a poll found that stack
    gone; no other stack is deleted.  And the run exits with status 0 only
    when no deletion is pending: none was requested, or a poll of the
    deletion waiter found the last stack requested gone. *)
Theorem delete_run_keeps_the_order {W : Type} (E : env W) (w : W) :
  observe order_step NothingAsked (trace (exec E Delete.script w)) <> OutOfOrder /\
  (exit_code (outcome (exec E Delete.script w)) = 0%Z ->
   nothing_pending (observe order_step NothingAsked (trace (exec E Delete.script w)))).
Proof.
  exact (wp_sound order_step E Delete.script _ NothingAsked w wp_delete_script).
Qed.

Example order_of_a_full_deletion :
  observe order_step NothingAsked (trace (exec both_stacks_up Delete.script 0)) =
    NetworkConfirmedGone /\
  observe order_step NothingAsked (trace (exec app_already_gone Delete.script 0)) =
    NetworkConfirmedGone /\
  observe order_step NothingAsked (trace (exec versions_denied Delete.script 0)) = NothingAsked /\
  exit_code (outcome (exec versions_denied Delete.script 0)) = 1%Z /\
  observe order_step NothingAsked
    [Called (CF_delete_stack Delete.NETWORK_STACK_NAME) (inr tt);
     Called (CF_delete_stack Delete.APP_STACK_NAME) (inr tt)] = OutOfOrder /\
  observe order_step NothingAsked
    [Called (CF_delete_stack Delete.APP_STACK_NAME) (inr tt);
     Called (CF_delete_stack Delete.NETWORK_STACK_NAME) (inr tt)] = OutOfOrder /\
  observe order_step NothingAsked
    [Called (CF_delete_stack Delete.APP_STACK_NAME) (inr tt);
     Called (S3_delete_objects "udagram-bucket") (inr tt)] = OutOfOrder.
Proof. vm_compute. repeat split. Qed.

(** ** Where the static page goes *)

Transparent Create.publish_and_summarise.

Ltac split_lookups E :=
  repeat (simpl;
          match goal with
          | |- context [respond E ?c ?w] =>
              let e := fresh "e" in
              let v := fresh "v" in
              let w' := fresh "w" in
              destruct (respond E c w) as [[e|v] w']; [destruct e|]
          | v : value (CF_describe_stacks _) |- _ => destruct v as [|? ?]
          | v : value (S3_upload_file _ _ _ _) |- _ => destruct v
          | |- context [scan_outputs ?l ?k] =>
              let H := fresh "Hscan" in
              destruct (scan_outputs l k) as [[|? ?]|] eqn:H
          end).

Lemma publish_upload_shape {W : Type} (E : env W) (w : W) :
  issued is_upload (trace (exec E Create.publish_and_summarise w)) = true ->
  exists before s rest b r after,
    trace (exec E Create.publish_and_summarise w) =
      before ++
      [Called (CF_describe_stacks Create.APP_STACK_NAME) (inr (s :: rest));
       Printed (Info ("Uploading " +:+ Create.STATIC_CONTENT_FILE +:+
                      " to S3 bucket: " +:+ b));
       Called (S3_upload_file Create.STATIC_CONTENT_FILE b "index.html" "text/html") r] ++
      after /\
    scan_outputs (default [] (Outputs s)) "S3BucketName" = Some b /\
    b <> "" /\
    issued is_upload before = false /\ issued is_upload after = false.
Proof.
  unfold Create.publish_and_summarise, get_stack_output, Create.upload_to_s3.
  split_lookups E; simpl; intros Hup; try discriminate Hup;
    match goal with
    | Hs : scan_outputs (default [] (Outputs ?s)) "S3BucketName" = Some ?b
      |- exists _ _ _ _ _ _,
           ?e1 :: ?e2 :: ?e3 :: Called _ (inr (?s :: ?rest)) :: _ ::
           Called (S3_upload_file _ _ _ _) ?r :: ?after = _ /\ _ =>
        exists [e1; e2; e3], s, rest, b, r, after;
        repeat split; solve [reflexivity | exact Hs | discriminate]
    end.
Qed.

Opaque Create.publish_and_summarise.

(** X11. The static page is uploaded to the bucket that the application
    stack names.  In every create run that makes an upload call, that call
    is the only upload of the run; it follows directly (after the line that
    announces it) a describe call of the application stack that returned the
    stack; and its bucket is the value of the first output of that stack
    whose key is S3BucketName, which is not empty.  The file, the key and
    the content type are those the script fixes. *)
Theorem upload_goes_to_the_stack_bucket {W : Type} (E : env W) (w : W) :
  issued is_upload (trace (exec E Create.script w)) = true ->
  exists before s rest b r after,
    trace (exec E Create.script w) =
      before ++
      [Called (CF_describe_stacks Create.APP_STACK_NAME) (inr (s :: rest));
       Printed (Info ("Uploading " +:+ Create.STATIC_CONTENT_FILE +:+
                      " to S3 bucket: " +:+ b));
       Called (S3_upload_file Create.STATIC_CONTENT_FILE b "index.html" "text/html") r] ++
      after /\
    scan_outputs (default [] (Outputs s)) "S3BucketName" = Some b /\
    b <> "" /\
    issued is_upload before = false /\ issued is_upload after = false.
Proof.
  destruct (create_script_reaches_publish E w) as [Hfree|(pre & w2 & Hfree & ->)].
  { apply avoids_issued in Hfree. rewrite Hfree. discriminate. }
  apply avoids_issued in Hfree.
  destruct (trace_at_toplevel (exec E Create.publish_and_summarise w2)) as (tail & Htail).
  assert (Hquiet : issued is_upload tail = false).
  { pose proof (issued_at_toplevel is_upload (exec E Create.publish_and_summarise w2)) as H.
    rewrite Htail, issued_app in H.
    destruct (issued is_upload (trace (exec E Create.publish_and_summarise w2))) eqn:Hp.
    - revert Htail. unfold at_toplevel.
      destruct (exec E Create.publish_and_summarise w2) as [tp [[]|[e|n]] wp];
        cbn [trace outcome final]; intros Htail.
      + rewrite <- (app_nil_r tp) in Htail at 1. apply app_inv_head in Htail. now subst.
      + apply app_inv_head in Htail. subst. now destruct e.
      + rewrite <- (app_nil_r tp) in Htail at 1. apply app_inv_head in Htail. now subst.
    - exact H. }
  unfold prepend. cbn [trace]. rewrite Htail, !issued_app, Hfree, Hquiet, orb_false_r.
  cbn [orb]. intros Hup.
  destruct (publish_upload_shape E w2 Hup)
    as (before & s & rest & b & r & after & Htrace & Hscan & Hb & Hbefore & Hafter).
  exists (pre ++ before), s, rest, b, r, (after ++ tail).
  rewrite Htrace, !issued_app, Hfree, Hbefore, Hafter, Hquiet.
  repeat split; auto. now rewrite <- !app_assoc.
Qed.

Lemma upload_goes_to_the_stack_bucket_witness :
  exists before s rest b r after,
    trace (exec cooperative Create.script 0) =
      before ++
      [Called (CF_describe_stacks Create.APP_STACK_NAME) (inr (s :: rest));
       Printed (Info ("Uploading " +:+ Create.STATIC_CONTENT_FILE +:+
                      " to S3 bucket: " +:+ b));
       Called (S3_upload_file Create.STATIC_CONTENT_FILE b "index.html" "text/html") r] ++
      after /\
    scan_outputs (default [] (Outputs s)) "S3BucketName" = Some b /\
    b <> "" /\
    issued is_upload before = false /\ issued is_upload after = false.
Proof.
  apply (upload_goes_to_the_stack_bucket cooperative 0). vm_compute. reflexivity.
Defined.

(** ** What a creation request carries *)

Lemma files_step_quiet (s : files_read) (ev : event) :
  avoids reads_or_creates ev -> files_step s ev = s.
Proof.
  destruct ev as [l|c r]; [reflexivity|]. unfold avoids. simpl.
  destruct c; simpl; intros H; solve [reflexivity | discriminate H].
Qed.

Lemma faithful_step (s : files_read) (ev : event) :
  faithful (files_step s ev) -> faithful s.
Proof.
  destruct ev as [l|c r]; [auto|]. destruct c; simpl; auto.
  - tauto.
  - destruct r; auto.
  - destruct r; auto.
Qed.

Lemma faithful_observe (t : list event) (s : files_read) :
  faithful (observe files_step s t) -> faithful s.
Proof.
  revert s. induction t as [|ev t IH]; intros s; simpl; [auto|].
  intros H. apply IH in H. now apply faithful_step in H.
Qed.

Section Files.
Lemma wp_files_quiet {A B : Type} (p : prog A) (k : A -> prog B) (s : files_read) :
  yields (avoids reads_or_creates) (fun _ => True) p ->
  faithful s ->
  (forall v, wp files_step (k v) kept_faithful s) ->
  wp files_step (bind p k) kept_faithful s.
Proof.
  intros Hp Hs Hk. apply wp_bind.
  eapply wp_yields; [exact Hp | intros ev; apply files_step_quiet |].
  intros [v|sg] _; [apply Hk | exact Hs].
Qed.

(** Reading the two files of a stack and requesting its creation. *)
Lemma wp_files_stage {B : Type} (n template_file parameter_file : string)
    (k : bool -> prog B) (s : files_read) :
  (n = Create.NETWORK_STACK_NAME /\ template_file = Create.NETWORK_TEMPLATE /\
   parameter_file = Create.NETWORK_PARAMETERS) \/
  (n = Create.APP_STACK_NAME /\ template_file = Create.APP_TEMPLATE /\
   parameter_file = Create.APP_PARAMETERS) ->
  faithful s ->
  (forall created s', faithful s' -> wp files_step (k created) kept_faithful s') ->
  wp files_step
    (do t <- Create.read_template template_file;
     do p <- Create.read_parameters parameter_file;
     do created <- Create.create_stack n t p;
     k created) kept_faithful s.
Proof.
  intros Hn Hs Hk.
  unfold Create.read_template, Create.read_parameters, Create.create_stack.
  cbn [wp bind try_except perform print_info]. intros [e|t].
  { destruct e; exact Hs. }
  cbn [wp bind try_except files_step]. intros [e|p].
  { destruct e; exact Hs. }
  cbn [wp bind try_except files_step]. intros r.
  assert (Hnow : faithful
            (files_step
               {| last_text := Some (template_file, t);
                  last_params := Some (parameter_file, p);
                  faithful := faithful s |}
               (Called (CF_create_stack n t p ["CAPABILITY_NAMED_IAM"]
                          [("Project", "Udagram"); ("Environment", "Production")]) r))).
  { simpl. split; [exact Hs|]. unfold carries. simpl.
    destruct Hn as [(-> & -> & ->) | (-> & -> & ->)]; [left | right]; auto. }
  destruct r as [[]|id]; cbn [wp bind try_except print_success print_error files_step];
    solve [exact Hnow | apply Hk; exact Hnow].
Qed.

Transparent Create.provision.

Lemma wp_files_provision : wp files_step Create.provision kept_faithful nothing_read.
Proof.
  assert (Hgate : forall (ok : bool) (msg : string) (rest : prog unit) s,
             faithful s -> wp files_step rest kept_faithful s ->
             wp files_step
               (do _ <- (if negb ok then do _ <- print_error msg; sys_exit 1 else Ret tt);
                rest) kept_faithful s).
  { intros [|] msg rest s Hs Hrest; simpl; auto. }
  assert (Hwait : forall name (rest : bool -> prog unit) s,
             faithful s -> (forall ready, wp files_step (rest ready) kept_faithful s) ->
             wp files_step (do ready <- Create.wait_for_stack_creation name; rest ready) kept_faithful s).
  { intros name rest s Hs Hrest. apply wp_files_quiet; auto.
    rewrite wait_for_stack_creation_shape.
    eapply yields_mono; [| |apply wait_with_yields with (forbid := reads_or_creates)];
      auto. }
  assert (Hshow : forall name (rest : prog unit) s,
             faithful s -> wp files_step rest kept_faithful s ->
             wp files_step (do _ <- Create.display_stack_outputs name; rest) kept_faithful s).
  { intros name rest s Hs Hrest. apply wp_files_quiet; auto.
    eapply yields_mono;
      [| |apply display_stack_outputs_yields with (forbid := reads_or_creates)]; auto. }
  unfold Create.provision.
  cbn [bind print_section print wp files_step].
  apply wp_files_stage; [left; auto | exact I |]. intros created s1 H1.
  apply Hgate; [exact H1|]. apply Hwait; [exact H1|]. intros ready.
  apply Hgate; [exact H1|]. apply Hshow; [exact H1|].
  cbn [bind print_section print wp files_step].
  apply wp_files_stage; [right; auto | exact H1 |]. intros created2 s2 H2.
  apply Hgate; [exact H2|]. apply Hwait; [exact H2|]. intros ready2.
  apply Hgate; [exact H2|].
  eapply wp_yields with (allowed := avoids reads_or_creates) (R := fun _ => True).
  - eapply yields_mono;
      [| |apply display_stack_outputs_yields with (forbid := reads_or_creates)]; auto.
  - intros ev. apply files_step_quiet.
  - intros o _. exact H2.
Qed.

Opaque Create.provision.

Lemma wp_files_script : wp files_step Create.script kept_faithful nothing_read.
Proof.
  unfold Create.script. apply wp_toplevel; [reflexivity|].
  unfold Create.main.
  assert (Hend : forall s, faithful s ->
            wp files_step Create.publish_and_summarise
               (fun o s' => match o with
                            | Stop (Exc _) => kept_faithful (@Stop unit (SystemExit 1)) s'
                            | _ => kept_faithful o s'
                            end) s).
  { intros s Hs.
    eapply wp_yields with (allowed := avoids reads_or_creates) (R := fun _ => True).
    - eapply yields_mono;
        [| |apply publish_and_summarise_yields with (forbid := reads_or_creates)]; auto.
    - intros ev. apply files_step_quiet.
    - intros [[]|[e|n]] _; exact Hs. }
  apply wp_bind.
  eapply wp_yields with (allowed := avoids reads_or_creates) (R := fun _ => True).
  - eapply yields_mono; [| |apply precheck_yields with (forbid := reads_or_creates)]; auto.
  - intros ev. apply files_step_quiet.
  - intros [[]|[e|n]] _; try exact I.
    apply wp_bind. eapply wp_mono; [|apply wp_files_provision].
    intros [[]|[e|n]] s Hs; try exact Hs. now apply Hend.
Qed.

End Files.

(** X12. A creation request carries the files of its stack, unchanged.  For
    every creation request of a create run, the template body is the text
    returned by the latest successful read of a template before the request,
    the parameters are the document returned by the latest successful read
    of a parameter file, and those files are [network.yml] and
    [network-parameters.json] for the network stack, [udagram.yml] and
    [udagram-parameters.json] for the application stack. *)
Theorem requests_carry_their_files {W : Type} (E : env W) (w : W)
    (before after : list event) (n t : string) (p : parameters)
    (caps : list string) (tags : list (string * string))
    (r : reply (CF_create_stack n t p caps tags)) :
  trace (exec E Create.script w) = before ++ Called (CF_create_stack n t p caps tags) r :: after ->
  carries (observe files_step nothing_read before) n t p.
Proof.
  intros Htrace.
  pose proof (wp_sound files_step E Create.script _ nothing_read w wp_files_script) as H.
  cbv beta in H. rewrite Htrace, observe_app in H.
  set (s := observe files_step nothing_read before) in *.
  change (faithful (observe files_step
                      (files_step s (Called (CF_create_stack n t p caps tags) r)) after)) in H.
  apply faithful_observe in H. exact (proj2 H).
Qed.

Lemma requests_carry_their_files_witness :
  carries (observe files_step nothing_read (firstn 14 (trace (exec cooperative Create.script 0))))
    Create.NETWORK_STACK_NAME "Resources: {}" [].
Proof.
  apply (requests_carry_their_files cooperative 0 _
           (skipn 15 (trace (exec cooperative Create.script 0)))
           Create.NETWORK_STACK_NAME "Resources: {}" [] ["CAPABILITY_NAMED_IAM"]
           [("Project", "Udagram"); ("Environment", "Production")]
           (inr "arn:aws:cloudformation:stack/udagram-network")).
  vm_compute. reflexivity.
Defined.

(** ** What the helpers print *)

Lemma print_outputs_run {W : Type} (E : env W) (outputs : list output) (w : W) :
  exec E (Create.print_outputs outputs) w =
  Run (flat_map output_lines outputs) (Done tt) w.
Proof.
  induction outputs as [|o rest IH]; [reflexivity|].
  cbn [Create.print_outputs flat_map bind print exec]. unfold output_lines at 1.
  destruct (Description o); cbn [bind print exec]; rewrite IH; reflexivity.
Qed.

(** X13. [display_stack_outputs] lists every output of the stack, in order:
    after one describe call that returns the stack it prints the header and
    then, for each output, the line with its key and value followed by its
    description line when it has one.  For a stack without outputs it prints
    one line saying so; a ClientError of the describe call is reported in
    one line.  In all three cases it returns normally. *)
Theorem display_stack_outputs_lists_all {W : Type} (E : env W) (w : W) (name : string) :
  let r := reply_in E w (CF_describe_stacks name) in
  let run := exec E (Create.display_stack_outputs name) w in
  final run = world_after E w (CF_describe_stacks name) /\
  (forall s rest, r = inr (s :: rest) ->
     outcome run = Done tt /\
     trace run =
       Called (CF_describe_stacks name) r ::
       match default [] (Outputs s) with
       | [] => [Printed (Info ("No outputs available for stack: " +:+ name))]
       | outputs => section_lines ("Stack Outputs: " +:+ name) ++ flat_map output_lines outputs
       end) /\
  (forall m, r = inl (ClientError m) ->
     outcome run = Done tt /\
     trace run = [Called (CF_describe_stacks name) r;
                  Printed (Error ("Failed to get stack outputs: " +:+ m))]).
Proof.
  unfold Create.display_stack_outputs, reply_in, world_after.
  rewrite exec_try_except. cbn [bind perform exec].
  destruct (respond E (CF_describe_stacks name) w) as [[e|[|s rest]] w1];
    cbn [fst snd first_stack raise bind exec recover logged outcome trace final].
  - destruct e; cbn [recover outcome option_map prepend trace final print_error exec logged app];
      (split; [reflexivity|]); (split; [intros ? ? [=] | intros ? [=]]).
    subst. split; reflexivity.
  - split; [reflexivity|]. split; [intros ? ? [=] | intros ? [=]].
  - destruct (default [] (Outputs s)) as [|o outputs] eqn:Houtputs.
    + cbn [print_info exec logged recover outcome trace final].
      split; [reflexivity|]. split; [|intros ? [=]].
      intros s' rest' [= <- <-]. rewrite Houtputs. split; reflexivity.
    + cbn [print_section print bind exec]. rewrite print_outputs_run.
      cbn [logged recover outcome trace final].
      split; [reflexivity|]. split; [|intros ? [=]].
      intros s' rest' [= <- <-]. rewrite Houtputs. split; reflexivity.
Qed.

Example outputs_as_displayed :
  trace (exec describes_two_outputs (Create.display_stack_outputs "udagram-app") 0) =
    Called (CF_describe_stacks "udagram-app") (inr [two_outputs]) ::
    section_lines "Stack Outputs: udagram-app" ++
    [Printed (Plain "  S3BucketName: udagram-bucket");
     Printed (Plain "  LoadBalancerURL: http://lb.example");
     Printed (Plain "    Description: URL of the load balancer")].
Proof. reflexivity. Qed.

Transparent dump_stack_events.

(** X14. After a failed wait the helper lists the events of the stack and
    prints one line for each of the first ten events whose status contains
    FAILED, in the order of the listing, with the text "Unknown error" for
    an event without a reason; events with another status, or after the
    tenth, are not shown.  If the listing raises any Exception, nothing is
    printed and the exception is swallowed; only an interrupt passes. *)
Theorem failed_wait_shows_failed_events {W : Type} (E : env W) (w : W) (name : string) :
  let r := reply_in E w (CF_describe_stack_events name) in
  exec E (dump_stack_events name) w =
  Run (Called (CF_describe_stack_events name) r ::
       match r with
       | inr events =>
           Printed (Plain (newline +:+ "Recent stack events:")) ::
           map diagnostic (List.filter failed_event (firstn 10 events))
       | inl _ => []
       end)
      (match r with
       | inl KeyboardInterrupt => Stop (Exc KeyboardInterrupt)
       | _ => Done tt
       end)
      (world_after E w (CF_describe_stack_events name)).
Proof.
  unfold dump_stack_events, reply_in, world_after.
  rewrite exec_try_except. cbn [bind perform exec].
  destruct (respond E (CF_describe_stack_events name) w) as [[e|events] w1];
    cbn [fst snd print bind exec].
  - destruct e; reflexivity.
  - rewrite dump_failed_events_run. reflexivity.
Qed.

Opaque dump_stack_events.

Example only_early_failures_are_shown :
  length long_event_log = 12 /\
  List.filter is_diagnostic
    (trace (exec (scripted (fun c _ =>
                    match c return reply c with
                    | CF_describe_stack_events _ => inr long_event_log
                    | _ => inl (OtherException "unscripted call")
                    end))
              (dump_stack_events "udagram-app") 0)) =
    [Printed (Plain "  - Resource: Limit exceeded")].
Proof. split; reflexivity. Qed.

(** ** Failures that end a create run *)

Lemma fatal_step_quiet (ev : event) :
  avoids reads_or_uploads ev -> fatal_step Sound ev = Sound.
Proof.
  destruct ev as [l|c r]; [reflexivity|]. unfold avoids. simpl.
  destruct c; simpl; intros H; try discriminate H; destruct r as [[]|v]; reflexivity.
Qed.

Lemma observe_beyond (t : list event) : observe fatal_step Beyond t = Beyond.
Proof. induction t as [|ev t IH]; [reflexivity | exact IH]. Qed.

(** In a run that ends well, a fatal event is followed by its report and
    nothing else. *)
Lemma fatal_event_is_last {A : Type} (o : result A) (before after : list event)
    (ev : event) (report : line) :
  ended_well o (observe fatal_step Sound (before ++ ev :: after)) ->
  fatal_in_create ev = Some report ->
  after = [Printed report] /\ o = Stop (SystemExit 1).
Proof.
  intros H Hfatal. rewrite observe_app in H.
  set (s := observe fatal_step Sound before) in *.
  change (ended_well o (observe fatal_step (fatal_step s ev) after)) in H.
  assert (Hcall : exists c r, ev = Called c r).
  { destruct ev as [l|c r]; [discriminate Hfatal | eauto]. }
  destruct Hcall as (c & r & ->).
  destruct s; cbn [fatal_step] in H; try (rewrite observe_beyond in H; contradiction).
  rewrite Hfatal in H. destruct after as [|[l|c' r'] after].
  - contradiction.
  - destruct after as [|ev after].
    + destruct H as [-> Hexit]. split; [reflexivity | exact Hexit].
    + change (ended_well o (observe fatal_step Beyond after)) in H.
      rewrite observe_beyond in H. contradiction.
  - change (ended_well o (observe fatal_step Beyond after)) in H.
    rewrite observe_beyond in H. contradiction.
Qed.

Section Fatal.

Lemma wp_fatal_quiet {A B : Type} (p : prog A) (k : A -> prog B) :
  yields (avoids reads_or_uploads) never_exits p ->
  (forall v, wp fatal_step (k v) block_ends_well Sound) ->
  wp fatal_step (bind p k) block_ends_well Sound.
Proof.
  intros Hp Hk. apply wp_bind.
  eapply wp_yields; [exact Hp | intros ev; apply fatal_step_quiet |].
  intros [v|[e|n]] Hn; [apply Hk | now left | now destruct (Hn n)].
Qed.

Lemma wp_fatal_last {A : Type} (p : prog A) :
  yields (avoids reads_or_uploads) never_exits p ->
  wp fatal_step p block_ends_well Sound.
Proof.
  intros Hp.
  eapply wp_yields; [exact Hp | intros ev; apply fatal_step_quiet |].
  intros [v|[e|n]] Hn; [reflexivity | now left | now destruct (Hn n)].
Qed.

Lemma wp_fatal_read_template {B : Type} (path : string) (k : string -> prog B) :
  (forall text, wp fatal_step (k text) block_ends_well Sound) ->
  wp fatal_step (do text <- Create.read_template path; k text) block_ends_well Sound.
Proof.
  intros Hk. unfold Create.read_template.
  cbn [wp bind try_except perform]. intros [e|text]; [|apply Hk].
  destruct e;
    cbn [wp bind try_except print_error sys_exit fatal_step fatal_in_create missing_report block_ends_well];
    try (now left).
  split; reflexivity.
Qed.

Lemma wp_fatal_read_parameters {B : Type} (path : string) (k : parameters -> prog B) :
  (forall document, wp fatal_step (k document) block_ends_well Sound) ->
  wp fatal_step (do document <- Create.read_parameters path; k document) block_ends_well Sound.
Proof.
  intros Hk. unfold Create.read_parameters.
  cbn [wp bind try_except perform]. intros [e|document]; [|apply Hk].
  destruct e;
    cbn [wp bind try_except print_error sys_exit fatal_step fatal_in_create missing_report block_ends_well];
    try (now left).
  split; reflexivity.
Qed.

Lemma wp_fatal_gate {B : Type} (ok : bool) (msg : string) (rest : prog B) :
  wp fatal_step rest block_ends_well Sound ->
  wp fatal_step
    (do _ <- (if negb ok then do _ <- print_error msg; sys_exit 1 else Ret tt); rest)
    block_ends_well Sound.
Proof. intros Hrest. destruct ok; simpl; auto. Qed.

Transparent Create.provision Create.publish_and_summarise.

Lemma wp_fatal_provision : wp fatal_step Create.provision block_ends_well Sound.
Proof.
  assert (Hwait : forall name (rest : bool -> prog unit),
             (forall ready, wp fatal_step (rest ready) block_ends_well Sound) ->
             wp fatal_step (do ready <- Create.wait_for_stack_creation name; rest ready)
                block_ends_well Sound).
  { intros name rest Hrest. apply wp_fatal_quiet; auto.
    rewrite wait_for_stack_creation_shape.
    apply (wait_with_yields reads_or_uploads); reflexivity. }
  assert (Hcreate : forall name t p (rest : bool -> prog unit),
             (forall created, wp fatal_step (rest created) block_ends_well Sound) ->
             wp fatal_step (do created <- Create.create_stack name t p; rest created)
                block_ends_well Sound).
  { intros name t p rest Hrest. apply wp_fatal_quiet; auto.
    apply (create_stack_emits reads_or_uploads); reflexivity. }
  unfold Create.provision.
  cbn [bind print_section print wp fatal_step fatal_in_create].
  apply wp_fatal_read_template. intros t1. apply wp_fatal_read_parameters. intros p1.
  apply Hcreate. intros created. apply wp_fatal_gate. apply Hwait. intros ready.
  apply wp_fatal_gate.
  apply wp_fatal_quiet; [apply display_stack_outputs_yields; reflexivity|]. intros _.
  cbn [bind print_section print wp fatal_step fatal_in_create].
  apply wp_fatal_read_template. intros t2. apply wp_fatal_read_parameters. intros p2.
  apply Hcreate. intros created2. apply wp_fatal_gate. apply Hwait. intros ready2.
  apply wp_fatal_gate.
  apply wp_fatal_last, display_stack_outputs_yields. reflexivity.
Qed.

Lemma wp_fatal_publish : wp fatal_step Create.publish_and_summarise block_ends_well Sound.
Proof.
  assert (Hsummary : forall A (p : prog A),
     wp fatal_step p (fun o s => match o with
                                 | Done _ => s = Sound
                                 | Stop sg => block_ends_well (@Stop unit sg) s
                                 end) Sound ->
     wp fatal_step
       (do _ <- p;
        do _ <- print_section "Infrastructure Creation Complete!";
        do load_balancer_url <- get_stack_output Create.APP_STACK_NAME "LoadBalancerURL";
        do _ <- (if truthy load_balancer_url
                 then
                   do _ <- print_success "Your application is now available at:";
                   do _ <- print (newline +:+ "    " +:+ default "" load_balancer_url +:+ newline);
                   do _ <- print_info
                             "Note: It may take a few minutes for the instances to become healthy.";
                   print_info "The health check grace period is 5 minutes."
                 else Ret tt);
        do _ <- print (newline +:+ rule);
        do _ <- print "  Next Steps:";
        do _ <- print "  1. Wait 5-10 minutes for instances to become healthy";
        do _ <- print "  2. Access your application using the URL above";
        do _ <- print "  3. Verify the page displays: 'It works! Udagram, Udacity'";
        print (rule +:+ newline)) block_ends_well Sound).
  { intros A p Hp. apply wp_bind. eapply wp_mono; [|exact Hp].
    intros [v|sg] s Hs; [subst s | exact Hs].
    cbn [bind print_section print wp fatal_step fatal_in_create].
    apply wp_fatal_quiet; [apply get_stack_output_yields; reflexivity|].
    intros url. apply wp_fatal_last. destruct (truthy url); footprint. }
  unfold Create.publish_and_summarise.
  cbn [bind print_section print wp fatal_step fatal_in_create].
  apply wp_fatal_quiet; [apply get_stack_output_yields; reflexivity|].
  intros bucket. apply Hsummary.
  destruct (truthy bucket); [|reflexivity].
  unfold Create.upload_to_s3.
  cbn [wp bind try_except perform print_info fatal_step fatal_in_create].
  intros [e|[]].
  - destruct e;
      cbn [wp bind try_except print_error print_info fatal_step fatal_in_create
           handled_by_upload missing_report];
      solve [reflexivity | now left | now right].
  - reflexivity.
Qed.

Opaque Create.provision Create.publish_and_summarise.

Lemma wp_fatal_script :
  wp fatal_step Create.script (fun o s => ended_well o s) Sound.
Proof.
  unfold Create.script, toplevel. apply wp_try_except.
  assert (Hmain : wp fatal_step Create.main block_ends_well Sound).
  { unfold Create.main. apply wp_bind.
    eapply wp_yields with (allowed := avoids reads_or_uploads) (R := exits_only 1%Z).
    - apply precheck_yields. reflexivity.
    - intros ev. apply fatal_step_quiet.
    - intros [[]|[e|n]] _; try reflexivity; [|now left].
      apply wp_bind. eapply wp_mono; [|apply wp_fatal_provision].
      intros [[]|[e|n]] s Hs; try exact Hs. cbv [block_ends_well] in Hs. subst s.
      apply wp_fatal_publish. }
  eapply wp_mono; [|exact Hmain].
  intros [[]|[e|n]] s Hs; cbv [block_ends_well] in Hs; try (subst s); try exact Hs; try exact I.
  destruct Hs as [-> | ->]; destruct e; cbn; solve [exact I | split; reflexivity].
Qed.

End Fatal.

(** X15. A missing input file stops the create run at once.  Whenever a read
    of a template or of a parameter file raises FileNotFoundError, the run
    prints the one line that names the file and ends with exit status 1:
    nothing is called or printed after that line.  This holds for the files
    of the application stack as for those of the network stack, so a run can
    end here after the network stack has been created. *)
Theorem missing_file_stops_the_create_run {W : Type} (E : env W) (w : W)
    (before after : list event) (c : call) (m : string) (report : line) :
  trace (exec E Create.script w) = before ++ Called c (inl (FileNotFoundError m)) :: after ->
  missing_report c = Some report ->
  after = [Printed report] /\
  outcome (exec E Create.script w) = Stop (SystemExit 1).
Proof.
  intros Htrace Hreport.
  pose proof (wp_sound fatal_step E Create.script _ Sound w wp_fatal_script) as H.
  cbv beta in H. rewrite Htrace in H.
  apply (fatal_event_is_last _ _ _ _ report H).
  destruct c; try discriminate Hreport; exact Hreport.
Qed.

Lemma missing_file_stops_the_create_run_witness :
  skipn 13 (trace (exec parameters_file_missing Create.script 0)) =
    [Printed (Error "Parameter file not found: network-parameters.json")] /\
  outcome (exec parameters_file_missing Create.script 0) = Stop (SystemExit 1).
Proof.
  apply (missing_file_stops_the_create_run parameters_file_missing 0
           (firstn 12 (trace (exec parameters_file_missing Create.script 0)))
           (skipn 13 (trace (exec parameters_file_missing Create.script 0)))
           (ReadJson Create.NETWORK_PARAMETERS)
           "No such file or directory: network-parameters.json"
           (Error "Parameter file not found: network-parameters.json")).
  - vm_compute. reflexivity.
  - reflexivity.
Defined.

(** X16. An upload failure that [upload_to_s3] has no clause for is fatal.
    Whenever the upload call raises an exception other than
    FileNotFoundError and ClientError, the exception reaches the [__main__]
    block: the run prints the one line that reports it and ends with exit
    status 1, so that neither the advice to upload manually nor the final
    summary is printed. *)
Theorem unhandled_upload_error_is_fatal {W : Type} (E : env W) (w : W)
    (before after : list event) (f b key content_type : string) (e : exn) :
  trace (exec E Create.script w) =
    before ++ Called (S3_upload_file f b key content_type) (inl e) :: after ->
  handled_by_upload e = false ->
  after = [Printed (crash_report e)] /\
  outcome (exec E Create.script w) = Stop (SystemExit 1).
Proof.
  intros Htrace Hunhandled.
  pose proof (wp_sound fatal_step E Create.script _ Sound w wp_fatal_script) as H.
  cbv beta in H. rewrite Htrace in H.
  apply (fatal_event_is_last _ _ _ _ (crash_report e) H).
  cbn [fatal_in_create]. now rewrite Hunhandled.
Qed.

Lemma unhandled_upload_error_is_fatal_witness :
  skipn 52 (trace (exec upload_transfer_fails Create.script 0)) =
    [Printed (Error "Unexpected error: Failed to upload: AccessDenied")] /\
  outcome (exec upload_transfer_fails Create.script 0) = Stop (SystemExit 1).
Proof.
  apply (unhandled_upload_error_is_fatal upload_transfer_fails 0
           (firstn 51 (trace (exec upload_transfer_fails Create.script 0)))
           (skipn 52 (trace (exec upload_transfer_fails Create.script 0)))
           Create.STATIC_CONTENT_FILE "udagram-bucket" "index.html" "text/html"
           (OtherException "Failed to upload: AccessDenied")).
  - vm_compute. reflexivity.
  - reflexivity.
Defined.

(** ** Runs in which nothing goes wrong *)

Section Progress.
Variable milestone : event -> bool.
Variable favourable : list event -> nat -> event -> bool.
Hypothesis print_is_no_milestone : forall l, milestone (Printed l) = false.
Hypothesis print_is_favourable : forall ms c l, favourable ms c (Printed l) = true.
Hypothesis poll_milestone :
  forall k n (r : reply (CF_waiter_poll k n)),
    milestone (Called _ r) = match r with inr PollSuccess => true | _ => false end.
Hypothesis poll_favourable :
  forall ms c k n (r : reply (CF_waiter_poll k n)),
    favourable ms c (Called _ r) =
    match r with
    | inr PollSuccess => true
    | inr PollWaiting => c <? 119
    | _ => false
    end.
Hypothesis sleep_is_no_milestone :
  forall d (r : reply (Sleep d)), milestone (Called _ r) = false.
Hypothesis sleep_favourable :
  forall ms c d (r : reply (Sleep d)), favourable ms c (Called _ r) = is_ok r.

Lemma progress_step_eq (ms : list event) (c : nat) (u : bool) (ev : event) :
  progress_step milestone favourable (Progress ms c u) ev =
  Progress (if milestone ev then ms ++ [ev] else ms)
           match ev with
           | Printed _ => c
           | Called (CF_waiter_poll _ _) _ => S c
           | Called (Sleep _) _ => c
           | Called _ _ => 0
           end
           (u && favourable ms c ev).
Proof. reflexivity. Qed.

Lemma progress_print (p : progress) (l : line) : progress_step milestone favourable p (Printed l) = p.
Proof.
  destruct p as [ms c u]. unfold progress_step. cbn [milestones attempts untroubled].
  now rewrite print_is_no_milestone, print_is_favourable, andb_true_r.
Qed.

Lemma troubled_stays (p : progress) (ev : event) :
  untroubled p = false -> untroubled (progress_step milestone favourable p ev) = false.
Proof. intros H. unfold progress_step. cbn [untroubled]. now rewrite H. Qed.

(** Once a reply was unfavourable, nothing more is asked of the run. *)
Lemma wp_troubled {A : Type} (p : prog A) (Q : result A -> progress -> Prop) (s : progress) :
  untroubled s = false ->
  (forall o s', untroubled s' = false -> Q o s') ->
  wp (progress_step milestone favourable) p Q s.
Proof.
  intros Hs HQ. revert s Hs. induction p as [a|sg|l k IH|c k IH]; intros s Hs; simpl.
  - now apply HQ.
  - now apply HQ.
  - apply IH. now apply troubled_stays.
  - intros r. apply IH. now apply troubled_stays.
Qed.

Lemma milestones_observe (t : list event) (p : progress) :
  milestones (observe (progress_step milestone favourable) p t) = milestones p ++ List.filter milestone t.
Proof.
  revert p. induction t as [|ev t IH]; intros p; simpl.
  - now rewrite app_nil_r.
  - change (fold_left (progress_step milestone favourable) t (progress_step milestone favourable p ev)) with (observe (progress_step milestone favourable) (progress_step milestone favourable p ev) t).
    rewrite IH. cbn [progress_step milestones].
    destruct (milestone ev); [now rewrite <- app_assoc | reflexivity].
Qed.

Section Wait.
Variable Q : result unit -> progress -> Prop.
Hypothesis Q_troubled : forall o s, untroubled s = false -> Q o s.
Variables (k : waiter) (name done_msg failed_msg : string).
Variable cont : bool -> prog unit.
Variable ms : list event.
Hypothesis Hcont :
  forall c, wp (progress_step milestone favourable) (cont true) Q
              (Progress (ms ++ [Called (CF_waiter_poll k name) (inr PollSuccess)]) c true).

Lemma wp_polling (n : nat) :
  forall c, S n + c = 120 ->
  wp (progress_step milestone favourable)
    (do ready <- try_except
                   (do _ <- waiter_loop k name 30 (S n);
                    do _ <- print_success done_msg;
                    Ret true)
                   (fun e =>
                      match e with
                      | WaiterError m =>
                          Some (do _ <- print_error (failed_msg +:+ m);
                                do _ <- dump_stack_events name;
                                Ret false)
                      | _ => None
                      end);
     cont ready) Q (Progress ms c true).
Proof.
  induction n as [|n IH]; intros c Hc; rewrite waiter_loop_S;
    cbn [wp bind try_except perform]; intros r;
    rewrite progress_step_eq, poll_milestone, poll_favourable;
    destruct r as [e|[| |]]; cbn [andb];
    try (apply wp_troubled; [reflexivity | exact Q_troubled]).
  - cbn [wp bind try_except print_success]. rewrite progress_print. apply Hcont.
  - replace (c <? 119) with false by (symmetry; apply Nat.ltb_ge; lia).
    apply wp_troubled; [reflexivity | exact Q_troubled].
  - cbn [wp bind try_except print_success]. rewrite progress_print. apply Hcont.
  - replace (c <? 119) with true by (symmetry; apply Nat.ltb_lt; lia).
    cbn [wp bind try_except perform]. intros r.
    rewrite progress_step_eq, sleep_is_no_milestone, sleep_favourable.
    destruct r as [e|[]]; cbn [andb is_ok].
    + apply wp_troubled; [reflexivity | exact Q_troubled].
    + apply IH. lia.
Qed.

Lemma wp_wait_untroubled (announce : string) :
  wp (progress_step milestone favourable) (do ready <- wait_with k name announce done_msg failed_msg; cont ready)
     Q (Progress ms 0 true).
Proof.
  unfold wait_with, waiter_wait. cbn [wp bind print_info]. rewrite !progress_print.
  apply (wp_polling 119 0). reflexivity.
Qed.

End Wait.

End Progress.

Lemma wp_bind_assoc {S A B C : Type} (step : S -> event -> S) (m : prog A)
    (f : A -> prog B) (g : B -> prog C) (Q : result C -> S -> Prop) (s : S) :
  wp step (do x <- m; do y <- f x; g y) Q s ->
  wp step (do y <- (do x <- m; f x); g y) Q s.
Proof.
  revert s. induction m as [a|sg|l k IH|c k IH]; intros s; cbn [bind wp]; auto.
Qed.

Lemma create_progress_print (p : progress) (l : line) : create_progress p (Printed l) = p.
Proof. apply progress_print; reflexivity. Qed.

Lemma create_progress_eq (ms : list event) (c : nat) (u : bool) (ev : event) :
  create_progress (Progress ms c u) ev =
  Progress (if create_milestone ev then ms ++ [ev] else ms)
           match ev with
           | Printed _ => c
           | Called (CF_waiter_poll _ _) _ => S c
           | Called (Sleep _) _ => c
           | Called _ _ => 0
           end
           (u && create_favourable ms c ev).
Proof. reflexivity. Qed.

Lemma wp_create_troubled {A : Type} (p : prog A) (Q : result A -> progress -> Prop)
    (ms : list event) (c : nat) :
  (forall o s, untroubled s = false -> Q o s) ->
  wp create_progress p Q (Progress ms c false).
Proof. intros HQ. apply wp_troubled; [reflexivity | exact HQ]. Qed.

Lemma wp_create_wait (Q : result unit -> progress -> Prop) (name : string)
    (cont : bool -> prog unit) (ms : list event) :
  (forall o s, untroubled s = false -> Q o s) ->
  (forall c, wp create_progress (cont true) Q
               (Progress (ms ++ [Called (CF_waiter_poll stack_create_complete name)
                                   (inr PollSuccess)]) c true)) ->
  wp create_progress (do ready <- Create.wait_for_stack_creation name; cont ready)
     Q (Progress ms 0 true).
Proof.
  intros HQ Hcont. rewrite wait_for_stack_creation_shape.
  apply wp_wait_untroubled; try reflexivity; assumption.
Qed.

Lemma delete_progress_print (p : progress) (l : line) : delete_progress p (Printed l) = p.
Proof. apply progress_print; reflexivity. Qed.

Lemma delete_progress_eq (ms : list event) (c : nat) (u : bool) (ev : event) :
  delete_progress (Progress ms c u) ev =
  Progress (if delete_milestone ev then ms ++ [ev] else ms)
           match ev with
           | Printed _ => c
           | Called (CF_waiter_poll _ _) _ => S c
           | Called (Sleep _) _ => c
           | Called _ _ => 0
           end
           (u && delete_favourable ms c ev).
Proof. reflexivity. Qed.

Lemma wp_delete_troubled {A : Type} (p : prog A) (Q : result A -> progress -> Prop)
    (ms : list event) (c : nat) :
  (forall o s, untroubled s = false -> Q o s) ->
  wp delete_progress p Q (Progress ms c false).
Proof. intros HQ. apply wp_troubled; [reflexivity | exact HQ]. Qed.

Lemma wp_delete_wait (Q : result unit -> progress -> Prop) (name : string)
    (cont : bool -> prog unit) (ms : list event) :
  (forall o s, untroubled s = false -> Q o s) ->
  (forall c, wp delete_progress (cont true) Q
               (Progress (ms ++ [Called (CF_waiter_poll stack_delete_complete name)
                                   (inr PollSuccess)]) c true)) ->
  wp delete_progress (do gone <- Delete.wait_for_stack_deletion name; cont gone)
     Q (Progress ms 0 true).
Proof.
  intros HQ Hcont. rewrite wait_for_stack_deletion_shape.
  apply wp_wait_untroubled; try reflexivity; assumption.
Qed.

Ltac stride Q_troubled :=
  repeat first
    [ rewrite create_progress_print
    | rewrite delete_progress_print
    | rewrite create_progress_eq
    | rewrite delete_progress_eq
    | progress cbn [wp bind try_except perform print_section print print_info print_error
                    print_success Delete.print_warning sys_exit raise negb first_stack truthy
                    default from_option id
                    create_milestone create_favourable delete_milestone delete_favourable
                    is_ok handled_by_upload andb app]
    | match goal with
      | |- wp create_progress _ _ (Progress _ _ false) =>
          apply wp_create_troubled; exact Q_troubled
      | |- wp delete_progress _ _ (Progress _ _ false) =>
          apply wp_delete_troubled; exact Q_troubled
      | |- forall r : reply _, _ =>
          let r := fresh "r" in intros r; destruct r as [[?|?|?| |?]|?]
      | |- context [first_stack ?v] => is_var v; destruct v as [|? ?]
      | |- context [default [] (Outputs ?s)] => destruct (Outputs s) as [[|? ?]|]
      | |- creation_completes _ (Progress _ _ false) =>
          let Hu := fresh in intros Hu; discriminate Hu
      | |- deletion_completes _ _ (Progress _ _ false) =>
          let Hu := fresh in intros Hu; discriminate Hu
      | |- _ _ (Progress _ _ false) => apply Q_troubled; reflexivity
      | |- context [py_in ?a ?b] => destruct (py_in a b)
      | |- context [scan_outputs ?l ?k] => destruct (scan_outputs l k) as [[|? ?]|]
      end ].

Lemma wp_print_outputs_untroubled (Q : result unit -> progress -> Prop)
    (h : exn -> option (prog unit)) (cont : unit -> prog unit)
    (ms : list event) (c : nat) (outputs : list output) :
  wp create_progress (cont tt) Q (Progress ms c true) ->
  wp create_progress (do v <- try_except (Create.print_outputs outputs) h; cont v)
     Q (Progress ms c true).
Proof.
  intros Hcont. induction outputs as [|o rest IH]; [exact Hcont|].
  cbn [Create.print_outputs bind try_except wp print]. rewrite create_progress_eq.
  destruct (Description o); cbn [bind try_except wp print];
    rewrite ?create_progress_eq; exact IH.
Qed.

Lemma wp_display_untroubled (Q : result unit -> progress -> Prop) (name : string)
    (cont : unit -> prog unit) (first : event) (ms : list event) (c : nat) :
  (forall o s, untroubled s = false -> Q o s) ->
  wp create_progress (cont tt) Q (Progress (first :: ms) 0 true) ->
  wp create_progress (do v <- Create.display_stack_outputs name; cont v)
     Q (Progress (first :: ms) c true).
Proof.
  intros HQ Hcont. unfold Create.display_stack_outputs. stride HQ; try exact Hcont.
  apply wp_print_outputs_untroubled; exact Hcont.
Qed.

Lemma wp_get_stack_output_untroubled {B : Type} (Q : result B -> progress -> Prop)
    (name key : string) (cont : option string -> prog B)
    (first : event) (ms : list event) (c : nat) :
  (forall o s, untroubled s = false -> Q o s) ->
  (forall v, wp create_progress (cont v) Q (Progress (first :: ms) 0 true)) ->
  wp create_progress (do v <- get_stack_output name key; cont v)
     Q (Progress (first :: ms) c true).
Proof.
  intros HQ Hcont. unfold get_stack_output. stride HQ; apply Hcont.
Qed.

Lemma wp_upload_untroubled {B : Type} (Q : result B -> progress -> Prop)
    (bucket file key : string) (cont : bool -> prog B)
    (first : event) (ms : list event) (c : nat) :
  (forall o s, untroubled s = false -> Q o s) ->
  (forall ok, wp create_progress (cont ok) Q (Progress (first :: ms) 0 true)) ->
  wp create_progress (do ok <- Create.upload_to_s3 bucket file key; cont ok)
     Q (Progress (first :: ms) c true).
Proof.
  intros HQ Hcont. unfold Create.upload_to_s3. stride HQ; apply Hcont.
Qed.

Transparent Create.provision Create.publish_and_summarise.

Lemma wp_create_untroubled :
  wp create_progress Create.script creation_completes at_start.
Proof.
  assert (HQ : forall (o : result unit) s, untroubled s = false ->
                 match o with
                 | Stop (Exc _) => creation_completes (Stop (SystemExit 1)) s
                 | _ => creation_completes o s
                 end).
  { intros o s Hs. unfold creation_completes.
    destruct o as [|[|]]; intros Hu; congruence. }
  unfold Create.script. apply wp_toplevel; [apply create_progress_print|].
  unfold Create.main, at_start, Create.precheck, Create.stack_exists, Create.provision,
    Create.read_template, Create.read_parameters, Create.create_stack.
  stride HQ.
  apply wp_bind_assoc, wp_create_wait; [exact HQ | intros c]. stride HQ.
  apply wp_bind_assoc, wp_display_untroubled; [exact HQ|]. stride HQ.
  apply wp_bind_assoc, wp_create_wait; [exact HQ | intros c']. stride HQ.
  apply wp_display_untroubled; [exact HQ|].
  unfold Create.publish_and_summarise. stride HQ.
  apply wp_get_stack_output_untroubled; [exact HQ | intros bucket].
  assert (Hsummary :
    wp create_progress
       (do _ <- print_section "Infrastructure Creation Complete!";
        do load_balancer_url <- get_stack_output Create.APP_STACK_NAME "LoadBalancerURL";
        do _ <- (if truthy load_balancer_url
                 then
                   do _ <- print_success "Your application is now available at:";
                   do _ <- print (newline +:+ "    " +:+ default "" load_balancer_url +:+ newline);
                   do _ <- print_info "Note: It may take a few minutes for the instances to become healthy.";
                   print_info "The health check grace period is 5 minutes."
                 else Ret tt);
        do _ <- print (newline +:+ rule);
        do _ <- print "  Next Steps:";
        do _ <- print "  1. Wait 5-10 minutes for instances to become healthy";
        do _ <- print "  2. Access your application using the URL above";
        do _ <- print "  3. Verify the page displays: 'It works! Udagram, Udacity'";
        print (rule +:+ newline))
       (fun o s' => match o with
                    | Stop (Exc _) => creation_completes (Stop (SystemExit 1)) s'
                    | _ => creation_completes o s'
                    end)
       (Progress
          [Called (CF_create_stack Create.NETWORK_STACK_NAME v v0 ["CAPABILITY_NAMED_IAM"]
                     [("Project", "Udagram"); ("Environment", "Production")]) (inr v1);
           Called (CF_waiter_poll stack_create_complete Create.NETWORK_STACK_NAME)
             (inr PollSuccess);
           Called (CF_create_stack Create.APP_STACK_NAME v2 v3 ["CAPABILITY_NAMED_IAM"]
                     [("Project", "Udagram"); ("Environment", "Production")]) (inr v4);
           Called (CF_waiter_poll stack_create_complete Create.APP_STACK_NAME)
             (inr PollSuccess)] 0 true)).
  { stride HQ.
    apply wp_get_stack_output_untroubled; [exact HQ | intros url].
    destruct url as [[|a url]|]; stride HQ;
      (intros _; split; [reflexivity|]; exists v, v0, v1, v2, v3, v4; reflexivity). }
  destruct bucket as [[|a bucket]|]; stride HQ; try exact Hsummary.
  apply wp_bind_assoc, wp_upload_untroubled; [exact HQ | intros ok].
  destruct ok; stride HQ; exact Hsummary.
Qed.

Opaque Create.provision Create.publish_and_summarise.

Lemma wp_delete_untroubled (b : string) :
  b <> "" ->
  wp delete_progress (toplevel (after_resolution b)) (deletion_completes b) at_start.
Proof.
  intros Hb.
  assert (HQ : forall (o : result unit) s, untroubled s = false ->
                 match o with
                 | Stop (Exc _) => deletion_completes b (Stop (SystemExit 1)) s
                 | _ => deletion_completes b o s
                 end).
  { intros o s Hs. unfold deletion_completes.
    destruct o as [|[|]]; intros Hu; congruence. }
  apply wp_toplevel; [apply delete_progress_print|].
  destruct b as [|a b]; [contradiction|].
  unfold after_resolution, at_start, Delete.empty_or_exit, Delete.empty_s3_bucket,
    Delete.delete_app_step, Delete.delete_network_step, Delete.delete_stack, Delete.summary.
  stride HQ.
  apply wp_bind_assoc, wp_delete_wait; [exact HQ | intros c]. stride HQ.
  apply wp_bind_assoc, wp_delete_wait; [exact HQ | intros c']. stride HQ.
  intros _. split; [reflexivity|].
  repeat match goal with u : value _ |- _ => destruct u end. reflexivity.
Qed.

(** C6. The create flow is sequential and gated.  Whatever the services
    answer, the trace of a create run is accepted by [create_step]: the
    network stack is requested first, the application stack only after a poll
    found the network stack in its terminal success state, the upload only
    after a poll found the application stack ready; once a request is
    rejected or a wait fails no later stage runs, and such a run exits with
    code 1, since a run that exits with code 0 has brought both stacks to
    terminal success and every other run exits with code 1.  Calls never
    overlap: the trace is a sequence.  And the flow does go through its
    stages: in every run in which nothing goes wrong (neither stack exists
    at the start, the files are read, the requests are accepted, each wait
    sees success before its attempts run out) the run exits with code 0 and
    its creation requests and successful polls are exactly the request for
    the network stack, the poll that finds it ready, the request for the
    application stack and the poll that finds it ready, in this order. *)
Theorem create_flow_is_gated {W : Type} (E : env W) (w : W) :
  observe create_step Nothing (trace (exec E Create.script w)) <> Violated /\
  (exit_code (outcome (exec E Create.script w)) = 0%Z ->
   observe create_step Nothing (trace (exec E Create.script w)) = AppReady) /\
  (exit_code (outcome (exec E Create.script w)) = 0%Z \/
   exit_code (outcome (exec E Create.script w)) = 1%Z) /\
  (observe create_step Nothing (trace (exec E Create.script w)) = Halted ->
   exit_code (outcome (exec E Create.script w)) = 1%Z) /\
  (untroubled (observe create_progress at_start (trace (exec E Create.script w))) = true ->
   exit_code (outcome (exec E Create.script w)) = 0%Z /\
   created_in_order (List.filter create_milestone (trace (exec E Create.script w)))).
Proof.
  destruct (create_run_is_accepted E w) as (Hsafe & Hready & Hcode).
  split; [exact Hsafe|]. split; [exact Hready|]. split; [exact Hcode|]. split.
  - intros Hhalted. destruct Hcode as [Hzero|Hone]; [|exact Hone].
    apply Hready in Hzero. rewrite Hzero in Hhalted. discriminate.
  - intros Hu.
    destruct (wp_sound create_progress E Create.script _ at_start w wp_create_untroubled Hu)
      as (Hdone & Horder).
    split; [now rewrite Hdone|].
    unfold create_progress in Horder. now rewrite milestones_observe in Horder.
Qed.

Lemma create_flow_is_gated_witness :
  exit_code (outcome (exec cooperative Create.script 0)) = 0%Z /\
  created_in_order (List.filter create_milestone (trace (exec cooperative Create.script 0))).
Proof.
  apply (create_flow_is_gated cooperative 0). vm_compute. reflexivity.
Defined.

(** C7. A delete run that is confirmed, finds both stacks and reads the
    bucket name [b] from the outputs of the application stack calls the
    deletion of the objects of [b] first, before any other mutation, and
    keeps the order of [delete_step]: objects, then versions, then the
    application stack and the wait for it, then the network stack and the
    wait for it.  It exits with code 0 exactly when the network stack was
    found gone at the end of that sequence, and with code 1 otherwise; when
    an emptying call fails, the run exits with code 1 and the trace holds no
    request to delete a stack.  And the run does go through its stages: when
    nothing goes wrong (each emptying call and each deletion request is
    accepted, each wait sees success before its attempts run out) it exits
    with code 0 and its emptying calls, deletion requests and successful
    polls are exactly [deleted_in_order b]: the objects, the versions, the
    application stack, the poll that finds it gone, the network stack, the
    poll that finds it gone. *)
Theorem delete_flow_empties_then_deletes {W : Type} (E : env W) (w0 w1 w2 w3 w4 : W)
    (answer : string)
    (r_app : reply (CF_describe_stacks Delete.APP_STACK_NAME))
    (r_net : reply (CF_describe_stacks Delete.NETWORK_STACK_NAME))
    (s : stack) (rest : list stack) (b : string) :
  answers E w0 (Input confirmation_prompt) (inr answer) w1 ->
  Delete.accepted answer = true ->
  answers E w1 (CF_describe_stacks Delete.APP_STACK_NAME) r_app w2 ->
  present r_app ->
  answers E w2 (CF_describe_stacks Delete.NETWORK_STACK_NAME) r_net w3 ->
  present r_net ->
  answers E w3 (CF_describe_stacks Delete.APP_STACK_NAME) (inr (s :: rest)) w4 ->
  scan_outputs (default [] (Outputs s)) "S3BucketName" = Some b ->
  b <> "" ->
  (exists tail,
      calls (trace (exec E Delete.script w0)) =
      checks answer r_app r_net s rest ++
      Called (S3_delete_objects b) (reply_in E w4 (S3_delete_objects b)) :: tail) /\
  observe (delete_step b) ToEmpty (trace (exec E Delete.script w0)) <> Broken /\
  (exit_code (outcome (exec E Delete.script w0)) = 0%Z <->
   observe (delete_step b) ToEmpty (trace (exec E Delete.script w0)) = NetworkGone) /\
  (exit_code (outcome (exec E Delete.script w0)) = 0%Z \/
   exit_code (outcome (exec E Delete.script w0)) = 1%Z) /\
  (observe (delete_step b) ToEmpty (trace (exec E Delete.script w0)) = EmptyFailed ->
   exit_code (outcome (exec E Delete.script w0)) = 1%Z /\
   issued is_delete_stack (trace (exec E Delete.script w0)) = false) /\
  (untroubled (observe delete_progress at_start (trace (exec E Delete.script w0))) = true ->
   exit_code (outcome (exec E Delete.script w0)) = 0%Z /\
   List.filter delete_milestone (trace (exec E Delete.script w0)) = deleted_in_order b).
Proof.
  intros Hin Hyes Happ Happ_present Hnet Hnet_present Hout Hbucket Hnonempty.
  destruct (delete_run_is_accepted E w0 w1 w2 w3 w4 answer r_app r_net s rest b
              Hin Hyes Happ Happ_present Hnet Hnet_present Hout Hbucket Hnonempty)
    as (Hfirst & Hsafe & Hzero & Hcode & Hfailed).
  repeat (split; [assumption|]).
  destruct (delete_script_resolved E w0 w1 w2 w3 w4 answer r_app r_net s rest b
              Hin Hyes Happ Happ_present Hnet Hnet_present Hout Hbucket)
    as (pre & Hrun & Hcalls).
  assert (Hpre : observe delete_progress at_start pre = at_start).
  { rewrite (observe_calls delete_progress pre at_start delete_progress_print), Hcalls.
    reflexivity. }
  assert (Hquiet : List.filter delete_milestone pre = []).
  { assert (H : List.filter delete_milestone (calls pre) = []) by (rewrite Hcalls; reflexivity).
    revert H. clear. unfold calls.
    induction pre as [|[l|c r] t IH]; cbn [List.filter is_call]; auto.
    destruct (delete_milestone (Called c r)); [discriminate|auto]. }
  rewrite Hrun. unfold prepend. cbn [trace outcome].
  rewrite observe_app, Hpre, List.filter_app, Hquiet. cbn [app].
  intros Hu.
  destruct (wp_sound delete_progress E _ _ at_start w4 (wp_delete_untroubled b Hnonempty) Hu)
    as (Hdone & Horder).
  split; [now rewrite Hdone|].
  unfold delete_progress in Horder. now rewrite milestones_observe in Horder.
Qed.

Lemma delete_flow_empties_then_deletes_witness :
  exit_code (outcome (exec both_stacks_up Delete.script 0)) = 0%Z /\
  List.filter delete_milestone (trace (exec both_stacks_up Delete.script 0)) =
  deleted_in_order "udagram-bucket".
Proof.
  assert (Hstatus : StackStatus two_outputs <> "DELETE_COMPLETE") by discriminate.
  assert (Hname : "udagram-bucket" <> "") by discriminate.
  apply (delete_flow_empties_then_deletes both_stacks_up 0 1 2 3 4 "yes"
           (inr [two_outputs]) (inr [two_outputs]) two_outputs [] "udagram-bucket"
           eq_refl eq_refl eq_refl Hstatus eq_refl Hstatus eq_refl eq_refl Hname).
  vm_compute. reflexivity.
Defined.

(** C8. An upload that the remote service rejects is fatal in the code.
    The transfer layer raises an exception of its own for a rejected upload,
    which is neither FileNotFoundError nor ClientError, the two classes
    [upload_to_s3] has a clause for.  On [upload_transfer_fails] both stacks
    reach terminal success and the upload is then rejected in this way: the
    exception reaches the [__main__] block, the run ends right after the
    failed call with the one line that reports an unexpected error, it prints
    neither the report of a failed upload, nor the advice to upload
    manually, nor the header of the final summary, and it exits with
    code 1. *)
Theorem rejected_upload_ends_the_run :
  observe create_step Nothing (trace (exec upload_transfer_fails Create.script 0)) = AppReady /\
  (exists before,
      trace (exec upload_transfer_fails Create.script 0) =
      before ++
      [Called (S3_upload_file Create.STATIC_CONTENT_FILE "udagram-bucket" "index.html"
                 "text/html")
         (inl (OtherException "Failed to upload: AccessDenied"));
       Printed (Error "Unexpected error: Failed to upload: AccessDenied")]) /\
  handled_by_upload (OtherException "Failed to upload: AccessDenied") = false /\
  ~ In (Printed (Error "Failed to upload static content."))
       (trace (exec upload_transfer_fails Create.script 0)) /\
  ~ In (Printed (Info "You can manually upload the file later."))
       (trace (exec upload_transfer_fails Create.script 0)) /\
  ~ In (Printed (Plain "  Infrastructure Creation Complete!"))
       (trace (exec upload_transfer_fails Create.script 0)) /\
  exit_code (outcome (exec upload_transfer_fails Create.script 0)) = 1%Z.
Proof.
  split; [vm_compute; reflexivity|]. split.
  { exists (firstn 51 (trace (exec upload_transfer_fails Create.script 0))).
    vm_compute. reflexivity. }
  split; [reflexivity|].
  repeat split;
    try (intros H; vm_compute in H;
         repeat (destruct H as [H|H]; [discriminate H|]); exact H).
Qed.
